(** * LegoOS: process checkpointing, the scheduler clock and the FIT
      machine table

    A shallow embedding of [managers/processor/checkpoint/core.c], of
    [sched_clock] of [kernel/sched/core.c] and of
    [linux-modules/fit/fit_machine.c].

    Straight-line kernel code is embedded in a state-and-fault monad over
    an explicit kernel state (task table, signal structs, kmalloc heap,
    jiffies, call trace).  [checkpoint_thread] blocks in [schedule()] and
    busy-waits on an atomic counter written by other threads, so it is
    embedded as a labelled step function (one label per source statement
    that touches shared memory) and threads are interleaved by an
    explicit schedule.  The FIT machine table is a module of its own with
    its own globals; its functions are embedded in a second monad over
    these globals whose results tell a return from [panic()], [BUG_ON]
    and a wild access. *)

From stdpp Require Import gmap list strings.

#[local] Open Scope Z_scope.

(** ** C integer types *)

(** [int]: 32-bit two's complement. *)
Definition wrap_int (z : Z) : Z := (z + 2 ^ 31) mod 2 ^ 32 - 2 ^ 31.

(** [unsigned long]: 64 bits. *)
Definition wrap_ulong (z : Z) : Z := z mod 2 ^ 64.

(** The cast [(long)x] of an [unsigned long]. *)
Definition to_long (z : Z) : Z := (z + 2 ^ 63) mod 2 ^ 64 - 2 ^ 63.

(** [time_after(a, b)] is [((long)((b) - (a)) < 0)]. *)
Definition time_after (a b : Z) : bool := bool_decide (to_long (wrap_ulong (b - a)) < 0).

(** ** Constants of headers outside this file *)

(** [lego/time.h] is not part of the sources at hand; the constant is the
    number of milliseconds per second its name states. *)
Definition MSEC_PER_SEC : Z := 1000.

(** errno values ([ESRCH], [ENOMEM]) as in the kernel's errno-base.h. *)
Definition ESRCH : Z := 3.
Definition ENOMEM : Z := 12.

(** A runnable task has state 0. *)
Definition TASK_RUNNING : Z := 0.

(** ** Tunables (core.c lines 25-33) *)

(** Initial value of the global [checkpoint_barrier_timeout_msec]; the
    argument is whether CONFIG_CHECKPOINT_DEBUG is defined. *)
Definition checkpoint_barrier_timeout_msec (config_checkpoint_debug : bool) : Z :=
  if config_checkpoint_debug then 5 * MSEC_PER_SEC else 500.

Definition checkpoint_job_timeout_msec : Z := 10 * MSEC_PER_SEC.

(** ** Kernel data *)

(** The fields of [struct task_struct] this file reads or writes.  A
    [struct task_struct *] is modelled by the key of the task in the task
    table. *)
Record task_struct := mk_task {
  pid : Z;
  tgid : Z;
  state : Z;
  TIF_NEED_CHECKPOINT : bool;
  group_leader : Z;
  signal : Z;
  process_barrier : Z
}.

(** [struct signal_struct], shared by the threads of a group:
    [for_each_thread(p, t)] walks [p->signal->thread_head]. *)
Record signal_struct := mk_signal {
  nr_threads : Z;
  thread_head : list Z
}.

(** One slot of the [ss_tasks] array; a field is [None] until written
    (kmalloc does not initialise memory). *)
Record ss_task_struct := mk_ss_task {
  ss_pid : option Z;
  ss_regs : option Z
}.

(** [struct process_snapshot]: a local variable of
    [__do_checkpoint_process].  A field is [None] until written. *)
Record process_snapshot := mk_ps {
  nr_tasks : Z;
  ps_tasks : option Z;
  ps_files : option Z;
  ps_signals : option Z
}.

(** Calls that leave this file, and the debug output, are recorded in a
    trace. *)
Inductive event :=
  | E_debug_enter (p_pid p_tgid : Z)
  | E_debug_abort (leader_pid nr timeout_msec : Z)
  | E_debug_thread (i t_pid t_state : Z) (need_checkpoint : bool)
  | E_debug_elapsed
  | E_debug_set_need_checkpoint (t_pid t_tgid : Z)
  | E_pr_info_bug (t_state t_pid : Z)
  | E_warn_fail_to_wake (t_pid t_tgid t_state : Z)
  | E_BUG
  | E_spin_lock_irqsave
  | E_spin_unlock_irqrestore
  | E_preempt_disable
  | E_preempt_enable_no_resched
  | E_kmalloc (size : Z) (res : option Z)
  | E_kfree (addr : Z)
  | E_save_open_files (leader ret : Z)
  | E_save_signals (leader ret : Z)
  | E_revert_save_open_files (leader : Z)
  | E_save_thread_regs (t i : Z)
  | E_do_checkpoint_process (leader : Z)
  | E_wake_up_state (t mask : Z) (woken : bool)
  | E_kick_process (t : Z)
  | E_atomic_inc (t : Z)
  | E_atomic_set (t v : Z)
  | E_schedule
  | E_syscall_enter (pid : Z)
  | E_syscall_exit (ret : Z).

#[global] Instance event_eq_dec : EqDecision event.
Proof. solve_decision. Defined.

(** The kernel state shared by all threads.  [current] is the task the
    running step executes on behalf of; every trace entry carries it. *)
Record kernel := mk_kernel {
  tasks : gmap Z task_struct;
  signals : gmap Z signal_struct;
  pid_hash : gmap Z Z;
  heap : gmap Z (list ss_task_struct);
  jiffies : Z;
  barrier_timeout_msec : Z;
  current : Z;
  trace : list (Z * event)
}.

(** ** Collaborators outside this file

    The build configuration, the constants of [lego/sched.h], and the
    functions this file calls but does not define.  The functions are
    taken as parameters; each may depend on the whole kernel state. *)
Record externals := mk_externals {
  CONFIG_CHECKPOINT_DEBUG : bool;
  TASK_CHECKPOINTING : Z;
  TASK_ALL : Z;
  sizeof_ss_task : Z;
  msecs_to_jiffies : Z -> Z;
  (** [kmalloc(size, GFP_KERNEL)]: the address, or [None] for NULL. *)
  kmalloc_addr : kernel -> Z -> option Z;
  (** [save_open_files(leader, &ps)]: return code and the fragment left in [ps]. *)
  save_open_files_res : kernel -> Z -> Z * Z;
  (** [save_signals(leader, &ps)]: return code and the fragment left in [ps]. *)
  save_signals_res : kernel -> Z -> Z * Z;
  (** [save_thread_regs(t, ss_task)]: the register fragment written. *)
  save_thread_regs_res : kernel -> Z -> Z;
  (** The scheduler's wake-up of a task in state [st] for mask [mask]:
      [Some st'] when a blocked context matched and the task's state
      becomes [st'], [None] when the attempt found none. *)
  try_to_wake_up : Z -> Z -> option Z
}.

(** ** The kernel monad: state, with [None] for a fault (a dereference of
    a pointer that is not a live object, or a store outside an array). *)
Definition M (A : Type) : Type := kernel -> option (A * kernel).

Definition ret {A} (a : A) : M A := fun k => Some (a, k).

Definition bind {A B} (m : M A) (f : A -> M B) : M B :=
  fun k => match m k with
           | Some (a, k') => f a k'
           | None => None
           end.

Definition fault {A} : M A := fun _ => None.

Declare Scope kernel_scope.
Delimit Scope kernel_scope with kernel.
Notation "x <- m ;; f" := (bind m (fun x => f))
  (at level 100, m at next level, right associativity) : kernel_scope.
Notation "m ;; f" := (bind m (fun _ => f))
  (at level 100, right associativity) : kernel_scope.
#[local] Open Scope kernel_scope.

Definition get : M kernel := fun k => Some (k, k).

Definition set_tasks (ts : gmap Z task_struct) (k : kernel) : kernel :=
  mk_kernel ts (signals k) (pid_hash k) (heap k) (jiffies k)
            (barrier_timeout_msec k) (current k) (trace k).

Definition set_heap (h : gmap Z (list ss_task_struct)) (k : kernel) : kernel :=
  mk_kernel (tasks k) (signals k) (pid_hash k) h (jiffies k)
            (barrier_timeout_msec k) (current k) (trace k).

Definition set_jiffies (j : Z) (k : kernel) : kernel :=
  mk_kernel (tasks k) (signals k) (pid_hash k) (heap k) j
            (barrier_timeout_msec k) (current k) (trace k).

Definition set_current (c : Z) (k : kernel) : kernel :=
  mk_kernel (tasks k) (signals k) (pid_hash k) (heap k) (jiffies k)
            (barrier_timeout_msec k) c (trace k).

Definition add_event (e : event) (k : kernel) : kernel :=
  mk_kernel (tasks k) (signals k) (pid_hash k) (heap k) (jiffies k)
            (barrier_timeout_msec k) (current k) (trace k ++ [(current k, e)]).

Definition emit (e : event) : M unit := fun k => Some (tt, add_event e k).

(** [*p] for a task pointer. *)
Definition read_task (p : Z) : M task_struct :=
  fun k => match tasks k !! p with
           | Some t => Some (t, k)
           | None => None
           end.

(** A store to fields of [*p]. *)
Definition modify_task (p : Z) (f : task_struct -> task_struct) : M unit :=
  fun k => match tasks k !! p with
           | Some t => Some (tt, set_tasks (<[p := f t]> (tasks k)) k)
           | None => None
           end.

Definition read_signal (s : Z) : M signal_struct :=
  fun k => match signals k !! s with
           | Some sg => Some (sg, k)
           | None => None
           end.

Definition with_state (s : Z) (t : task_struct) : task_struct :=
  mk_task (pid t) (tgid t) s (TIF_NEED_CHECKPOINT t) (group_leader t)
          (signal t) (process_barrier t).

Definition with_need_checkpoint (b : bool) (t : task_struct) : task_struct :=
  mk_task (pid t) (tgid t) (state t) b (group_leader t)
          (signal t) (process_barrier t).

Definition with_process_barrier (v : Z) (t : task_struct) : task_struct :=
  mk_task (pid t) (tgid t) (state t) (TIF_NEED_CHECKPOINT t) (group_leader t)
          (signal t) v.

(** [for_each_thread(p, t) body], with the loop's local variables passed
    along as an accumulator. *)
Fixpoint iterate {S} (l : list Z) (body : Z -> S -> M S) (s : S) : M S :=
  match l with
  | [] => ret s
  | t :: l' => s' <- body t s ;; iterate l' body s'
  end.

Definition thread_list (p : Z) : M (list Z) :=
  tp <- read_task p ;;
  sg <- read_signal (signal tp) ;;
  ret (thread_head sg).

Definition for_each_thread {S} (p : Z) (body : Z -> S -> M S) (s : S) : M S :=
  l <- thread_list p ;; iterate l body s.

Definition with_ps_tasks (a : Z) (ps : process_snapshot) : process_snapshot :=
  mk_ps (nr_tasks ps) (Some a) (ps_files ps) (ps_signals ps).

Definition with_ps_files (v : Z) (ps : process_snapshot) : process_snapshot :=
  mk_ps (nr_tasks ps) (ps_tasks ps) (Some v) (ps_signals ps).

Definition with_ps_signals (v : Z) (ps : process_snapshot) : process_snapshot :=
  mk_ps (nr_tasks ps) (ps_tasks ps) (ps_files ps) (Some v).

Definition with_ss_pid (v : Z) (s : ss_task_struct) : ss_task_struct :=
  mk_ss_task (Some v) (ss_regs s).

Definition with_ss_regs (v : Z) (s : ss_task_struct) : ss_task_struct :=
  mk_ss_task (ss_pid s) (Some v).

(** A store to [a[i]], where [a] is a kmalloc'ed [ss_tasks] array. *)
Definition modify_ss_task (a i : Z) (f : ss_task_struct -> ss_task_struct) : M unit :=
  fun k => match heap k !! a with
           | Some arr =>
               if decide (0 <= i) then
                 match arr !! Z.to_nat i with
                 | Some s => Some (tt, set_heap (<[a := <[Z.to_nat i := f s]> arr]> (heap k)) k)
                 | None => None
                 end
               else None
           | None => None
           end.

(** [kfree(a)] of a live block. *)
Definition kfree (a : Z) : M unit :=
  fun k => match heap k !! a with
           | Some _ => Some (tt, add_event (E_kfree a) (set_heap (delete a (heap k)) k))
           | None => None
           end.

Section core.

Context (E : externals).

(** [kmalloc(size, GFP_KERNEL)] for an array of [struct ss_task_struct]:
    the block holds as many uninitialised slots as fit in [size] bytes. *)
Definition kmalloc (size : Z) : M (option Z) :=
  fun k => match kmalloc_addr E k size with
           | Some a =>
               let slots := replicate (Z.to_nat (size `div` sizeof_ss_task E))
                                      (mk_ss_task None None) in
               Some (Some a, add_event (E_kmalloc size (Some a))
                                       (set_heap (<[a := slots]> (heap k)) k))
           | None => Some (None, add_event (E_kmalloc size None) k)
           end.

(** The capture functions of [internal.h]: the call is recorded, the
    return code and the fragment come from [E]. *)
Definition save_open_files (leader : Z) (ps : process_snapshot) : M (Z * process_snapshot) :=
  k <- get ;;
  let r := save_open_files_res E k leader in
  emit (E_save_open_files leader (fst r)) ;;
  ret (fst r, with_ps_files (snd r) ps).

Definition save_signals (leader : Z) (ps : process_snapshot) : M (Z * process_snapshot) :=
  k <- get ;;
  let r := save_signals_res E k leader in
  emit (E_save_signals leader (fst r)) ;;
  ret (fst r, with_ps_signals (snd r) ps).

Definition revert_save_open_files (leader : Z) (ps : process_snapshot) : M unit :=
  emit (E_revert_save_open_files leader).

Definition save_thread_regs (t a i : Z) : M unit :=
  k <- get ;;
  emit (E_save_thread_regs t i) ;;
  modify_ss_task a i (with_ss_regs (save_thread_regs_res E k t)).

(** [wake_up_state(t, mask)]: 1 when a blocked context was woken. *)
Definition wake_up_state (t mask : Z) : M bool :=
  ts <- read_task t ;;
  match try_to_wake_up E (state ts) mask with
  | Some st' =>
      modify_task t (with_state st') ;;
      emit (E_wake_up_state t mask true) ;;
      ret true
  | None =>
      emit (E_wake_up_state t mask false) ;;
      ret false
  end.

(** [kick_process(t)]: only the call is recorded. *)
Definition kick_process (t : Z) : M unit := emit (E_kick_process t).

Definition test_tsk_need_checkpoint (t : Z) : M bool :=
  ts <- read_task t ;; ret (TIF_NEED_CHECKPOINT ts).

(** core.c lines 35-59; the loop body first. *)
Definition paranoid_state_check_body (leader t : Z) (_ : unit) : M unit :=
  if decide (leader = t) then ret tt
  else
    ts <- read_task t ;;
    if decide (state ts = TASK_CHECKPOINTING E) then ret tt
    else emit (E_pr_info_bug (state ts) (pid ts)).

Definition paranoid_state_check (leader : Z) : M unit :=
  if CONFIG_CHECKPOINT_DEBUG E then
    emit E_spin_lock_irqsave ;;
    for_each_thread leader (paranoid_state_check_body leader) tt ;;
    emit E_spin_unlock_irqrestore
  else ret tt.

(** The loop of core.c lines 96-100: [a] is [ss_tasks], [i] the index. *)
Definition save_threads_body (a t i : Z) : M Z :=
  ts <- read_task t ;;
  modify_ss_task a i (with_ss_pid (pid ts)) ;;
  save_thread_regs t a i ;;
  ret (wrap_int (i + 1)).

(** core.c lines 65-109.  The result pairs the returned [int] with the
    local variable [ps] as it stands at the [return]; the C function
    hands only the [int] to its caller. *)
Definition __do_checkpoint_process_frame (leader : Z) : M (Z * process_snapshot) :=
  paranoid_state_check leader ;;
  tl <- read_task leader ;;
  sg <- read_signal (signal tl) ;;
  let ps := mk_ps (nr_threads sg) None None None in
  ss_tasks <- kmalloc (wrap_ulong (sizeof_ss_task E * nr_tasks ps)) ;;
  match ss_tasks with
  | None => ret (- ENOMEM, ps)
  | Some a =>
      let ps := with_ps_tasks a ps in
      rf <- save_open_files leader ps ;;
      let (r, ps) := rf in
      if decide (r = 0) then
        rs <- save_signals leader ps ;;
        let (r, ps) := rs in
        if decide (r = 0) then
          for_each_thread leader (save_threads_body a) 0 ;;
          ret (0, ps)
        else
          revert_save_open_files leader ps ;;
          kfree a ;;
          ret (r, ps)
      else
        kfree a ;;
        ret (r, ps)
  end.

(** The function as its caller sees it. *)
Definition __do_checkpoint_process (leader : Z) : M Z :=
  rp <- __do_checkpoint_process_frame leader ;; ret (fst rp).

(** core.c lines 111-120.  The first event marks the call. *)
Definition do_checkpoint_process (leader : Z) : M Z :=
  emit (E_do_checkpoint_process leader) ;;
  emit E_preempt_disable ;;
  r <- __do_checkpoint_process leader ;;
  emit E_preempt_enable_no_resched ;;
  ret r.

(** core.c lines 122-137; the loop body first. *)
Definition wake_up_thread_group_body (leader t : Z) (_ : unit) : M unit :=
  if decide (leader = t) then ret tt
  else
    woken <- wake_up_state t (TASK_CHECKPOINTING E) ;;
    if woken then ret tt
    else
      ts <- read_task t ;;
      emit (E_warn_fail_to_wake (pid ts) (tgid ts) (state ts)).

Definition wake_up_thread_group (leader : Z) : M unit :=
  emit E_spin_lock_irqsave ;;
  for_each_thread leader (wake_up_thread_group_body leader) tt ;;
  emit E_spin_unlock_irqrestore.

(** core.c lines 139-157; the loop body first ([i] is the local index). *)
Definition barrier_timeout_wakeup_body (t i : Z) : M Z :=
  ts <- read_task t ;;
  emit (E_debug_thread i (pid ts) (state ts) (TIF_NEED_CHECKPOINT ts)) ;;
  wake_up_state t (TASK_ALL E) ;;
  ret (wrap_int (i + 1)).

Definition barrier_timeout_wakeup (leader : Z) : M unit :=
  tl <- read_task leader ;;
  sg <- read_signal (signal tl) ;;
  k <- get ;;
  emit (E_debug_abort (pid tl) (nr_threads sg) (barrier_timeout_msec k)) ;;
  emit E_spin_lock_irqsave ;;
  for_each_thread leader barrier_timeout_wakeup_body 0 ;;
  emit E_spin_unlock_irqrestore.

(** core.c lines 220-236; the loop body first. *)
Definition checkpoint_process_body (t : Z) (_ : unit) : M unit :=
  ts <- read_task t ;;
  emit (E_debug_set_need_checkpoint (pid ts) (tgid ts)) ;;
  modify_task t (with_need_checkpoint true) ;;
  woken <- wake_up_state t (TASK_ALL E) ;;
  if woken then ret tt else kick_process t.

Definition checkpoint_process (p : Z) : M Z :=
  emit E_spin_lock_irqsave ;;
  for_each_thread p checkpoint_process_body tt ;;
  emit E_spin_unlock_irqrestore ;;
  ret 0.

(** [find_task_by_pid(pid)]: the task registered under [pid], or NULL. *)
Definition find_task_by_pid (p : Z) : M (option Z) :=
  k <- get ;; ret (pid_hash k !! p).

(** core.c lines 238-255. *)
Definition sys_checkpoint_process (p : Z) : M Z :=
  emit (E_syscall_enter p) ;;
  tsk <- find_task_by_pid p ;;
  r <- match tsk with
       | None => ret (- ESRCH)
       | Some t => checkpoint_process t
       end ;;
  emit (E_syscall_exit r) ;;
  ret r.

End core.

(** ** [checkpoint_thread] (core.c lines 159-212) as a labelled step function *)

(** Program points of [checkpoint_thread], named by source line.  A
    thread at [L172_blocked] has called [schedule()] and stays there until
    its task state is [TASK_RUNNING] again. *)
Inductive label :=
  | L162 | L165 | L167
  | L171 | L172 | L172_blocked | L175
  | L180 | L183 | L188 | L194 | L200 | L203 | L207
  | L210 | L211
  | L_returned (r : Z)
  | L_BUG.

#[global] Instance label_eq_dec : EqDecision label.
Proof. solve_decision. Defined.

(** The activation record of one call: the argument [p], the program
    point and the locals [saved_state], [leader] and [timeout]. *)
Record frame := mk_frame {
  f_p : Z;
  f_pc : label;
  f_saved_state : Z;
  f_leader : Z;
  f_timeout : Z
}.

Definition goto (l : label) (f : frame) : frame :=
  mk_frame (f_p f) l (f_saved_state f) (f_leader f) (f_timeout f).

Definition atomic_inc (t : Z) : M unit :=
  modify_task t (fun ts => with_process_barrier (wrap_int (process_barrier ts + 1)) ts) ;;
  emit (E_atomic_inc t).

Definition atomic_set (t v : Z) : M unit :=
  modify_task t (with_process_barrier v) ;;
  emit (E_atomic_set t v).

(** [set_current_state(s)] stores to [current->state]. *)
Definition set_current_state (s : Z) : M unit :=
  k <- get ;; modify_task (current k) (with_state s).

Section thread.

Context (E : externals).

Definition checkpoint_thread_step (f : frame) : M frame :=
  let p := f_p f in
  match f_pc f with
  | L162 =>
      ts <- read_task p ;;
      emit (E_debug_enter (pid ts) (tgid ts)) ;;
      ret (mk_frame p L165 (state ts) (f_leader f) (f_timeout f))
  | L165 =>
      need <- test_tsk_need_checkpoint p ;;
      if need then ret (goto L167 f)
      else emit E_BUG ;; ret (goto L_BUG f)
  | L167 =>
      ts <- read_task p ;;
      let leader := group_leader ts in
      atomic_inc leader ;;
      ret (mk_frame p (if decide (p = leader) then L180 else L171)
                    (f_saved_state f) leader (f_timeout f))
  | L171 =>
      set_current_state (TASK_CHECKPOINTING E) ;;
      ret (goto L172 f)
  | L172 =>
      emit E_schedule ;;
      ret (goto L172_blocked f)
  | L172_blocked =>
      k <- get ;;
      cur <- read_task (current k) ;;
      if decide (state cur = TASK_RUNNING) then ret (goto L175 f) else fault
  | L175 =>
      set_current_state (f_saved_state f) ;;
      ret (goto L210 f)
  | L180 =>
      k <- get ;;
      ret (mk_frame p L183 (f_saved_state f) (f_leader f)
                    (wrap_ulong (jiffies k + msecs_to_jiffies E (barrier_timeout_msec k))))
  | L183 =>
      ts <- read_task p ;;
      sg <- read_signal (signal ts) ;;
      if decide (process_barrier ts = nr_threads sg) then ret (goto L194 f)
      else ret (goto L188 f)
  | L188 =>
      k <- get ;;
      if time_after (jiffies k) (f_timeout f) then
        barrier_timeout_wakeup E p ;;
        ret (goto L207 f)
      else ret (goto L183 f)
  | L194 =>
      emit E_debug_elapsed ;;
      ret (goto L200 f)
  | L200 =>
      do_checkpoint_process E p ;;
      ret (goto L203 f)
  | L203 =>
      wake_up_thread_group E p ;;
      ret (goto L207 f)
  | L207 =>
      atomic_set p 0 ;;
      ret (goto L210 f)
  | L210 =>
      modify_task p (with_need_checkpoint false) ;;
      ret (goto L211 f)
  | L211 =>
      ret (goto (L_returned 0) f)
  | L_returned _ => fault
  | L_BUG => fault
  end.

(** ** Interleaving *)

(** The shared kernel state and the frame of each thread that is inside
    [checkpoint_thread], keyed by the thread. *)
Record config := mk_config {
  kern : kernel;
  frames : gmap Z frame
}.

Inductive action :=
  | Tick
  | Call (tid p : Z)
  | Run (tid : Z)
  | Syscall (tid pid : Z).

Definition idle (c : config) (tid : Z) : bool :=
  match frames c !! tid with
  | None => true
  | Some f => match f_pc f with L_returned _ => true | _ => false end
  end.

(** One scheduling decision: a timer tick; thread [tid] entering
    [checkpoint_thread(p)] (its locals are not yet initialised); thread
    [tid] executing the statement at its program point; thread [tid]
    executing the checkpoint_process system call.  [None] when the action
    cannot be taken.  The functions that walk the thread list under
    [tasklist_lock], and [do_checkpoint_process], which runs with
    preemption disabled, execute as one step. *)
Definition step (a : action) (c : config) : option config :=
  match a with
  | Tick =>
      Some (mk_config (set_jiffies (wrap_ulong (jiffies (kern c) + 1)) (kern c)) (frames c))
  | Call tid p =>
      if idle c tid then
        Some (mk_config (kern c) (<[tid := mk_frame p L162 0 0 0]> (frames c)))
      else None
  | Run tid =>
      match frames c !! tid with
      | Some f =>
          match checkpoint_thread_step f (set_current tid (kern c)) with
          | Some (f', k') => Some (mk_config k' (<[tid := f']> (frames c)))
          | None => None
          end
      | None => None
      end
  | Syscall tid p =>
      if idle c tid then
        match sys_checkpoint_process E p (set_current tid (kern c)) with
        | Some (_, k') => Some (mk_config k' (frames c))
        | None => None
        end
      else None
  end.

Fixpoint run (s : list action) (c : config) : option config :=
  match s with
  | [] => Some c
  | a :: s' =>
      match step a c with
      | Some c' => run s' c'
      | None => None
      end
  end.

End thread.

(** ** Well-formed thread groups *)

(** The thread list of the group [p] belongs to, when [p] and its
    signal struct are live objects. *)
Definition group_threads (k : kernel) (p : Z) : option (list Z) :=
  match tasks k !! p with
  | Some tp =>
      match signals k !! signal tp with
      | Some sg => Some (thread_head sg)
      | None => None
      end
  | None => None
  end.

(** The [nr_threads] of the group [p] belongs to. *)
Definition group_nr_threads (k : kernel) (p : Z) : option Z :=
  match tasks k !! p with
  | Some tp => nr_threads <$> signals k !! signal tp
  | None => None
  end.

(** [l] is the thread list of [p]'s group: a list without repetition
    (each task is linked once) of live tasks. *)
Definition wf_group (k : kernel) (p : Z) (l : list Z) : Prop :=
  group_threads k p = Some l /\ NoDup l /\ Forall (fun t => is_Some (tasks k !! t)) l.

#[global] Instance wf_group_dec k p l : Decision (wf_group k p l).
Proof. unfold wf_group. apply _. Defined.

(** [t] is a live task that is its own [group_leader]. *)
Definition is_group_leader (k : kernel) (t : Z) : Prop :=
  exists ts, tasks k !! t = Some ts /\ group_leader ts = t.

(** ** Traces *)

(** Trace entries of the running task. *)
Definition tagged (cur : Z) (evs : list event) : list (Z * event) :=
  (fun e => (cur, e)) <$> evs.

(** The events added to the trace between [k] and [k']. *)
Definition new_events (k k' : kernel) : list (Z * event) :=
  drop (length (trace k)) (trace k').

(** [k] with [evs] appended to the trace by the running task. *)
Definition log (evs : list event) (k : kernel) : kernel :=
  mk_kernel (tasks k) (signals k) (pid_hash k) (heap k) (jiffies k)
            (barrier_timeout_msec k) (current k) (trace k ++ tagged (current k) evs).

(** Number of occurrences of an event in a trace. *)
Definition count_event (e : event) (tr : list (Z * event)) : nat :=
  length (filter (fun te => te.2 = e) tr).

(** Number of calls of [do_checkpoint_process(leader)] in a trace. *)
Definition captures (leader : Z) (tr : list (Z * event)) : nat :=
  length (filter (fun te => te.2 = E_do_checkpoint_process leader) tr).

(** An event other than the call marker of [do_checkpoint_process] and
    the increment of the arrival counter. *)
Definition quiet (e : event) : Prop :=
  match e with
  | E_do_checkpoint_process _ => False
  | E_atomic_inc _ => False
  | _ => True
  end.

#[global] Instance quiet_dec e : Decision (quiet e).
Proof. destruct e; simpl; apply _. Defined.

(** The output of [paranoid_state_check]. *)
Definition paranoid_event (e : event) : Prop :=
  match e with
  | E_spin_lock_irqsave | E_spin_unlock_irqrestore | E_pr_info_bug _ _ => True
  | _ => False
  end.

(** ** What the loops do, stated from the tasks' fields *)

(** What the dispatcher does for one thread [t], from [t]'s fields at
    the time: the debug line, the any-state wake attempt and, exactly
    when that attempt woke nothing, the forced reschedule. *)
Definition dispatch_events (E : externals) (k : kernel) (t : Z) : list event :=
  match tasks k !! t with
  | Some ts =>
      E_debug_set_need_checkpoint (pid ts) (tgid ts) ::
      match try_to_wake_up E (state ts) (TASK_ALL E) with
      | Some _ => [E_wake_up_state t (TASK_ALL E) true]
      | None => [E_wake_up_state t (TASK_ALL E) false; E_kick_process t]
      end
  | None => []
  end.

(** What [barrier_timeout_wakeup] does for the threads [l], from their
    fields at the time: the debug line (index, pid, state, pending flag)
    and the any-state wake attempt. *)
Fixpoint timeout_events (E : externals) (k : kernel) (i : Z) (l : list Z) : list event :=
  match l with
  | [] => []
  | t :: l' =>
      match tasks k !! t with
      | Some ts =>
          [E_debug_thread i (pid ts) (state ts) (TIF_NEED_CHECKPOINT ts);
           E_wake_up_state t (TASK_ALL E)
             (match try_to_wake_up E (state ts) (TASK_ALL E) with
              | Some _ => true
              | None => false
              end)]
      | None => []
      end ++ timeout_events E k (wrap_int (i + 1)) l'
  end.

(** The calls of [save_thread_regs] made by that loop. *)
Fixpoint save_regs_events (n : nat) (l : list Z) : list event :=
  match l with
  | [] => []
  | t :: l' => E_save_thread_regs t (Z.of_nat n) :: save_regs_events (S n) l'
  end.

(** The fragment the capture loop stores for thread [t]: its pid and its
    register fragment. *)
Definition thread_fragment (k : kernel) (regs : Z -> Z) (t : Z) : ss_task_struct :=
  mk_ss_task (pid <$> tasks k !! t) (Some (regs t)).

(** The array after the capture loop has run over [l] from index [n]. *)
Fixpoint fill (k : kernel) (regs : Z -> Z) (n : nat) (l : list Z)
    (arr : list ss_task_struct) : list ss_task_struct :=
  match l with
  | [] => arr
  | t :: l' => fill k regs (S n) l' (<[n := thread_fragment k regs t]> arr)
  end.

(** ** Frame conditions *)

(** The fields of a task that no operation of this file writes. *)
Definition same_ids (a b : task_struct) : Prop :=
  pid a = pid b /\ tgid a = tgid b /\ group_leader a = group_leader b /\ signal a = signal b.

(** [k'] differs from [k] in task states, flags, counters and the heap
    at most, and its trace has [evs] appended by the running task. *)
Definition extends (k : kernel) (evs : list event) (k' : kernel) : Prop :=
  current k' = current k
  /\ signals k' = signals k
  /\ pid_hash k' = pid_hash k
  /\ barrier_timeout_msec k' = barrier_timeout_msec k
  /\ jiffies k' = jiffies k
  /\ (forall t, match tasks k !! t, tasks k' !! t with
                | Some a, Some b => same_ids a b
                | None, None => True
                | _, _ => False
                end)
  /\ trace k' = trace k ++ tagged (current k) evs.

(** [m], when it returns, extends the kernel by quiet events. *)
Definition safe {A} (m : M A) : Prop :=
  forall k a k', m k = Some (a, k') -> exists evs, extends k evs k' /\ Forall quiet evs.

(** Every value [m] returns satisfies [Q]. *)
Definition returns {A} (Q : A -> Prop) (m : M A) : Prop :=
  forall k a k', m k = Some (a, k') -> Q a.

(** ** Attempts *)

(** Program points of the [else] branch (lines 177-207). *)
Definition leader_branch (l : label) : bool :=
  match l with
  | L180 | L183 | L188 | L194 | L200 | L203 | L207 => true
  | _ => false
  end.

(** Program points after the call at line 200. *)
Definition after_capture (l : label) : bool :=
  match l with
  | L203 | L207 | L210 | L211 | L_returned _ => true
  | _ => false
  end.

(** Program points after the call of [schedule()] at line 172. *)
Definition after_park (l : label) : bool :=
  match l with
  | L172_blocked | L175 | L210 | L211 | L_returned _ => true
  | _ => false
  end.

(** The start of an attempt: every thread that takes part is about to
    execute the first statement of [checkpoint_thread(current)], and no
    capture has been made. *)
Definition fresh_attempt (c : config) : Prop :=
  map_Forall (fun tid f => f_p f = tid /\ f_pc f = L162) (frames c)
  /\ Forall (fun te => quiet te.2) (trace (kern c)).

#[global] Instance fresh_attempt_dec c : Decision (fresh_attempt c).
Proof. unfold fresh_attempt. apply _. Defined.

(** No thread enters [checkpoint_thread] during the schedule. *)
Definition no_call (s : list action) : bool :=
  forallb (fun a => match a with Call _ _ => false | _ => true end) s.

(** Thread [tid] does not enter [checkpoint_thread] during the schedule. *)
Definition no_call_by (tid : Z) (s : list action) : bool :=
  forallb (fun a => match a with Call t _ => negb (t =? tid) | _ => true end) s.

(** The invariant of an attempt. *)
Record attempt_inv (c : config) : Prop := mk_attempt_inv {
  inv_self : forall tid f, frames c !! tid = Some f -> f_p f = tid;
  inv_leader : forall tid f,
    frames c !! tid = Some f -> leader_branch (f_pc f) = true ->
    is_group_leader (kern c) tid;
  inv_captured : forall tid p,
    (tid, E_do_checkpoint_process p) ∈ trace (kern c) ->
    p = tid /\ is_group_leader (kern c) tid
    /\ exists f, frames c !! tid = Some f /\ after_capture (f_pc f) = true;
  inv_once : forall leader, (captures leader (trace (kern c)) <= 1)%nat;
  inv_parked : forall tid f ts,
    frames c !! tid = Some f -> tasks (kern c) !! tid = Some ts ->
    group_leader ts <> tid -> after_park (f_pc f) = true ->
    (tid, E_schedule) ∈ trace (kern c)
}.

(** What holds of thread [tid] from its first statement on: its frame
    keeps the state saved at line 162. *)
Definition saved_inv (tid s0 : Z) (c : config) : Prop :=
  exists f, frames c !! tid = Some f /\ f_p f = tid /\ f_saved_state f = s0
            /\ f_pc f <> L162 /\ is_Some (tasks (kern c) !! tid).

Definition is_atomic_inc (e : event) : bool :=
  match e with
  | E_atomic_inc _ => true
  | _ => false
  end.

(** Number of increments of an arrival counter made by thread [tid]. *)
Definition increments (tid : Z) (tr : list (Z * event)) : nat :=
  length (filter (fun te => te.1 = tid /\ is_atomic_inc te.2 = true) tr).

(** Program points up to the increment at line 168. *)
Definition before_inc (l : label) : bool :=
  match l with
  | L162 | L165 | L167 | L_BUG => true
  | _ => false
  end.

(** Each thread inside [checkpoint_thread] has incremented the counter
    once, or not yet. *)
Definition arrivals_inv (c : config) : Prop :=
  forall tid f, frames c !! tid = Some f ->
    increments tid (trace (kern c)) = if before_inc (f_pc f) then 0%nat else 1%nat.

(** ** Concrete systems *)

(** Modelled from the spec: the scheduler's wake-up ([wake_up_state] is
    defined outside the sources at hand).  "Can be woken by another
    context specifying that state; reports whether a wake attempt found a
    matching blocked context": a task whose state intersects the mask
    becomes runnable; a running task (state 0) matches no mask. *)
Definition spec_try_to_wake_up (st mask : Z) : option Z :=
  if decide (Z.land st mask = 0) then None else Some TASK_RUNNING.

(** An instance of the collaborators: [TASK_CHECKPOINTING] is one state
    bit, [TASK_ALL] an any-state mask that includes it, one jiffy per
    millisecond; kmalloc and the capture functions answer as given. *)
Definition E0 (debug : bool) (kmalloc_res : option Z) (files_ret signals_ret : Z) : externals :=
  mk_externals debug 4096 (Z.lor 15 4096) 16
    (fun m => m)
    (fun _ _ => kmalloc_res)
    (fun _ _ => (files_ret, 100))
    (fun _ _ => (signals_ret, 200))
    (fun _ t => 1000 + t)
    spec_try_to_wake_up.

(** A task [p] of the group led by [leader], in state [st]. *)
Definition task0 (p leader st : Z) (need : bool) : task_struct :=
  mk_task p leader st need leader 1 0.

(** A kernel with one thread group made of the tasks [ts], at boot time
    of a non-debug build. *)
Definition kernel0 (ts : list task_struct) : kernel :=
  mk_kernel (list_to_map ((fun t => (pid t, t)) <$> ts))
            {[ 1 := mk_signal (Z.of_nat (length ts)) (pid <$> ts) ]}
            (list_to_map ((fun t => (pid t, pid t)) <$> ts))
            ∅ 0 (checkpoint_barrier_timeout_msec false) 0 [].

(** kmalloc returns address 7; [save_open_files] and [save_signals]
    succeed. *)
Definition demo_E : externals := E0 false (Some 7) 0 0.

(** A group of two threads, leader 10 and thread 11, after the
    dispatcher has marked both; both are about to enter
    [checkpoint_thread]. *)
Definition demo_kernel : kernel := kernel0 [task0 10 10 0 true; task0 11 10 0 true].

(** Both threads about to execute line 162. *)
Definition demo_start : config :=
  mk_config demo_kernel
    (<[10 := mk_frame 10 L162 0 0 0]> (<[11 := mk_frame 11 L162 0 0 0]> ∅)).

(** Both threads arrive, the leader captures and releases thread 11. *)
Definition demo_rendezvous : list action :=
  [Run 10; Run 10; Run 10; Run 10; Run 10;
   Run 11; Run 11; Run 11; Run 11; Run 11;
   Run 10; Run 10; Run 10; Run 10; Run 10; Run 10; Run 10; Run 10;
   Run 11; Run 11; Run 11; Run 11].

(** The configuration after [demo_rendezvous]. *)
Definition demo_end : config :=
  default demo_start (run demo_E demo_rendezvous demo_start).

(** The same group before any dispatch; thread 11 sleeps in state 1. *)
Definition demo_idle : kernel := kernel0 [task0 10 10 0 false; task0 11 10 1 false].

(** The group with thread 11 parked in TASK_CHECKPOINTING. *)
Definition demo_parked : kernel :=
  kernel0 [task0 10 10 0 true; task0 11 10 4096 true].

(** Thread 11 has state 1 when it enters; the leader captures and
    releases it. *)
Definition demo_kernel_1 : kernel := kernel0 [task0 10 10 0 true; task0 11 10 1 true].

(** Both threads about to execute line 162. *)
Definition demo_start_1 : config :=
  mk_config demo_kernel_1
    (<[10 := mk_frame 10 L162 0 0 0]> (<[11 := mk_frame 11 L162 0 0 0]> ∅)).

(** Thread 11 parks; the leader captures and releases it; thread 11
    returns from [schedule()]. *)
Definition demo_until_released : list action :=
  [Run 11; Run 11; Run 11; Run 11;
   Run 10; Run 10; Run 10; Run 10; Run 10; Run 10; Run 10; Run 10; Run 10; Run 10; Run 10;
   Run 11].

(** After thread 11 has executed line 162. *)
Definition demo_entered_1 : config :=
  default demo_start_1 (step demo_E (Run 11) demo_start_1).

(** Thread 11 released, about to execute line 175. *)
Definition demo_released_1 : config :=
  default demo_start_1 (run demo_E demo_until_released demo_entered_1).

(** An idle group of two threads with the default (non-debug) barrier
    timeout, and a schedule in which thread 11 stalls: the dispatcher
    marks both threads, the leader arrives and polls, 501 timer ticks
    pass, the leader aborts and returns, and only then thread 11 reaches
    [checkpoint_thread]. *)
Definition demo_quiet : kernel := kernel0 [task0 10 10 0 false; task0 11 10 0 false].

(** The schedule in which thread 11 stalls. *)
Definition demo_stall : list action :=
  [Syscall 99 10; Call 10 10; Run 10; Run 10; Run 10; Run 10; Run 10]
  ++ replicate 501 Tick
  ++ [Run 10; Run 10; Run 10; Run 10]
  ++ [Call 11 11; Run 11; Run 11; Run 11; Run 11; Run 11].

(** The configuration after [demo_stall]. *)
Definition demo_stalled : config :=
  default (mk_config demo_quiet ∅) (run demo_E demo_stall (mk_config demo_quiet ∅)).

(** The next attempt on the same group: the dispatcher runs again and
    the leader enters and polls once. *)
Definition demo_next_attempt : list action :=
  [Syscall 99 10; Call 10 10; Run 10; Run 10; Run 10; Run 10; Run 10].

(** The leader of [demo_quiet] polling the barrier after the timeout
    has elapsed, thread 11 not having arrived. *)
Definition demo_polling : config :=
  default (mk_config demo_quiet ∅)
    (run demo_E ([Syscall 99 10; Call 10 10; Run 10; Run 10; Run 10; Run 10]
                 ++ replicate 501 Tick)
         (mk_config demo_quiet ∅)).

(** ** Which fields a function writes *)

(** Two values of a task that differ in [state] at most. *)
Definition same_except_state (a b : task_struct) : Prop :=
  pid a = pid b /\ tgid a = tgid b
  /\ TIF_NEED_CHECKPOINT a = TIF_NEED_CHECKPOINT b
  /\ group_leader a = group_leader b /\ signal a = signal b
  /\ process_barrier a = process_barrier b.

(** Two values of a task that differ in [state] and TIF_NEED_CHECKPOINT
    at most. *)
Definition same_except_state_and_flag (a b : task_struct) : Prop :=
  pid a = pid b /\ tgid a = tgid b
  /\ group_leader a = group_leader b /\ signal a = signal b
  /\ process_barrier a = process_barrier b.

(** The calls and the output of [__do_checkpoint_process]. *)
Definition capture_event (e : event) : Prop :=
  match e with
  | E_spin_lock_irqsave | E_spin_unlock_irqrestore | E_pr_info_bug _ _
  | E_kmalloc _ _ | E_kfree _
  | E_save_open_files _ _ | E_save_signals _ _ | E_revert_save_open_files _
  | E_save_thread_regs _ _ => True
  | _ => False
  end.

#[global] Instance capture_event_dec e : Decision (capture_event e).
Proof. destruct e; simpl; apply _. Defined.

(** [m], when it returns, has changed every task within [R] only, has
    created or removed none, has left the signal structs, the pid table,
    the clock and the timeout alone, and has appended events within [P]
    to the trace.  (The kmalloc heap is not constrained.) *)
Definition writes {A} (R : task_struct -> task_struct -> Prop) (P : event -> Prop)
    (m : M A) : Prop :=
  forall k a k', m k = Some (a, k') ->
    (forall t, match tasks k !! t, tasks k' !! t with
               | Some x, Some y => R x y
               | None, None => True
               | _, _ => False
               end)
    /\ signals k' = signals k
    /\ pid_hash k' = pid_hash k
    /\ jiffies k' = jiffies k
    /\ barrier_timeout_msec k' = barrier_timeout_msec k
    /\ current k' = current k
    /\ exists evs, trace k' = trace k ++ tagged (current k) evs /\ Forall P evs.

(** ** More of what the loops do, stated from the tasks' fields *)

(** What [paranoid_state_check] prints for thread [t]: the line with
    state and pid, for a thread other than the leader that is not in
    state TASK_CHECKPOINTING. *)
Definition paranoid_events (E : externals) (k : kernel) (leader t : Z) : list event :=
  if decide (leader = t) then []
  else match tasks k !! t with
       | Some ts =>
           if decide (state ts = TASK_CHECKPOINTING E) then []
           else [E_pr_info_bug (state ts) (pid ts)]
       | None => []
       end.

(** What [wake_up_thread_group] does for thread [t]: nothing for the
    leader; for any other thread the wake attempt for state
    TASK_CHECKPOINTING and, when it woke nothing, the warning with the
    thread's pid, tgid and state. *)
Definition release_events (E : externals) (k : kernel) (leader t : Z) : list event :=
  if decide (leader = t) then []
  else match tasks k !! t with
       | Some ts =>
           match try_to_wake_up E (state ts) (TASK_CHECKPOINTING E) with
           | Some _ => [E_wake_up_state t (TASK_CHECKPOINTING E) true]
           | None => [E_wake_up_state t (TASK_CHECKPOINTING E) false;
                      E_warn_fail_to_wake (pid ts) (tgid ts) (state ts)]
           end
       | None => []
       end.

(** Thread [t] after [wake_up_thread_group(leader)]: the leader is left
    alone, any other thread has the state the scheduler's wake-up gives
    it, if any. *)
Definition released (E : externals) (leader t : Z) (ts : task_struct) : task_struct :=
  if decide (leader = t) then ts
  else match try_to_wake_up E (state ts) (TASK_CHECKPOINTING E) with
       | Some st' => with_state st' ts
       | None => ts
       end.

(** The task table after [wake_up_thread_group(leader)] on the thread
    list [l]. *)
Definition released_tasks (E : externals) (leader : Z) (l : list Z)
    (ts : gmap Z task_struct) (t : Z) : option task_struct :=
  if decide (t ∈ l) then released E leader t <$> ts !! t else ts !! t.

(** ** More concrete systems *)

(** Both threads of [demo_start] have arrived: thread 11 is parked, the
    leader is about to poll the barrier (line 183). *)
Definition demo_arrived : config :=
  default demo_start (run demo_E (take 11 demo_rendezvous) demo_start).


(** [demo_E] with [save_signals] failing with -5. *)
Definition demo_E_failing : externals := E0 false (Some 7) 0 (-5).

(** Two values of a task with the same arrival counter. *)
Definition same_counter (a b : task_struct) : Prop :=
  process_barrier a = process_barrier b.

(** Any event. *)
Definition any_event (e : event) : Prop := True.

(** Thread 10 of [demo_start] about to count its arrival (line 168),
    and after it has. *)
Definition demo_at_168 : config :=
  default demo_start (run demo_E [Run 10; Run 10] demo_start).

Definition demo_counted : config :=
  default demo_start (run demo_E [Run 10; Run 10; Run 10] demo_start).


(** ** The scheduler clock ([kernel/sched/core.c]) *)

(** [lego/time.h] is not part of the sources at hand; the constant is the
    number of nanoseconds per second its name states. *)
Definition NSEC_PER_SEC : Z := 1000000000.

(** [unsigned long long]: 64 bits. *)
Definition wrap_ulonglong (z : Z) : Z := z mod 2 ^ 64.

(** sched/core.c lines 22-26.  [HZ] and [INITIAL_JIFFIES] are constants
    of configuration and headers outside the sources; [jiffies] is the
    global tick counter of the kernel state.  The subtraction is done in
    [unsigned long], the product in [unsigned long long]; the quotient of
    the two [long] constants truncates. *)
Definition sched_clock (HZ INITIAL_JIFFIES : Z) (k : kernel) : Z :=
  wrap_ulonglong
    (wrap_ulonglong (wrap_ulong (jiffies k - INITIAL_JIFFIES)) * (NSEC_PER_SEC ÷ HZ)).

(** ** The FIT machine table ([linux-modules/fit/fit_machine.c]) *)

(** The fields of [struct fit_machine_info] (fit_internal.h) this file
    uses.  A C string is modelled by the characters before its
    terminating NUL.  The numbers of the table and the arrays are small
    and non-negative ([unsigned int] in the arrays), so they are kept as
    integers without wrap-around. *)
Record fit_machine_info := mk_fit_machine_info {
  hostname : string;
  lid : Z;
  first_qpn : Z
}.

#[global] Instance fit_machine_info_eq_dec : EqDecision fit_machine_info.
Proof. solve_decision. Defined.

(** The lines this file writes to the kernel log, one constructor per
    format string. *)
Inductive fit_printk :=
  | pr_err_stars
  | pr_err_qpn_changed
  | pr_err_fail_to_connect
  | pr_err_previous_new (previous new : Z)
  | pr_info_stars
  | pr_info_qpn_not_finalized (name : string)
  | pr_info_empty_hostname (nid : nat)
  | pr_info_wrong_hostname (name : string) (nid : nat)
  | pr_info_duplicated_hostname (name : string) (nid : nat)
  | pr_info_local_id (id : nat)
  | pr_info_rule
  | pr_info_header
  | pr_info_node (nid : nat) (name : string) (node_lid node_qpn : Z)
  | pr_cont_arrow
  | pr_cont_newline.

#[global] Instance fit_printk_eq_dec : EqDecision fit_printk.
Proof. solve_decision. Defined.

(** Configuration and header constants outside the sources. *)
Record fit_config := mk_fit_config {
  CONFIG_FIT_NR_NODES : nat;
  CONFIG_FIT_LOCAL_ID : nat;
  FIT_HOSTNAME_MAX : nat
}.

(** The globals of the file.  A [struct fit_machine_info *] points into
    [WUKLAB_CLUSTER] and is modelled by the index of the entry ([None] is
    NULL); [global_first_qpn] is the array the source calls [first_qpn];
    the bitmap is the integer whose bits it holds. *)
Record fit_state := mk_fit_state {
  lego_cluster_hostnames : list (option string);
  lego_cluster : list (option nat);
  WUKLAB_CLUSTER : list fit_machine_info;
  cluster_used_machines : Z;
  global_lid : list Z;
  global_first_qpn : list Z;
  printk_log : list fit_printk
}.

(** How a call ends: it returns, [panic()] is called, a [BUG_ON] fires,
    or it dereferences NULL or leaves an array. *)
Inductive fit_result (A : Type) :=
  | Returns (a : A) (s : fit_state)
  | Panics (msg : string) (s : fit_state)
  | Bugs
  | Faults.

Arguments Returns {A} a s.
Arguments Panics {A} msg s.
Arguments Bugs {A}.
Arguments Faults {A}.

Definition F (A : Type) : Type := fit_state -> fit_result A.

Definition fit_ret {A} (a : A) : F A := fun s => Returns a s.

Definition fit_bind {A B} (m : F A) (f : A -> F B) : F B :=
  fun s => match m s with
           | Returns a s' => f a s'
           | Panics msg s' => Panics msg s'
           | Bugs => Bugs
           | Faults => Faults
           end.

Declare Scope fit_scope.
Delimit Scope fit_scope with fit.
Notation "x <- m ;; f" := (fit_bind m (fun x => f))
  (at level 100, m at next level, right associativity) : fit_scope.
Notation "m ;; f" := (fit_bind m (fun _ => f))
  (at level 100, right associativity) : fit_scope.
#[local] Open Scope fit_scope.

(** The globals with [lines] appended to the kernel log. *)
Definition logged (lines : list fit_printk) (s : fit_state) : fit_state :=
  mk_fit_state (lego_cluster_hostnames s) (lego_cluster s) (WUKLAB_CLUSTER s)
               (cluster_used_machines s) (global_lid s) (global_first_qpn s)
               (printk_log s ++ lines).

Definition printk (lines : list fit_printk) : F unit :=
  fun s => Returns tt (logged lines s).

Definition panic {A} (msg : string) : F A := fun s => Panics msg s.

Definition set_lego_cluster (v : list (option nat)) (s : fit_state) : fit_state :=
  mk_fit_state (lego_cluster_hostnames s) v (WUKLAB_CLUSTER s)
               (cluster_used_machines s) (global_lid s) (global_first_qpn s) (printk_log s).

Definition set_WUKLAB_CLUSTER (v : list fit_machine_info) (s : fit_state) : fit_state :=
  mk_fit_state (lego_cluster_hostnames s) (lego_cluster s) v
               (cluster_used_machines s) (global_lid s) (global_first_qpn s) (printk_log s).

Definition set_cluster_used_machines (v : Z) (s : fit_state) : fit_state :=
  mk_fit_state (lego_cluster_hostnames s) (lego_cluster s) (WUKLAB_CLUSTER s)
               v (global_lid s) (global_first_qpn s) (printk_log s).

Definition set_global_lid (v : list Z) (s : fit_state) : fit_state :=
  mk_fit_state (lego_cluster_hostnames s) (lego_cluster s) (WUKLAB_CLUSTER s)
               (cluster_used_machines s) v (global_first_qpn s) (printk_log s).

Definition set_global_first_qpn (v : list Z) (s : fit_state) : fit_state :=
  mk_fit_state (lego_cluster_hostnames s) (lego_cluster s) (WUKLAB_CLUSTER s)
               (cluster_used_machines s) (global_lid s) v (printk_log s).

(** [a[i]] for an array of a global: outside the array is a fault. *)
Definition load {A} (a : fit_state -> list A) (i : nat) : F A :=
  fun s => match a s !! i with
           | Some v => Returns v s
           | None => Faults
           end.

(** [a[i] = v]. *)
Definition store {A} (a : fit_state -> list A) (set : list A -> fit_state -> fit_state)
    (i : nat) (v : A) : F unit :=
  fun s => if decide (i < length (a s))%nat then Returns tt (set (<[i := v]> (a s)) s)
           else Faults.

(** [*machine] for a pointer into [WUKLAB_CLUSTER]. *)
Definition deref (machine : option nat) : F fit_machine_info :=
  match machine with
  | Some i => load WUKLAB_CLUSTER i
  | None => fun _ => Faults
  end.

Definition with_first_qpn (v : Z) (m : fit_machine_info) : fit_machine_info :=
  mk_fit_machine_info (hostname m) (lid m) v.

(** [BUG_ON(cond)]. *)
Definition BUG_ON (cond : bool) : F unit := fun s => if cond then Bugs else Returns tt s.

(** [strncmp(cs, ct, count)] (defined outside the sources): the
    difference of the first pair of characters that differ among the
    first [count], the end of a string counting as the character 0; 0
    when there is none.  C fixes the sign of a non-zero result only, and
    the source only tests the result against 0. *)
Fixpoint strncmp (cs ct : string) (count : nat) : Z :=
  match count with
  | O => 0
  | S count' =>
      match cs, ct with
      | EmptyString, EmptyString => 0
      | EmptyString, String c2 _ => 0 - Z.of_N (Ascii.N_of_ascii c2)
      | String c1 _, EmptyString => Z.of_N (Ascii.N_of_ascii c1)
      | String c1 cs', String c2 ct' =>
          if decide (c1 = c2) then strncmp cs' ct' count'
          else Z.of_N (Ascii.N_of_ascii c1) - Z.of_N (Ascii.N_of_ascii c2)
      end
  end.

(** [test_and_set_bit(nr, addr)] on a bitmap declared with 32 bits: the
    old value of the bit, which is set afterwards. *)
Definition test_and_set_bit (nr : nat) : F bool :=
  fun s => if decide (nr < 32)%nat then
             Returns (Z.testbit (cluster_used_machines s) (Z.of_nat nr))
                     (set_cluster_used_machines
                        (Z.setbit (cluster_used_machines s) (Z.of_nat nr)) s)
           else Faults.

Section fit_machine.

Context (cfg : fit_config).

(** fit_machine.c lines 81-85. *)
Definition get_node_global_lid (nid : nat) : F Z :=
  BUG_ON (bool_decide (CONFIG_FIT_NR_NODES cfg <= nid)%nat) ;;
  load global_lid nid.

(** fit_machine.c lines 87-91. *)
Definition get_node_first_qpn (nid : nat) : F Z :=
  BUG_ON (bool_decide (CONFIG_FIT_NR_NODES cfg <= nid)%nat) ;;
  load global_first_qpn nid.

(** fit_machine.c lines 97-111. *)
Definition check_current_first_qpn (qpn : Z) : F unit :=
  self <- load lego_cluster (CONFIG_FIT_LOCAL_ID cfg) ;;
  m <- deref self ;;
  if decide (first_qpn m = qpn) then fit_ret tt
  else
    printk [pr_err_stars; pr_err_stars; pr_err_qpn_changed; pr_err_fail_to_connect;
            pr_err_previous_new (first_qpn m) qpn; pr_err_stars; pr_err_stars].

(** fit_machine.c lines 117-139; [machine] is the index
    [machine - WUKLAB_CLUSTER]. *)
Definition assign_fit_machine (nid machine : nat) : F Z :=
  let machine_index := machine in
  used <- test_and_set_bit machine_index ;;
  if used then fit_ret 1
  else
    m <- deref (Some machine) ;;
    (if decide (first_qpn m = 0) then
       printk [pr_info_stars; pr_info_qpn_not_finalized (hostname m); pr_info_stars] ;;
       store WUKLAB_CLUSTER set_WUKLAB_CLUSTER machine (with_first_qpn 72 m)
     else fit_ret tt) ;;
    store lego_cluster set_lego_cluster nid (Some machine) ;;
    p <- load lego_cluster nid ;;
    m1 <- deref p ;;
    store global_lid set_global_lid nid (lid m1) ;;
    p <- load lego_cluster nid ;;
    m2 <- deref p ;;
    store global_first_qpn set_global_first_qpn nid (first_qpn m2) ;;
    fit_ret 0.

(** The loop of fit_machine.c lines 147-151 over the entries from index
    [i] on. *)
Fixpoint find_fit_machine_from (table : list fit_machine_info) (name : string) (i : nat)
    : option nat :=
  match table with
  | [] => None
  | machine :: table' =>
      if decide (strncmp name (hostname machine) (FIT_HOSTNAME_MAX cfg) = 0) then Some i
      else find_fit_machine_from table' name (S i)
  end.

(** fit_machine.c lines 141-153. *)
Definition find_fit_machine (name : string) : F (option nat) :=
  fun s => Returns (find_fit_machine_from (WUKLAB_CLUSTER s) name 0) s.

(** The loop body of fit_machine.c lines 170-193; the result is the
    local [bug]. *)
Definition init_global_lid_qpn_body (nid : nat) (bug : bool) : F bool :=
  h <- load lego_cluster_hostnames nid ;;
  match h with
  | None =>
      printk [pr_info_empty_hostname nid] ;;
      fit_ret true
  | Some name =>
      machine <- find_fit_machine name ;;
      match machine with
      | None =>
          printk [pr_info_wrong_hostname name nid] ;;
          fit_ret true
      | Some machine =>
          r <- assign_fit_machine nid machine ;;
          if decide (r = 0) then fit_ret bug
          else
            printk [pr_info_duplicated_hostname name nid] ;;
            fit_ret true
      end
  end.

(** [for (nid = ...; nid < CONFIG_FIT_NR_NODES; nid++) body], with [n]
    iterations left. *)
Fixpoint for_each_nid {T} (n nid : nat) (body : nat -> T -> F T) (acc : T) : F T :=
  match n with
  | O => fit_ret acc
  | S n' => acc' <- body nid acc ;; for_each_nid n' (S nid) body acc'
  end.

(** fit_machine.c lines 159-198. *)
Definition init_global_lid_qpn : F unit :=
  bug <- for_each_nid (CONFIG_FIT_NR_NODES cfg) 0 init_global_lid_qpn_body false ;;
  if bug then panic "Please check your network config!"
  else fit_ret tt.

(** The loop body of fit_machine.c lines 207-217. *)
Definition print_gloabl_lid_body (nid : nat) (_ : unit) : F unit :=
  p <- load lego_cluster nid ;;
  m <- deref p ;;
  node_lid <- get_node_global_lid nid ;;
  node_qpn <- get_node_first_qpn nid ;;
  printk [pr_info_node nid (hostname m) node_lid node_qpn] ;;
  if decide (nid = CONFIG_FIT_LOCAL_ID cfg) then printk [pr_cont_arrow]
  else printk [pr_cont_newline].

(** fit_machine.c lines 200-219. *)
Definition print_gloabl_lid : F unit :=
  printk [pr_info_local_id (CONFIG_FIT_LOCAL_ID cfg)] ;;
  printk [pr_info_rule] ;;
  printk [pr_info_header] ;;
  for_each_nid (CONFIG_FIT_NR_NODES cfg) 0 print_gloabl_lid_body tt ;;
  printk [pr_info_rule].

End fit_machine.

(** fit_machine.c lines 45-72: the table as initialised. *)
Definition WUKLAB_CLUSTER_init : list fit_machine_info :=
  [ mk_fit_machine_info "wuklab00" 2 0;
    mk_fit_machine_info "wuklab01" 6 72;
    mk_fit_machine_info "wuklab02" 8 72;
    mk_fit_machine_info "wuklab03" 9 74;
    mk_fit_machine_info "wuklab04" 7 72;
    mk_fit_machine_info "wuklab05" 3 0;
    mk_fit_machine_info "wuklab06" 5 0;
    mk_fit_machine_info "wuklab07" 4 74;
    mk_fit_machine_info "wuklab08" 10 72;
    mk_fit_machine_info "wuklab09" 12 72;
    mk_fit_machine_info "wuklab10" 14 74;
    mk_fit_machine_info "wuklab11" 11 74;
    mk_fit_machine_info "wuklab12" 13 72;
    mk_fit_machine_info "wuklab13" 15 72;
    mk_fit_machine_info "wuklab14" 16 74;
    mk_fit_machine_info "wuklab15" 17 72;
    mk_fit_machine_info "wuklab16" 20 74;
    mk_fit_machine_info "wuklab17" 21 0;
    mk_fit_machine_info "wuklab18" 19 0;
    mk_fit_machine_info "wuklab19" 18 74;
    mk_fit_machine_info "wuklab20" 27 0;
    mk_fit_machine_info "wuklab21" 28 0;
    mk_fit_machine_info "wuklab22" 29 0;
    mk_fit_machine_info "wuklab23" 30 0;
    mk_fit_machine_info "wuklab24" 31 0;
    mk_fit_machine_info "wuklab25" 26 0 ].

(** fit_machine.c lines 36-40: entries 0 to 2 are given, the others of
    the [CONFIG_FIT_NR_NODES] entries are NULL.  (With fewer than three
    nodes the initialiser does not compile.) *)
Definition lego_cluster_hostnames_init (nr_nodes : nat) : list (option string) :=
  take nr_nodes ([Some "wuklab00"; Some "wuklab02"; Some "wuklab07"]
                 ++ replicate (nr_nodes - 3) None).

(** The globals when the module is loaded: the initialised arrays, the
    others zero. *)
Definition fit_boot (cfg : fit_config) : fit_state :=
  mk_fit_state (lego_cluster_hostnames_init (CONFIG_FIT_NR_NODES cfg))
               (replicate (CONFIG_FIT_NR_NODES cfg) None)
               WUKLAB_CLUSTER_init
               0
               (replicate (CONFIG_FIT_NR_NODES cfg) 0)
               (replicate (CONFIG_FIT_NR_NODES cfg) 0)
               [].

(** ** The machine table, stated from the configuration *)

(** The entry a configured hostname resolves to. *)
Definition resolve (cfg : fit_config) (s : fit_state) (h : option string) : option nat :=
  match h with
  | Some name => find_fit_machine_from cfg (WUKLAB_CLUSTER s) name 0
  | None => None
  end.

(** The entries the nodes resolve to, by node id. *)
Definition resolved (cfg : fit_config) (s : fit_state) : list (option nat) :=
  resolve cfg s <$> lego_cluster_hostnames s.

(** Every node has a hostname that is in the table, and no two nodes
    resolve to the same machine. *)
Definition config_ok (cfg : fit_config) (s : fit_state) : Prop :=
  Forall is_Some (resolved cfg s) /\ NoDup (resolved cfg s).

#[global] Instance config_ok_dec cfg s : Decision (config_ok cfg s).
Proof. unfold config_ok. apply _. Defined.

(** The first queue pair number recorded for a machine: 72 when the
    table gives 0. *)
Definition finalized_qpn (m : fit_machine_info) : Z :=
  if decide (first_qpn m = 0) then 72 else first_qpn m.

(** The globals as the module's initialisation expects them: the arrays
    have [CONFIG_FIT_NR_NODES] entries, no machine is in use, and the
    table fits the bitmap. *)
Definition fit_fresh (cfg : fit_config) (s : fit_state) : Prop :=
  length (lego_cluster_hostnames s) = CONFIG_FIT_NR_NODES cfg
  /\ length (lego_cluster s) = CONFIG_FIT_NR_NODES cfg
  /\ length (global_lid s) = CONFIG_FIT_NR_NODES cfg
  /\ length (global_first_qpn s) = CONFIG_FIT_NR_NODES cfg
  /\ cluster_used_machines s = 0
  /\ (length (WUKLAB_CLUSTER s) <= 32)%nat.

#[global] Instance fit_fresh_dec cfg s : Decision (fit_fresh cfg s).
Proof. unfold fit_fresh. apply _. Defined.

(** A table entry once its machine is in use. *)
Definition finalized (m : fit_machine_info) : fit_machine_info :=
  with_first_qpn (finalized_qpn m) m.

(** The globals after [assign_fit_machine(nid, machine)] has returned 0,
    [m] being the table entry of the machine before the call. *)
Definition assigned (nid machine : nat) (m : fit_machine_info) (s : fit_state) : fit_state :=
  mk_fit_state
    (lego_cluster_hostnames s)
    (<[nid := Some machine]> (lego_cluster s))
    (if decide (first_qpn m = 0) then <[machine := with_first_qpn 72 m]> (WUKLAB_CLUSTER s)
     else WUKLAB_CLUSTER s)
    (Z.setbit (cluster_used_machines s) (Z.of_nat machine))
    (<[nid := lid m]> (global_lid s))
    (<[nid := finalized_qpn m]> (global_first_qpn s))
    (printk_log s ++
     if decide (first_qpn m = 0)
     then [pr_info_stars; pr_info_qpn_not_finalized (hostname m); pr_info_stars]
     else []).

(** The lines [init_global_lid_qpn] logs for node [nid], from the
    configuration: the complaint about an empty, an unknown or a
    duplicated hostname, or else the warning about a machine whose table
    entry has no queue pair number. *)
Definition init_lines (cfg : fit_config) (s : fit_state) (nid : nat) : list fit_printk :=
  match lego_cluster_hostnames s !! nid with
  | Some None => [pr_info_empty_hostname nid]
  | Some (Some name) =>
      match resolve cfg s (Some name) with
      | None => [pr_info_wrong_hostname name nid]
      | Some machine =>
          if decide (Some machine ∈ take nid (resolved cfg s))
          then [pr_info_duplicated_hostname name nid]
          else match WUKLAB_CLUSTER s !! machine with
               | Some m =>
                   if decide (first_qpn m = 0)
                   then [pr_info_stars; pr_info_qpn_not_finalized (hostname m); pr_info_stars]
                   else []
               | None => []
               end
      end
  | None => []
  end.

(** The lines [print_gloabl_lid] logs for node [nid], from the
    configuration. *)
Definition print_lines (cfg : fit_config) (s : fit_state) (nid : nat) : list fit_printk :=
  match resolved cfg s !! nid with
  | Some (Some machine) =>
      match WUKLAB_CLUSTER s !! machine with
      | Some m =>
          [pr_info_node nid (hostname m) (lid m) (finalized_qpn m);
           if decide (nid = CONFIG_FIT_LOCAL_ID cfg) then pr_cont_arrow else pr_cont_newline]
      | None => []
      end
  | _ => []
  end.

(** What holds before iteration [i] of the loop of [init_global_lid_qpn]
    started from [s0], [bug] being the local flag. *)
Record init_inv (cfg : fit_config) (s0 : fit_state) (i : nat) (bug : bool) (s : fit_state)
    : Prop := mk_init_inv {
  inv_hostnames : lego_cluster_hostnames s = lego_cluster_hostnames s0;
  inv_len_cluster : length (lego_cluster s) = CONFIG_FIT_NR_NODES cfg;
  inv_len_lid : length (global_lid s) = CONFIG_FIT_NR_NODES cfg;
  inv_len_qpn : length (global_first_qpn s) = CONFIG_FIT_NR_NODES cfg;
  inv_names : hostname <$> WUKLAB_CLUSTER s = hostname <$> WUKLAB_CLUSTER s0;
  inv_unused : forall m,
    Z.testbit (cluster_used_machines s) (Z.of_nat m) = false ->
    WUKLAB_CLUSTER s !! m = WUKLAB_CLUSTER s0 !! m;
  inv_in_use : forall m,
    Z.testbit (cluster_used_machines s) (Z.of_nat m) = true ->
    WUKLAB_CLUSTER s !! m = finalized <$> WUKLAB_CLUSTER s0 !! m;
  inv_used : forall m,
    Z.testbit (cluster_used_machines s) (Z.of_nat m) = true
    <-> Some m ∈ take i (resolved cfg s0);
  inv_bug : bug = false
            <-> Forall is_Some (take i (resolved cfg s0)) /\ NoDup (take i (resolved cfg s0));
  inv_arrays : bug = false -> forall j, (j < i)%nat ->
    exists machine m,
      resolved cfg s0 !! j = Some (Some machine)
      /\ WUKLAB_CLUSTER s0 !! machine = Some m
      /\ lego_cluster s !! j = Some (Some machine)
      /\ global_lid s !! j = Some (lid m)
      /\ global_first_qpn s !! j = Some (finalized_qpn m);
  inv_log : printk_log s = printk_log s0 ++ concat (init_lines cfg s0 <$> seq 0 i)
}.

(** A cluster of three nodes, this machine being node 0, with room for
    64 characters in a hostname. *)
Definition fit_three_nodes : fit_config := mk_fit_config 3 0 64.

(** The same with a fourth node. *)
Definition fit_four_nodes : fit_config := mk_fit_config 4 0 64.

(** The globals of the three-node cluster once [init_global_lid_qpn]
    has returned. *)
Definition fit_ready : fit_state :=
  match init_global_lid_qpn fit_three_nodes (fit_boot fit_three_nodes) with
  | Returns _ s => s
  | _ => fit_boot fit_three_nodes
  end.


Close Scope fit_scope.

(** ** Proofs *)

(** *** Running the monad *)

Lemma bind_bind {A B C} (m : M A) (f : A -> M B) (g : B -> M C) k :
  bind (bind m f) g k = bind m (fun a => bind (f a) g) k.
Proof. unfold bind. by destruct (m k) as [[a k']|]. Qed.

Lemma bind_ret {A B} (a : A) (f : A -> M B) k : bind (ret a) f k = f a k.
Proof. reflexivity. Qed.

Lemma bind_emit {B} e (f : unit -> M B) k : bind (emit e) f k = f tt (add_event e k).
Proof. reflexivity. Qed.

Lemma bind_get {B} (f : kernel -> M B) k : bind get f k = f k k.
Proof. reflexivity. Qed.

Lemma bind_read_task {B} p (f : task_struct -> M B) k ts :
  tasks k !! p = Some ts -> bind (read_task p) f k = f ts k.
Proof. intros H. unfold bind, read_task. by rewrite H. Qed.

Lemma bind_read_signal {B} s (f : signal_struct -> M B) k sg :
  signals k !! s = Some sg -> bind (read_signal s) f k = f sg k.
Proof. intros H. unfold bind, read_signal. by rewrite H. Qed.

Lemma bind_modify_task {B} p g (f : unit -> M B) k ts :
  tasks k !! p = Some ts ->
  bind (modify_task p g) f k = f tt (set_tasks (<[p := g ts]> (tasks k)) k).
Proof. intros H. unfold bind, modify_task. by rewrite H. Qed.

Lemma bind_some {A B} (m : M A) (f : A -> M B) k a k1 :
  m k = Some (a, k1) -> bind m f k = f a k1.
Proof. intros H. unfold bind. by rewrite H. Qed.

Lemma bind_inv {A B} (m : M A) (f : A -> M B) k b k2 :
  bind m f k = Some (b, k2) -> exists a k1, m k = Some (a, k1) /\ f a k1 = Some (b, k2).
Proof. unfold bind. destruct (m k) as [[a k1]|]; [eauto|done]. Qed.

Lemma iterate_cons {S} t l (body : Z -> S -> M S) s k :
  iterate (t :: l) body s k = bind (body t s) (fun s' => iterate l body s') k.
Proof. reflexivity. Qed.

Lemma iterate_nil {S} (body : Z -> S -> M S) s k : iterate [] body s k = Some (s, k).
Proof. reflexivity. Qed.

Lemma group_threads_fields k p l :
  group_threads k p = Some l ->
  exists tp sg, tasks k !! p = Some tp /\ signals k !! signal tp = Some sg /\ thread_head sg = l.
Proof.
  unfold group_threads. intros H.
  destruct (tasks k !! p) as [tp|] eqn:Hp; [|done].
  destruct (signals k !! signal tp) as [sg|] eqn:Hs; [|done].
  exists tp, sg. by simplify_eq.
Qed.

Lemma thread_list_ok k p l : group_threads k p = Some l -> thread_list p k = Some (l, k).
Proof.
  intros H. apply group_threads_fields in H as (tp & sg & Hp & Hs & <-).
  unfold thread_list. rewrite (bind_read_task _ _ _ _ Hp), (bind_read_signal _ _ _ _ Hs).
  reflexivity.
Qed.

Lemma bind_for_each_thread {S B} p (body : Z -> S -> M S) s (f : S -> M B) k l :
  group_threads k p = Some l ->
  bind (for_each_thread p body s) f k = bind (iterate l body s) f k.
Proof.
  intros H. unfold for_each_thread. rewrite bind_bind.
  by rewrite (bind_some _ _ _ _ _ (thread_list_ok _ _ _ H)).
Qed.

Ltac ksimpl :=
  cbn [tasks signals pid_hash heap jiffies barrier_timeout_msec current trace
       set_tasks set_heap set_jiffies set_current add_event log kern frames] in *.

(** Side conditions: a lookup in the current task table. *)
Ltac mlookup :=
  ksimpl;
  first [ eassumption
        | apply lookup_insert_eq
        | rewrite lookup_insert_ne by done; eassumption ].

(** Run the first operation of a monadic computation. *)
Ltac mstep :=
  cbv beta;
  first [ rewrite bind_bind
        | rewrite bind_ret
        | rewrite bind_emit
        | rewrite bind_get
        | erewrite bind_read_task by mlookup
        | erewrite bind_read_signal by mlookup
        | erewrite bind_modify_task by mlookup ].

(** Membership in a list written out. *)
Ltac elem_here :=
  rewrite ?elem_of_cons; solve [repeat first [left; reflexivity | right]].

Ltac elem_cases H :=
  repeat (apply elem_of_cons in H as [H|H]; [try discriminate|]);
  try (by apply not_elem_of_nil in H).

Lemma new_events_app k k' evs :
  trace k' = trace k ++ evs -> new_events k k' = evs.
Proof.
  intros H. unfold new_events. rewrite H. by rewrite drop_app_length.
Qed.

Lemma tagged_app cur l1 l2 : tagged cur (l1 ++ l2) = tagged cur l1 ++ tagged cur l2.
Proof. unfold tagged. apply fmap_app. Qed.

Section dispatcher.

Context (E : externals).

(** [wake_up_state] on a live task. *)
Lemma bind_wake_up_state {B} t mask (f : bool -> M B) k ts :
  tasks k !! t = Some ts ->
  bind (wake_up_state E t mask) f k =
  match try_to_wake_up E (state ts) mask with
  | Some st' =>
      f true (add_event (E_wake_up_state t mask true)
                        (set_tasks (<[t := with_state st' ts]> (tasks k)) k))
  | None => f false (add_event (E_wake_up_state t mask false) k)
  end.
Proof.
  intros H. unfold wake_up_state. rewrite bind_bind, (bind_read_task _ _ _ _ H).
  destruct (try_to_wake_up E (state ts) mask) as [st'|].
  - rewrite !bind_bind, (bind_modify_task _ _ _ _ _ H), bind_bind, bind_emit.
    by rewrite bind_ret.
  - by rewrite bind_bind, bind_emit, bind_ret.
Qed.

(** The dispatcher's loop over a list of distinct live tasks. *)
Lemma checkpoint_process_loop (l : list Z) : forall k,
  NoDup l ->
  Forall (fun t => is_Some (tasks k !! t)) l ->
  exists k',
    iterate l (checkpoint_process_body E) tt k = Some (tt, k')
    /\ trace k' = trace k ++ tagged (current k) (concat (dispatch_events E k <$> l))
    /\ current k' = current k
    /\ signals k' = signals k
    /\ pid_hash k' = pid_hash k
    /\ (forall t, t ∈ l -> exists ts, tasks k' !! t = Some ts /\ TIF_NEED_CHECKPOINT ts = true)
    /\ (forall t, t ∉ l -> tasks k' !! t = tasks k !! t)
    /\ (forall t, is_Some (tasks k' !! t) <-> is_Some (tasks k !! t)).
Proof.
  induction l as [|t l IH]; intros k Hnd Hlive.
  - exists k. rewrite iterate_nil. unfold tagged. simpl. rewrite app_nil_r.
    repeat split; try done. intros t Ht. by apply not_elem_of_nil in Ht.
  - apply NoDup_cons in Hnd as [Hnotin Hnd].
    apply Forall_cons in Hlive as [[ts Hts] Hlive].
    set (st' := match try_to_wake_up E (state ts) (TASK_ALL E) with
                | Some s => s | None => state ts end).
    set (ts' := with_state st' (with_need_checkpoint true ts)).
    assert (exists k1,
        iterate (t :: l) (checkpoint_process_body E) tt k = iterate l (checkpoint_process_body E) tt k1
        /\ tasks k1 = <[t := ts']> (tasks k)
        /\ trace k1 = trace k ++ tagged (current k) (dispatch_events E k t)
        /\ current k1 = current k /\ signals k1 = signals k /\ pid_hash k1 = pid_hash k)
      as (k1 & Hrun & Htasks & Htrace & Hcur & Hsig & Hhash).
    { rewrite iterate_cons. unfold checkpoint_process_body at 1. repeat mstep.
      erewrite bind_wake_up_state by mlookup. ksimpl.
      subst ts' st'. unfold dispatch_events. rewrite Hts. simpl.
      destruct (try_to_wake_up E (state ts) (TASK_ALL E)) as [s|] eqn:Hw.
      - eexists. split; [rewrite bind_ret; reflexivity|].
        ksimpl. rewrite insert_insert_eq, <- !app_assoc. done.
      - eexists. split; [unfold kick_process; rewrite bind_emit; reflexivity|].
        ksimpl. rewrite <- !app_assoc. repeat split; done. }
    assert (Hlive1 : Forall (fun u => is_Some (tasks k1 !! u)) l).
    { rewrite Forall_forall in Hlive |- *. intros u Hu. rewrite Htasks.
      destruct (decide (t = u)) as [->|Hne]; [by rewrite lookup_insert_eq|].
      rewrite lookup_insert_ne by done. by apply Hlive. }
    destruct (IH k1 Hnd Hlive1) as (k' & Hk' & Htr' & Hcur' & Hsig' & Hhash' & Hset & Hframe & Hdom).
    exists k'. rewrite Hrun. split; [exact Hk'|].
    assert (Hsame : dispatch_events E k1 <$> l = dispatch_events E k <$> l).
    { apply Forall_fmap_ext_1, Forall_forall. intros u Hu.
      unfold dispatch_events. rewrite Htasks.
      rewrite lookup_insert_ne; [done|]. intros ->. done. }
    split.
    { rewrite Htr', Htrace, Hcur, Hsame. simpl.
      by rewrite tagged_app, app_assoc. }
    split; [congruence|]. split; [congruence|]. split; [congruence|].
    split; [|split].
    + intros u Hu. apply elem_of_cons in Hu as [->|Hu]; [|by apply Hset].
      rewrite Hframe by done. rewrite Htasks. rewrite lookup_insert_eq.
      eexists. split; [reflexivity|]. done.
    + intros u Hu. apply not_elem_of_cons in Hu as [Hne Hu].
      rewrite Hframe by done. rewrite Htasks. by rewrite lookup_insert_ne.
    + intros u. rewrite Hdom, Htasks.
      destruct (decide (t = u)) as [->|Hne].
      * rewrite lookup_insert_eq, Hts. split; eauto.
      * by rewrite lookup_insert_ne.
Qed.

(** The dispatcher on a well-formed group. *)
Lemma checkpoint_process_ok p l k :
  wf_group k p l ->
  exists k',
    checkpoint_process E p k = Some (0, k')
    /\ trace k' = trace k ++
         tagged (current k)
           ([E_spin_lock_irqsave] ++ concat (dispatch_events E k <$> l)
            ++ [E_spin_unlock_irqrestore])
    /\ current k' = current k
    /\ signals k' = signals k
    /\ pid_hash k' = pid_hash k
    /\ (forall t, t ∈ l -> exists ts, tasks k' !! t = Some ts /\ TIF_NEED_CHECKPOINT ts = true)
    /\ (forall t, t ∉ l -> tasks k' !! t = tasks k !! t)
    /\ (forall t, is_Some (tasks k' !! t) <-> is_Some (tasks k !! t)).
Proof.
  intros (Hl & Hnd & Hlive).
  destruct (checkpoint_process_loop l (add_event E_spin_lock_irqsave k) Hnd Hlive)
    as (k1 & Hrun & Htr & Hcur & Hsig & Hhash & Hset & Hframe & Hdom).
  exists (add_event E_spin_unlock_irqrestore k1).
  split.
  { unfold checkpoint_process. mstep.
    erewrite bind_for_each_thread by (ksimpl; exact Hl).
    rewrite (bind_some _ _ _ _ _ Hrun). by repeat mstep. }
  ksimpl. split_and!; try done.
  rewrite Htr, Hcur. ksimpl. rewrite !tagged_app, <- !app_assoc. simpl. done.
Qed.

End dispatcher.

(** *** What every operation of this file leaves unchanged *)

Lemma same_ids_refl a : same_ids a a.
Proof. by repeat split. Qed.

Lemma same_ids_trans a b c : same_ids a b -> same_ids b c -> same_ids a c.
Proof. unfold same_ids. intros (?&?&?&?) (?&?&?&?). repeat split; congruence. Qed.

Lemma extends_refl k : extends k [] k.
Proof.
  unfold extends, tagged. simpl. rewrite app_nil_r. split_and!; try done.
  intros t. destruct (tasks k !! t); [apply same_ids_refl|done].
Qed.

Lemma extends_trans k1 evs1 k2 evs2 k3 :
  extends k1 evs1 k2 -> extends k2 evs2 k3 -> extends k1 (evs1 ++ evs2) k3.
Proof.
  intros (Hc1 & Hs1 & Hh1 & Hb1 & Hj1 & Ht1 & Htr1) (Hc2 & Hs2 & Hh2 & Hb2 & Hj2 & Ht2 & Htr2).
  unfold extends. split_and!; try congruence.
  - intros t. specialize (Ht1 t). specialize (Ht2 t).
    destruct (tasks k1 !! t), (tasks k2 !! t), (tasks k3 !! t); try done.
    eapply same_ids_trans; eauto.
  - rewrite Htr2, Htr1, Hc1, tagged_app. by rewrite app_assoc.
Qed.

Lemma extends_add_event k e : extends k [e] (add_event e k).
Proof.
  unfold extends. ksimpl. split_and!; try done.
  intros t. destruct (tasks k !! t); [apply same_ids_refl|done].
Qed.

Lemma extends_set_tasks k p ts ts' :
  tasks k !! p = Some ts -> same_ids ts ts' ->
  extends k [] (set_tasks (<[p := ts']> (tasks k)) k).
Proof.
  intros Hp Hids. unfold extends, tagged. ksimpl. rewrite app_nil_r.
  split_and!; try done.
  intros t. destruct (decide (p = t)) as [<-|Hne].
  - by rewrite lookup_insert_eq, Hp.
  - rewrite lookup_insert_ne by done.
    destruct (tasks k !! t); [apply same_ids_refl|done].
Qed.

Lemma extends_set_heap k h : extends k [] (set_heap h k).
Proof.
  unfold extends, tagged. ksimpl. rewrite app_nil_r. split_and!; try done.
  intros t. destruct (tasks k !! t); [apply same_ids_refl|done].
Qed.

Lemma extends_live k evs k' t :
  extends k evs k' -> is_Some (tasks k' !! t) <-> is_Some (tasks k !! t).
Proof.
  intros (_ & _ & _ & _ & _ & Ht & _). specialize (Ht t).
  destruct (tasks k !! t), (tasks k' !! t); try done; split; eauto.
Qed.

Lemma extends_group_leader k evs k' t ts :
  extends k evs k' -> tasks k !! t = Some ts ->
  exists ts', tasks k' !! t = Some ts' /\ same_ids ts ts'.
Proof.
  intros (_ & _ & _ & _ & _ & Ht & _) Hts. specialize (Ht t). rewrite Hts in Ht.
  destruct (tasks k' !! t) as [ts'|]; [eauto|done].
Qed.

Lemma safe_ret {A} (a : A) : safe (ret a).
Proof.
  intros k a' k' H. unfold ret in H. simplify_eq.
  exists []. split; [apply extends_refl|constructor].
Qed.

Lemma safe_fault {A} : safe (@fault A).
Proof. intros k a k' H. discriminate. Qed.

Lemma safe_get : safe get.
Proof.
  intros k a k' H. unfold get in H. simplify_eq.
  exists []. split; [apply extends_refl|constructor].
Qed.

Lemma safe_emit e : quiet e -> safe (emit e).
Proof.
  intros He k a k' H. unfold emit in H. simplify_eq.
  exists [e]. split; [apply extends_add_event|by constructor].
Qed.

Lemma safe_bind {A B} (m : M A) (f : A -> M B) :
  safe m -> (forall a, safe (f a)) -> safe (bind m f).
Proof.
  intros Hm Hf k b k' H. apply bind_inv in H as (a & k1 & H1 & H2).
  destruct (Hm _ _ _ H1) as (evs1 & Hx1 & Hq1).
  destruct (Hf _ _ _ _ H2) as (evs2 & Hx2 & Hq2).
  exists (evs1 ++ evs2). split; [by eapply extends_trans|by apply Forall_app].
Qed.

Lemma safe_read_task p : safe (read_task p).
Proof.
  intros k a k' H. unfold read_task in H.
  destruct (tasks k !! p); simplify_eq.
  exists []. split; [apply extends_refl|constructor].
Qed.

Lemma safe_read_signal s : safe (read_signal s).
Proof.
  intros k a k' H. unfold read_signal in H.
  destruct (signals k !! s); simplify_eq.
  exists []. split; [apply extends_refl|constructor].
Qed.

Lemma safe_modify_task p g : (forall ts, same_ids ts (g ts)) -> safe (modify_task p g).
Proof.
  intros Hg k a k' H. unfold modify_task in H.
  destruct (tasks k !! p) as [ts|] eqn:Hp; simplify_eq.
  exists []. split; [by eapply extends_set_tasks|constructor].
Qed.

Lemma safe_modify_ss_task a i g : safe (modify_ss_task a i g).
Proof.
  intros k x k' H. unfold modify_ss_task in H.
  destruct (heap k !! a) as [arr|]; [|done].
  destruct (decide (0 <= i)); [|done].
  destruct (arr !! Z.to_nat i); simplify_eq.
  exists []. split; [apply extends_set_heap|constructor].
Qed.

Lemma safe_kfree a : safe (kfree a).
Proof.
  intros k x k' H. unfold kfree in H.
  destruct (heap k !! a); simplify_eq.
  exists ([] ++ [E_kfree a]). split; [|by repeat constructor].
  eapply extends_trans; [apply extends_set_heap|apply extends_add_event].
Qed.

Lemma safe_iterate {S} l (body : Z -> S -> M S) :
  (forall t s, safe (body t s)) -> forall s, safe (iterate l body s).
Proof.
  intros Hb. induction l as [|t l IH]; intros s; simpl.
  - apply safe_ret.
  - apply safe_bind; [apply Hb|apply IH].
Qed.

Lemma safe_for_each_thread {S} p (body : Z -> S -> M S) s :
  (forall t s, safe (body t s)) -> safe (for_each_thread p body s).
Proof.
  intros Hb. unfold for_each_thread, thread_list.
  repeat (apply safe_bind; [|intros]);
    auto using safe_read_task, safe_read_signal, safe_ret, safe_iterate.
Qed.

Create HintDb safe_db.
#[local] Hint Resolve safe_ret safe_fault safe_get safe_read_task safe_read_signal
  safe_modify_ss_task safe_kfree : safe_db.

(** Decompose a computation into its operations. *)
Ltac safe_tac :=
  repeat first
    [ solve [auto with safe_db]
    | apply safe_for_each_thread; intros
    | apply safe_iterate; intros
    | apply safe_emit; exact I
    | apply safe_modify_task; intros []; by repeat split
    | apply safe_bind; [|intros]
    | match goal with
      | |- safe (if ?b then _ else _) => destruct b
      | |- safe (match ?x with _ => _ end) => destruct x
      | |- safe (let (_, _) := ?x in _) => destruct x
      end ].

Section safe_ops.

Context (E : externals).

Lemma safe_kmalloc size : safe (kmalloc E size).
Proof.
  intros k x k' H. unfold kmalloc in H.
  destruct (kmalloc_addr E k size) as [a|]; simplify_eq.
  - exists ([] ++ [E_kmalloc size (Some a)]). split; [|by repeat constructor].
    eapply extends_trans; [apply extends_set_heap|apply extends_add_event].
  - exists [E_kmalloc size None]. split; [apply extends_add_event|by repeat constructor].
Qed.

Lemma safe_wake_up_state t mask : safe (wake_up_state E t mask).
Proof. unfold wake_up_state. safe_tac. Qed.

Lemma safe_paranoid_state_check leader : safe (paranoid_state_check E leader).
Proof. unfold paranoid_state_check, paranoid_state_check_body. safe_tac. Qed.

Lemma safe___do_checkpoint_process leader : safe (__do_checkpoint_process E leader).
Proof.
  pose proof safe_kmalloc. pose proof safe_paranoid_state_check.
  unfold __do_checkpoint_process, __do_checkpoint_process_frame, save_threads_body,
    save_open_files, save_signals, revert_save_open_files, save_thread_regs.
  safe_tac.
Qed.

Lemma safe_wake_up_thread_group leader : safe (wake_up_thread_group E leader).
Proof.
  pose proof safe_wake_up_state.
  unfold wake_up_thread_group, wake_up_thread_group_body. safe_tac.
Qed.

Lemma safe_barrier_timeout_wakeup leader : safe (barrier_timeout_wakeup E leader).
Proof.
  pose proof safe_wake_up_state.
  unfold barrier_timeout_wakeup, barrier_timeout_wakeup_body. safe_tac.
Qed.

Lemma safe_checkpoint_process p : safe (checkpoint_process E p).
Proof.
  pose proof safe_wake_up_state.
  unfold checkpoint_process, checkpoint_process_body, kick_process. safe_tac.
Qed.

Lemma safe_sys_checkpoint_process p : safe (sys_checkpoint_process E p).
Proof.
  pose proof safe_checkpoint_process.
  unfold sys_checkpoint_process, find_task_by_pid. safe_tac.
Qed.

End safe_ops.

(** *** One statement of [checkpoint_thread] *)

Lemma ret_inv {A} (a b : A) k k' : ret a k = Some (b, k') -> b = a /\ k' = k.
Proof. unfold ret. intros H. by simplify_eq. Qed.

Lemma read_task_inv p k ts k' :
  read_task p k = Some (ts, k') -> tasks k !! p = Some ts /\ k' = k.
Proof. unfold read_task. destruct (tasks k !! p); intros H; by simplify_eq. Qed.

Lemma extends_cons k e evs k1 k2 :
  k1 = add_event e k -> extends k1 evs k2 -> extends k (e :: evs) k2.
Proof.
  intros -> H. change (e :: evs) with ([e] ++ evs).
  eapply extends_trans; [apply extends_add_event|exact H].
Qed.

Section step_facts.

Context (E : externals).

Lemma atomic_inc_extends t k k' :
  atomic_inc t k = Some (tt, k') -> extends k [E_atomic_inc t] k'.
Proof.
  unfold atomic_inc. intros H. apply bind_inv in H as ([] & k1 & H1 & H2).
  unfold emit in H2. injection H2 as <-.
  assert (Hs : safe (modify_task t
            (fun ts => with_process_barrier (wrap_int (process_barrier ts + 1)) ts)))
    by safe_tac.
  destruct (Hs _ _ _ H1) as (evs & Hx & Hq).
  destruct Hx as (Hc & Hsg & Hh & Hb & Hj & Ht & Htr).
  unfold extends. ksimpl. split_and!; try done.
  unfold modify_task in H1. destruct (tasks k !! t); [|done].
  injection H1 as <-. ksimpl. done.
Qed.

Lemma safe_atomic_set t v : safe (atomic_set t v).
Proof. unfold atomic_set. safe_tac. Qed.

Lemma safe_set_current_state s : safe (set_current_state s).
Proof. unfold set_current_state. safe_tac. Qed.

(** [do_checkpoint_process] logs its call marker, then only other events. *)
Lemma do_checkpoint_process_extends p k r k' :
  do_checkpoint_process E p k = Some (r, k') ->
  exists evs, extends k (E_do_checkpoint_process p :: evs) k' /\ Forall quiet evs.
Proof.
  unfold do_checkpoint_process. rewrite bind_emit. intros H.
  assert (Hs : safe (emit E_preempt_disable ;;
                     r <- __do_checkpoint_process E p ;;
                     emit E_preempt_enable_no_resched ;; ret r)).
  { pose proof (safe___do_checkpoint_process E). safe_tac. }
  destruct (Hs _ _ _ H) as (evs & Hx & Hq).
  exists evs. split; [|done]. by eapply extends_cons.
Qed.

(** The control flow of [checkpoint_thread] and the events of each
    statement. *)
Lemma checkpoint_thread_step_spec f k f' k' :
  checkpoint_thread_step E f k = Some (f', k') ->
  f_p f' = f_p f /\
  exists evs, extends k evs k' /\
    match f_pc f with
    | L162 => f_pc f' = L165 /\ Forall quiet evs
    | L165 => (f_pc f' = L167 \/ f_pc f' = L_BUG) /\ Forall quiet evs
    | L167 =>
        exists ts, tasks k !! f_p f = Some ts /\ f_leader f' = group_leader ts
          /\ evs = [E_atomic_inc (group_leader ts)]
          /\ f_pc f' = (if decide (f_p f = group_leader ts) then L180 else L171)
    | L171 => f_pc f' = L172 /\ Forall quiet evs
    | L172 => f_pc f' = L172_blocked /\ evs = [E_schedule]
    | L172_blocked => f_pc f' = L175 /\ Forall quiet evs
    | L175 => f_pc f' = L210 /\ Forall quiet evs
    | L180 => f_pc f' = L183 /\ Forall quiet evs
    | L183 => (f_pc f' = L194 \/ f_pc f' = L188) /\ Forall quiet evs
    | L188 => (f_pc f' = L207 \/ f_pc f' = L183) /\ Forall quiet evs
    | L194 => f_pc f' = L200 /\ Forall quiet evs
    | L200 =>
        f_pc f' = L203 /\
        exists evs', evs = E_do_checkpoint_process (f_p f) :: evs' /\ Forall quiet evs'
    | L203 => f_pc f' = L207 /\ Forall quiet evs
    | L207 => f_pc f' = L210 /\ Forall quiet evs
    | L210 => f_pc f' = L211 /\ Forall quiet evs
    | L211 => f_pc f' = L_returned 0 /\ Forall quiet evs
    | L_returned _ => False
    | L_BUG => False
    end.
Proof.
  unfold checkpoint_thread_step. intros Hstep.
  destruct (f_pc f) eqn:Hpc.
  - (* L162 *)
    apply bind_inv in Hstep as (ts & k1 & H1 & Hstep).
    apply read_task_inv in H1 as [Hts ->].
    rewrite bind_emit in Hstep. apply ret_inv in Hstep as [-> ->].
    split; [done|]. eexists. split; [apply extends_add_event|].
    split; [done|by repeat constructor].
  - (* L165 *)
    apply bind_inv in Hstep as (need & k1 & H1 & Hstep).
    unfold test_tsk_need_checkpoint in H1.
    apply bind_inv in H1 as (ts & k2 & H1 & H2).
    apply read_task_inv in H1 as [Hts ->]. apply ret_inv in H2 as [-> ->].
    destruct (TIF_NEED_CHECKPOINT ts).
    + apply ret_inv in Hstep as [-> ->]. split; [done|].
      exists []. split; [apply extends_refl|]. split; [by left|constructor].
    + rewrite bind_emit in Hstep. apply ret_inv in Hstep as [-> ->]. split; [done|].
      eexists. split; [apply extends_add_event|]. split; [by right|by repeat constructor].
  - (* L167 *)
    apply bind_inv in Hstep as (ts & k1 & H1 & Hstep).
    apply read_task_inv in H1 as [Hts ->].
    apply bind_inv in Hstep as ([] & k1 & H1 & Hstep).
    apply ret_inv in Hstep as [-> ->]. split; [done|].
    pose proof (atomic_inc_extends _ _ _ H1) as Hx.
    eexists. split; [exact Hx|]. exists ts. done.
  - (* L171 *)
    apply bind_inv in Hstep as ([] & k1 & H1 & Hstep).
    apply ret_inv in Hstep as [-> ->]. split; [done|].
    destruct (safe_set_current_state _ _ _ _ H1) as (evs & Hx & Hq). eauto.
  - (* L172 *)
    rewrite bind_emit in Hstep. apply ret_inv in Hstep as [-> ->]. split; [done|].
    eexists. split; [apply extends_add_event|done].
  - (* L172_blocked *)
    rewrite bind_get in Hstep.
    apply bind_inv in Hstep as (cur & k1 & H1 & Hstep).
    apply read_task_inv in H1 as [Hts ->].
    destruct (decide (state cur = TASK_RUNNING)); [|done].
    apply ret_inv in Hstep as [-> ->]. split; [done|].
    exists []. split; [apply extends_refl|]. split; [done|constructor].
  - (* L175 *)
    apply bind_inv in Hstep as ([] & k1 & H1 & Hstep).
    apply ret_inv in Hstep as [-> ->]. split; [done|].
    destruct (safe_set_current_state _ _ _ _ H1) as (evs & Hx & Hq). eauto.
  - (* L180 *)
    rewrite bind_get in Hstep. apply ret_inv in Hstep as [-> ->]. split; [done|].
    exists []. split; [apply extends_refl|]. split; [done|constructor].
  - (* L183 *)
    apply bind_inv in Hstep as (ts & k1 & H1 & Hstep).
    apply read_task_inv in H1 as [Hts ->].
    apply bind_inv in Hstep as (sg & k1 & H1 & Hstep).
    unfold read_signal in H1. destruct (signals k !! signal ts); [|done].
    simplify_eq.
    destruct (decide (process_barrier ts = nr_threads sg));
      apply ret_inv in Hstep as [-> ->]; (split; [done|]);
      exists []; (split; [apply extends_refl|]); (split; [auto|constructor]).
  - (* L188 *)
    rewrite bind_get in Hstep.
    destruct (time_after (jiffies k) (f_timeout f)).
    + apply bind_inv in Hstep as ([] & k1 & H1 & Hstep).
      apply ret_inv in Hstep as [-> ->]. split; [done|].
      destruct (safe_barrier_timeout_wakeup E _ _ _ _ H1) as (evs & Hx & Hq). eauto.
    + apply ret_inv in Hstep as [-> ->]. split; [done|].
      exists []. split; [apply extends_refl|]. split; [auto|constructor].
  - (* L194 *)
    rewrite bind_emit in Hstep. apply ret_inv in Hstep as [-> ->]. split; [done|].
    eexists. split; [apply extends_add_event|]. split; [done|by repeat constructor].
  - (* L200 *)
    apply bind_inv in Hstep as (r & k1 & H1 & Hstep).
    apply ret_inv in Hstep as [-> ->]. split; [done|].
    destruct (do_checkpoint_process_extends _ _ _ _ H1) as (evs & Hx & Hq).
    eexists. split; [exact Hx|]. split; [done|]. eauto.
  - (* L203 *)
    apply bind_inv in Hstep as ([] & k1 & H1 & Hstep).
    apply ret_inv in Hstep as [-> ->]. split; [done|].
    destruct (safe_wake_up_thread_group E _ _ _ _ H1) as (evs & Hx & Hq). eauto.
  - (* L207 *)
    apply bind_inv in Hstep as ([] & k1 & H1 & Hstep).
    apply ret_inv in Hstep as [-> ->]. split; [done|].
    destruct (safe_atomic_set _ _ _ _ _ H1) as (evs & Hx & Hq). eauto.
  - (* L210 *)
    apply bind_inv in Hstep as ([] & k1 & H1 & Hstep).
    apply ret_inv in Hstep as [-> ->]. split; [done|].
    assert (Hs : safe (modify_task (f_p f) (with_need_checkpoint false))) by safe_tac.
    destruct (Hs _ _ _ H1) as (evs & Hx & Hq). eauto.
  - (* L211 *)
    apply ret_inv in Hstep as [-> ->]. split; [done|].
    exists []. split; [apply extends_refl|]. split; [done|constructor].
  - done.
  - done.
Qed.

End step_facts.

(** *** One attempt: the capture runs at most once, on the leader branch *)

Lemma elem_of_tagged t e cur evs : (t, e) ∈ tagged cur evs <-> t = cur /\ e ∈ evs.
Proof.
  unfold tagged. rewrite list_elem_of_fmap. split.
  - intros (e' & Heq & Hin). by simplify_eq.
  - intros [-> Hin]. eauto.
Qed.

Lemma captures_app leader tr1 tr2 :
  captures leader (tr1 ++ tr2) = (captures leader tr1 + captures leader tr2)%nat.
Proof. unfold captures. by rewrite filter_app, length_app. Qed.

Lemma captures_quiet leader cur evs :
  Forall quiet evs -> captures leader (tagged cur evs) = 0%nat.
Proof.
  unfold captures, tagged. induction 1 as [|e evs He _ IH]; [done|].
  rewrite fmap_cons, filter_cons. destruct (decide _) as [Heq|]; [|exact IH].
  simpl in Heq. subst e. done.
Qed.

Lemma captures_notin leader cur evs :
  E_do_checkpoint_process leader ∉ evs -> captures leader (tagged cur evs) = 0%nat.
Proof.
  unfold captures, tagged. induction evs as [|e evs IH]; intros Hnin; [done|].
  apply not_elem_of_cons in Hnin as [Hne Hnin].
  rewrite fmap_cons, filter_cons. destruct (decide _) as [Heq|]; [|by apply IH].
  simpl in Heq. by subst e.
Qed.

Lemma captures_none leader tr :
  (forall t, (t, E_do_checkpoint_process leader) ∉ tr) -> captures leader tr = 0%nat.
Proof.
  unfold captures. induction tr as [|[t e] tr IH]; intros Hno; [done|].
  rewrite filter_cons. destruct (decide _) as [Heq|].
  - simpl in Heq. subst e. exfalso. apply (Hno t). by left.
  - apply IH. intros t' Hin. apply (Hno t'). by right.
Qed.

Lemma is_group_leader_extends k evs k' t :
  extends k evs k' -> is_group_leader k t <-> is_group_leader k' t.
Proof.
  intros (_ & _ & _ & _ & _ & Ht & _). specialize (Ht t). unfold is_group_leader.
  destruct (tasks k !! t) as [a|], (tasks k' !! t) as [b|]; try done.
  - destruct Ht as (_ & _ & Hgl & _).
    split; intros (ts & ? & ?); simplify_eq; (eexists; split; [done|congruence]).
Qed.

Lemma not_group_leader_extends k evs k' t ts' :
  extends k evs k' -> tasks k' !! t = Some ts' -> group_leader ts' <> t ->
  exists ts, tasks k !! t = Some ts /\ group_leader ts <> t.
Proof.
  intros (_ & _ & _ & _ & _ & Ht & _) Hts Hne. specialize (Ht t). rewrite Hts in Ht.
  destruct (tasks k !! t) as [a|]; [|done].
  destruct Ht as (_ & _ & Hgl & _). exists a. split; [done|congruence].
Qed.

Section attempt.

Context (E : externals).

Lemma fresh_attempt_inv c : fresh_attempt c -> attempt_inv c.
Proof.
  intros [Hf Hq]. split.
  - intros tid f Hl. by destruct (Hf _ _ Hl).
  - intros tid f Hl Hb. destruct (Hf _ _ Hl) as [_ Hpc]. by rewrite Hpc in Hb.
  - intros tid p Hin. rewrite Forall_forall in Hq. by apply Hq in Hin.
  - intros leader. rewrite captures_none; [lia|].
    intros t Hin. rewrite Forall_forall in Hq. by apply Hq in Hin.
  - intros tid f ts Hl _ _ Hb. destruct (Hf _ _ Hl) as [_ Hpc]. by rewrite Hpc in Hb.
Qed.

(** Steps that append only quiet events and leave the frames alone. *)
Lemma attempt_inv_kernel c k' cur evs :
  attempt_inv c ->
  extends (set_current cur (kern c)) evs k' -> Forall quiet evs ->
  attempt_inv (mk_config k' (frames c)).
Proof.
  intros [Ha Hb Hc Hd He] Hx Hq.
  assert (Hx' := Hx). destruct Hx' as (_ & _ & _ & _ & _ & _ & Htr). ksimpl.
  split; simpl.
  - done.
  - intros tid f Hl Hlb. apply (is_group_leader_extends _ _ _ tid Hx). by eapply Hb.
  - intros tid p Hin. rewrite Htr in Hin. apply elem_of_app in Hin as [Hin|Hin].
    + destruct (Hc _ _ Hin) as (-> & Hgl & Hf). split; [done|]. split; [|done].
      by apply (is_group_leader_extends _ _ _ tid Hx).
    + apply elem_of_tagged in Hin as [_ Hin].
      rewrite Forall_forall in Hq. by apply Hq in Hin.
  - intros leader. rewrite Htr, captures_app, captures_quiet by done.
    specialize (Hd leader). lia.
  - intros tid f ts Hl Hts Hne Hap. rewrite Htr. apply elem_of_app. left.
    destruct (not_group_leader_extends _ _ _ _ _ Hx Hts Hne) as (ts0 & Hts0 & Hne0).
    by eapply He.
Qed.

Lemma attempt_inv_tick c :
  attempt_inv c ->
  attempt_inv (mk_config (set_jiffies (wrap_ulong (jiffies (kern c) + 1)) (kern c)) (frames c)).
Proof. intros [Ha Hb Hc Hd He]. split; simpl; eauto. Qed.

(** A statement of [checkpoint_thread] executed by thread [tid]. *)
Lemma attempt_inv_run c tid f f' k' :
  attempt_inv c ->
  frames c !! tid = Some f ->
  checkpoint_thread_step E f (set_current tid (kern c)) = Some (f', k') ->
  attempt_inv (mk_config k' (<[tid := f']> (frames c))).
Proof.
  intros Hinv Hf Hstep.
  destruct (checkpoint_thread_step_spec E _ _ _ _ Hstep) as (Hp & evs & Hx & Hpc).
  destruct Hinv as [Ha Hb Hc Hd He].
  assert (Hself : f_p f = tid) by eauto.
  assert (Hx' := Hx). destruct Hx' as (_ & _ & _ & _ & _ & _ & Htr). ksimpl.
  assert (Hgl : forall t, is_group_leader (kern c) t <-> is_group_leader k' t).
  { intros t. apply (is_group_leader_extends _ _ _ t Hx). }
  (* the leader branch is entered at L167 only, by a group leader *)
  assert (Hlb : leader_branch (f_pc f') = true -> is_group_leader (kern c) tid).
  { intros Hlb. destruct (f_pc f) eqn:Hl; try done;
      try (apply (Hb _ _ Hf); by rewrite Hl);
      repeat match goal with
             | H : _ /\ _ |- _ => destruct H
             | H : _ \/ _ |- _ => destruct H
             | H : exists _, _ |- _ => destruct H
             | H : f_pc f' = _ |- _ => rewrite H in Hlb
             end; try done.
    ksimpl. case_decide; [|done]. subst tid. eexists. split; [done|congruence]. }
  (* a capture among the new events is the one of L200 *)
  assert (Hnew : forall p, E_do_checkpoint_process p ∈ evs ->
             p = tid /\ f_pc f = L200 /\ f_pc f' = L203
             /\ forall leader, captures leader (tagged tid evs) =
                  if decide (leader = tid) then 1%nat else 0%nat).
  { intros p Hin.
    assert (Hnq : ~ Forall quiet evs).
    { intros Hq. rewrite Forall_forall in Hq. by apply Hq in Hin. }
    destruct (f_pc f) eqn:Hl; try (exfalso; apply Hnq; tauto); try done.
    - destruct Hpc as (ts & _ & _ & -> & _). elem_cases Hin.
    - destruct Hpc as [_ ->]. elem_cases Hin.
    - destruct Hpc as (Hl' & evs' & -> & Hq).
      apply elem_of_cons in Hin as [Heq|Hin].
      + simplify_eq. split; [done|]. split; [done|]. split; [done|].
        intros leader. change (tagged (f_p f) (E_do_checkpoint_process (f_p f) :: evs'))
          with ([(f_p f, E_do_checkpoint_process (f_p f))] ++ tagged (f_p f) evs').
        rewrite captures_app, captures_quiet by done.
        unfold captures. rewrite filter_cons. simpl.
        repeat case_decide; simplify_eq; done.
      + rewrite Forall_forall in Hq. by apply Hq in Hin. }
  split; simpl.
  - intros t g Hl. destruct (decide (tid = t)) as [<-|Hne].
    + rewrite lookup_insert_eq in Hl. simplify_eq. congruence.
    + rewrite lookup_insert_ne in Hl by done. eauto.
  - intros t g Hl Hbr. apply Hgl. destruct (decide (tid = t)) as [<-|Hne].
    + rewrite lookup_insert_eq in Hl. simplify_eq. auto.
    + rewrite lookup_insert_ne in Hl by done. eauto.
  - intros t p Hin. rewrite Htr in Hin. apply elem_of_app in Hin as [Hin|Hin].
    + destruct (Hc _ _ Hin) as (-> & Hl & g & Hg & Hac).
      split; [done|]. split; [by apply Hgl|].
      destruct (decide (tid = t)) as [<-|Hne].
      * rewrite lookup_insert_eq. eexists. split; [done|]. simplify_eq.
        destruct (f_pc f) eqn:Hl'; try done;
          repeat match goal with
                 | H : _ /\ _ |- _ => destruct H
                 | H : f_pc f' = _ |- _ => rewrite H
                 end; done.
      * rewrite lookup_insert_ne by done. eauto.
    + apply elem_of_tagged in Hin as [-> Hin].
      destruct (Hnew _ Hin) as (-> & Hl & Hl' & _).
      split; [done|]. split.
      * apply Hgl, Hlb. by rewrite Hl'.
      * rewrite lookup_insert_eq. eexists. split; [done|]. by rewrite Hl'.
  - intros leader. rewrite Htr, captures_app. specialize (Hd leader).
    destruct (decide (E_do_checkpoint_process leader ∈ evs)) as [Hin|Hnin].
    + destruct (Hnew _ Hin) as (-> & Hl & Hl' & Hcnt).
      rewrite Hcnt, decide_True by done.
      rewrite captures_none; [lia|].
      intros t Hin'. destruct (Hc _ _ Hin') as (-> & _ & g & Hg & Hac).
      simplify_eq. by rewrite Hl in Hac.
    + rewrite captures_notin by done. lia.
  - intros t g ts Hl Hts Hne Hap.
    destruct (not_group_leader_extends _ _ _ _ _ Hx Hts Hne) as (ts0 & Hts0 & Hne0).
    ksimpl. rewrite Htr. apply elem_of_app.
    destruct (decide (tid = t)) as [<-|Hnet].
    + rewrite lookup_insert_eq in Hl. simplify_eq.
      assert (Hnl : ~ is_group_leader (kern c) (f_p f)).
      { intros (ts1 & Hts1 & Hgl1). by simplify_eq. }
      destruct (f_pc f) eqn:Hl'; try done;
        repeat match goal with
               | H : _ /\ _ |- _ => destruct H
               | H : _ \/ _ |- _ => destruct H
               | H : exists _, _ |- _ => destruct H
               | H : f_pc g = _ |- _ => rewrite H in Hap
               end; try done;
        try (left; eapply He; [exact Hf|exact Hts0|done|by rewrite Hl']).
      * ksimpl. case_decide; done.
      * right. subst evs. apply elem_of_tagged. split; [done|by left].
      * exfalso. apply Hnl, (Hb _ _ Hf). by rewrite Hl'.
    + rewrite lookup_insert_ne in Hl by done. left. by eapply He.
Qed.

(** Every action other than entering [checkpoint_thread] again keeps
    the invariant. *)
Lemma attempt_inv_step a c c' :
  attempt_inv c -> no_call [a] = true -> step E a c = Some c' -> attempt_inv c'.
Proof.
  intros Hinv Hnc Hstep. destruct a as [|tid p|tid|tid p]; simpl in Hstep.
  - simplify_eq. by apply attempt_inv_tick.
  - done.
  - destruct (frames c !! tid) as [f|] eqn:Hf; [|done].
    destruct (checkpoint_thread_step E f (set_current tid (kern c)))
      as [[f' k']|] eqn:Hs; [|done].
    simplify_eq. by eapply attempt_inv_run.
  - destruct (idle c tid); [|done].
    destruct (sys_checkpoint_process E p (set_current tid (kern c)))
      as [[r k']|] eqn:Hs; [|done].
    simplify_eq.
    destruct (safe_sys_checkpoint_process E _ _ _ _ Hs) as (evs & Hx & Hq).
    by eapply attempt_inv_kernel.
Qed.

Lemma attempt_inv_run_all s : forall c c',
  attempt_inv c -> no_call s = true -> run E s c = Some c' -> attempt_inv c'.
Proof.
  induction s as [|a s IH]; intros c c' Hinv Hnc Hrun; simpl in Hrun.
  - by simplify_eq.
  - destruct (step E a c) as [c1|] eqn:Hs; [|done].
    simpl in Hnc. apply andb_prop in Hnc as [Ha Hs'].
    eapply IH; [|exact Hs'|exact Hrun].
    eapply attempt_inv_step; [exact Hinv| |exact Hs]. simpl. by rewrite Ha.
Qed.

End attempt.

(** C1: in one attempt (every participating thread runs
    [checkpoint_thread(current)] once, under any interleaving with timer
    ticks and dispatcher calls) [do_checkpoint_process] is called at most
    once per leader; every call is made by a thread on itself that is its
    own [group_leader] (the leader branch); and a thread that is not its
    own group leader and has returned has called [schedule()] and made no
    capture call. *)
Theorem C1_capture_at_most_once_on_leader_branch E c0 s c :
  fresh_attempt c0 ->
  no_call s = true ->
  run E s c0 = Some c ->
  (forall leader, (captures leader (trace (kern c)) <= 1)%nat)
  /\ (forall tid p, (tid, E_do_checkpoint_process p) ∈ trace (kern c) ->
        p = tid /\ is_group_leader (kern c) tid)
  /\ (forall tid f ts r,
        frames c !! tid = Some f -> f_pc f = L_returned r ->
        tasks (kern c) !! tid = Some ts -> group_leader ts <> tid ->
        (tid, E_schedule) ∈ trace (kern c)
        /\ forall p, (tid, E_do_checkpoint_process p) ∉ trace (kern c)).
Proof.
  intros Hfresh Hnc Hrun.
  assert (Hinv : attempt_inv c).
  { eapply attempt_inv_run_all; [|exact Hnc|exact Hrun]. by apply fresh_attempt_inv. }
  destruct Hinv as [Ha Hb Hc Hd He]. split; [exact Hd|]. split.
  - intros tid p Hin. destruct (Hc _ _ Hin) as (-> & Hgl & _). done.
  - intros tid f ts r Hf Hpc Hts Hne. split.
    + eapply He; [exact Hf|exact Hts|exact Hne|by rewrite Hpc].
    + intros p Hin. destruct (Hc _ _ Hin) as (_ & (ts' & Hts' & Hgl) & _).
      by simplify_eq.
Qed.

Lemma demo_rendezvous_run : run demo_E demo_rendezvous demo_start = Some demo_end.
Proof. by vm_compute. Qed.

Lemma C1_witness :
  fresh_attempt demo_start
  /\ no_call demo_rendezvous = true
  /\ run demo_E demo_rendezvous demo_start = Some demo_end
  /\ captures 10 (trace (kern demo_end)) = 1%nat
  /\ (forall leader, (captures leader (trace (kern demo_end)) <= 1)%nat).
Proof.
  assert (H1 : fresh_attempt demo_start).
  { apply (bool_decide_unpack _). by vm_compute. }
  assert (H2 : no_call demo_rendezvous = true) by reflexivity.
  split; [exact H1|]. split; [exact H2|]. split; [exact demo_rendezvous_run|].
  split; [by vm_compute|].
  exact (proj1 (C1_capture_at_most_once_on_leader_branch
                  demo_E demo_start demo_rendezvous demo_end
                  H1 H2 demo_rendezvous_run)).
Defined.

(** *** Arrivals are counted once *)

Lemma increments_app tid tr1 tr2 :
  increments tid (tr1 ++ tr2) = (increments tid tr1 + increments tid tr2)%nat.
Proof. unfold increments. by rewrite filter_app, length_app. Qed.

Lemma increments_other tid cur evs :
  tid <> cur -> increments tid (tagged cur evs) = 0%nat.
Proof.
  intros Hne. unfold increments, tagged. induction evs as [|e evs IH]; [done|].
  rewrite fmap_cons, filter_cons. destruct (decide _) as [[Heq _]|]; [|exact IH].
  simpl in Heq. congruence.
Qed.

Lemma increments_none tid cur evs :
  Forall (fun e => is_atomic_inc e = false) evs ->
  increments tid (tagged cur evs) = 0%nat.
Proof.
  unfold increments, tagged. induction 1 as [|e evs He _ IH]; [done|].
  rewrite fmap_cons, filter_cons. destruct (decide _) as [[_ Heq]|]; [|exact IH].
  simpl in Heq. congruence.
Qed.

Lemma quiet_not_atomic_inc evs :
  Forall quiet evs -> Forall (fun e => is_atomic_inc e = false) evs.
Proof. intros H. eapply Forall_impl; [exact H|]. intros e He. by destruct e. Qed.

Section arrivals.

Context (E : externals).

Lemma fresh_arrivals_inv c : fresh_attempt c -> arrivals_inv c.
Proof.
  intros [Hf Hq] tid f Hl. destruct (Hf _ _ Hl) as [_ ->]. simpl.
  unfold increments. induction Hq as [|[t e] tr He _ IH]; [done|].
  rewrite filter_cons. destruct (decide _) as [[_ Heq]|]; [|exact IH].
  simpl in *. by destruct e.
Qed.

Lemma arrivals_inv_step a c c' :
  arrivals_inv c -> no_call [a] = true -> step E a c = Some c' -> arrivals_inv c'.
Proof.
  intros Hinv Hnc Hstep. destruct a as [|tid p|tid|tid p]; simpl in Hstep.
  - injection Hstep as <-. exact Hinv.
  - done.
  - destruct (frames c !! tid) as [f|] eqn:Hf; [|done].
    destruct (checkpoint_thread_step E f (set_current tid (kern c)))
      as [[f' k']|] eqn:Hs; [|done].
    injection Hstep as <-.
    destruct (checkpoint_thread_step_spec E _ _ _ _ Hs) as (_ & evs & Hx & Hpc).
    destruct Hx as (_ & _ & _ & _ & _ & _ & Htr). ksimpl.
    intros t g Hg. ksimpl. rewrite Htr, increments_app.
    destruct (decide (tid = t)) as [<-|Hne].
    + rewrite lookup_insert_eq in Hg. injection Hg as <-.
      rewrite (Hinv _ _ Hf).
      destruct (f_pc f) eqn:Hl; try done;
        repeat match goal with
               | H : _ /\ _ |- _ => destruct H
               | H : _ \/ _ |- _ => destruct H
               | H : exists _, _ |- _ => destruct H
               | H : f_pc f' = _ |- _ => rewrite H
               | H : evs = _ |- _ => rewrite H
               end;
        try (rewrite increments_none by (by apply quiet_not_atomic_inc));
        try (rewrite increments_none by (by repeat constructor));
        try done.
      * unfold increments, tagged. simpl. rewrite filter_cons, decide_True by done.
        by case_decide.
      * rewrite increments_none; [done|]. constructor; [done|].
        by apply quiet_not_atomic_inc.
    + rewrite lookup_insert_ne in Hg by done.
      rewrite increments_other by done. rewrite (Hinv _ _ Hg). lia.
  - destruct (idle c tid); [|done].
    destruct (sys_checkpoint_process E p (set_current tid (kern c)))
      as [[r k']|] eqn:Hs; [|done].
    injection Hstep as <-.
    destruct (safe_sys_checkpoint_process E _ _ _ _ Hs) as (evs & Hx & Hq).
    destruct Hx as (_ & _ & _ & _ & _ & _ & Htr). ksimpl.
    intros t g Hg. ksimpl. rewrite Htr, increments_app.
    rewrite increments_none by (by apply quiet_not_atomic_inc).
    rewrite (Hinv _ _ Hg). lia.
Qed.

(** Throughout an attempt a thread that has passed line 168 (in
    particular one that has returned) has incremented the arrival counter
    exactly once, and a thread that has not reached it has not. *)
Lemma arrival_counted_once s : forall c c',
  arrivals_inv c -> no_call s = true -> run E s c = Some c' -> arrivals_inv c'.
Proof.
  induction s as [|a s IH]; intros c c' Hinv Hnc Hrun; simpl in Hrun.
  - by injection Hrun as <-.
  - destruct (step E a c) as [c1|] eqn:Hs; [|done].
    simpl in Hnc. apply andb_prop in Hnc as [Ha Hs'].
    eapply IH; [|exact Hs'|exact Hrun].
    eapply arrivals_inv_step; [exact Hinv| |exact Hs]. simpl. by rewrite Ha.
Qed.

(** Line 207, reached on the success path (from line 203) and on the
    timeout path (from line 188), sets the counter of [p] to 0. *)
Lemma leader_resets_counter f k ts :
  f_pc f = L207 -> tasks k !! f_p f = Some ts ->
  checkpoint_thread_step E f k
  = Some (goto L210 f,
          add_event (E_atomic_set (f_p f) 0)
            (set_tasks (<[f_p f := with_process_barrier 0 ts]> (tasks k)) k)).
Proof.
  intros Hpc Hts. unfold checkpoint_thread_step, atomic_set. rewrite Hpc.
  by repeat mstep.
Qed.

End arrivals.

(** *** The tunables *)

(** C7 (as amended): the barrier timeout has two build-dependent
    defaults, 5 * MSEC_PER_SEC = 5000 ms when CONFIG_CHECKPOINT_DEBUG is
    defined and 500 ms otherwise; the debug default is the longer one. *)
Theorem C7_debug_default_is_longer :
  checkpoint_barrier_timeout_msec true = 5000
  /\ checkpoint_barrier_timeout_msec false = 500
  /\ checkpoint_barrier_timeout_msec false < checkpoint_barrier_timeout_msec true.
Proof. by vm_compute. Qed.

(** C7 as stated fails: the debug default is not shorter than the
    non-debug default. *)
Lemma C7_debug_default_not_shorter :
  ~ (checkpoint_barrier_timeout_msec true < checkpoint_barrier_timeout_msec false).
Proof. by vm_compute. Qed.

(** *** The dispatcher and the system call *)

Lemma elem_of_concat_fmap {A B} (f : A -> list B) (l : list A) (b : B) :
  b ∈ concat (f <$> l) <-> exists a, a ∈ l /\ b ∈ f a.
Proof.
  induction l as [|a l IH]; simpl.
  - split; [by intros ?%not_elem_of_nil|by intros (? & ?%not_elem_of_nil & _)].
  - rewrite elem_of_app, IH. split.
    + intros [Hb|(a' & Ha' & Hb)]; [exists a; split; [by left|done]|].
      exists a'. split; [by right|done].
    + intros (a' & Ha' & Hb). apply elem_of_cons in Ha' as [->|Ha']; [by left|].
      right. eauto.
Qed.

Lemma dispatch_events_wake E k l t :
  Forall (fun t => is_Some (tasks k !! t)) l -> t ∈ l ->
  exists w, E_wake_up_state t (TASK_ALL E) w ∈ concat (dispatch_events E k <$> l).
Proof.
  intros Hlive Hin. rewrite Forall_forall in Hlive.
  destruct (Hlive _ Hin) as [ts Hts].
  destruct (try_to_wake_up E (state ts) (TASK_ALL E)) as [st'|] eqn:Hw.
  - exists true. apply elem_of_concat_fmap. exists t. split; [done|].
    unfold dispatch_events. rewrite Hts, Hw. elem_here.
  - exists false. apply elem_of_concat_fmap. exists t. split; [done|].
    unfold dispatch_events. rewrite Hts, Hw. elem_here.
Qed.

Lemma dispatch_events_kick E k l t :
  E_kick_process t ∈ concat (dispatch_events E k <$> l)
  <-> E_wake_up_state t (TASK_ALL E) false ∈ concat (dispatch_events E k <$> l).
Proof.
  rewrite !elem_of_concat_fmap.
  split; intros (u & Hu & Hin); exists u; (split; [done|]);
    unfold dispatch_events in *.
  - destruct (tasks k !! u) as [ts|]; [|by apply not_elem_of_nil in Hin].
    destruct (try_to_wake_up E (state ts) (TASK_ALL E)); elem_cases Hin.
    simplify_eq. elem_here.
  - destruct (tasks k !! u) as [ts|]; [|by apply not_elem_of_nil in Hin].
    destruct (try_to_wake_up E (state ts) (TASK_ALL E)); elem_cases Hin.
    simplify_eq. elem_here.
Qed.

(** C8: on a well-formed thread group the dispatcher returns 0 and,
    between taking and releasing the thread-list lock, does for each
    thread of the group in list order: the debug line, the setting of
    TIF_NEED_CHECKPOINT, an any-state wake attempt, and [kick_process]
    exactly when that attempt returned false. *)
Theorem C8_dispatcher_marks_wakes_and_kicks E p l k :
  wf_group k p l ->
  exists k',
    checkpoint_process E p k = Some (0, k')
    /\ new_events k k' =
         tagged (current k)
           ([E_spin_lock_irqsave] ++ concat (dispatch_events E k <$> l)
            ++ [E_spin_unlock_irqrestore])
    /\ (forall t, t ∈ l ->
          exists ts, tasks k' !! t = Some ts /\ TIF_NEED_CHECKPOINT ts = true)
    /\ (forall t, t ∈ l ->
          exists w, (current k, E_wake_up_state t (TASK_ALL E) w) ∈ new_events k k')
    /\ (forall t,
          (current k, E_kick_process t) ∈ new_events k k'
          <-> (current k, E_wake_up_state t (TASK_ALL E) false) ∈ new_events k k').
Proof.
  intros Hwf. destruct (checkpoint_process_ok E p l k Hwf)
    as (k' & Hrun & Htr & _ & _ & _ & Hset & _ & _).
  destruct Hwf as (_ & _ & Hlive).
  exists k'. split; [done|]. apply new_events_app in Htr. rewrite Htr.
  split; [done|]. split; [done|]. split.
  - intros t Hin. destruct (dispatch_events_wake E k l t Hlive Hin) as [w Hw].
    exists w. apply elem_of_tagged. split; [done|].
    rewrite !elem_of_app. auto.
  - intros t. rewrite !elem_of_tagged.
    pose proof (dispatch_events_kick E k l t) as Hk.
    split; intros [_ Hin]; (split; [done|]);
      rewrite !elem_of_app, !list_elem_of_singleton in Hin |- *;
      destruct Hin as [Hin|[Hin|Hin]]; try done; right; left; by apply Hk.
Qed.

Lemma C8_witness :
  wf_group demo_idle 10 [10; 11]
  /\ exists k',
    checkpoint_process demo_E 10 demo_idle = Some (0, k')
    /\ new_events demo_idle k' =
         tagged 0 [E_spin_lock_irqsave;
                   E_debug_set_need_checkpoint 10 10;
                   E_wake_up_state 10 4111 false; E_kick_process 10;
                   E_debug_set_need_checkpoint 11 10;
                   E_wake_up_state 11 4111 true;
                   E_spin_unlock_irqrestore].
Proof.
  assert (Hwf : wf_group demo_idle 10 [10; 11]).
  { apply (bool_decide_unpack _). by vm_compute. }
  split; [exact Hwf|].
  destruct (C8_dispatcher_marks_wakes_and_kicks demo_E 10 [10; 11] demo_idle Hwf)
    as (k' & Hrun & Hev & _).
  exists k'. split; [exact Hrun|]. rewrite Hev. by vm_compute.
Defined.

(** C10: at line 165, with TIF_NEED_CHECKPOINT set on [p] the
    assertion does not fire and execution continues at line 167 with the
    kernel unchanged; this is the case for every thread of a group the
    dispatcher has just marked.  With the flag clear the thread hits
    [BUG()] and never executes another statement of the function. *)
Theorem C10_need_checkpoint_is_asserted E f k ts :
  f_pc f = L165 ->
  tasks k !! f_p f = Some ts ->
  (TIF_NEED_CHECKPOINT ts = true ->
     checkpoint_thread_step E f k = Some (goto L167 f, k))
  /\ (TIF_NEED_CHECKPOINT ts = false ->
        checkpoint_thread_step E f k = Some (goto L_BUG f, add_event E_BUG k)
        /\ forall k', checkpoint_thread_step E (goto L_BUG f) k' = None)
  /\ (forall p l k0,
        wf_group k0 p l -> f_p f ∈ l -> checkpoint_process E p k0 = Some (0, k) ->
        checkpoint_thread_step E f k = Some (goto L167 f, k)).
Proof.
  intros Hpc Hts.
  assert (Hset : TIF_NEED_CHECKPOINT ts = true ->
                 checkpoint_thread_step E f k = Some (goto L167 f, k)).
  { intros Hflag. unfold checkpoint_thread_step, test_tsk_need_checkpoint.
    rewrite Hpc. repeat mstep. by rewrite Hflag. }
  split; [exact Hset|]. split.
  - intros Hflag. split; [|done].
    unfold checkpoint_thread_step, test_tsk_need_checkpoint.
    rewrite Hpc. repeat mstep. rewrite Hflag. by repeat mstep.
  - intros p l k0 Hwf Hin Hrun. apply Hset.
    destruct (checkpoint_process_ok E p l k0 Hwf) as (k1 & Hrun1 & _ & _ & _ & _ & Hmark & _).
    rewrite Hrun1 in Hrun. simplify_eq.
    destruct (Hmark _ Hin) as (ts' & Hts' & Hflag). by simplify_eq.
Qed.

Lemma C10_witness :
  tasks demo_kernel !! 11 = Some (task0 11 10 0 true)
  /\ checkpoint_thread_step demo_E (mk_frame 11 L165 0 0 0) demo_kernel
     = Some (mk_frame 11 L167 0 0 0, demo_kernel)
  /\ checkpoint_thread_step demo_E (mk_frame 11 L165 0 0 0) demo_idle
     = Some (mk_frame 11 L_BUG 0 0 0, add_event E_BUG demo_idle).
Proof.
  assert (H1 : tasks demo_kernel !! 11 = Some (task0 11 10 0 true)) by reflexivity.
  assert (H2 : tasks demo_idle !! 11 = Some (task0 11 10 1 false)) by reflexivity.
  split; [exact H1|]. split.
  - exact (proj1 (C10_need_checkpoint_is_asserted demo_E (mk_frame 11 L165 0 0 0)
                    demo_kernel _ eq_refl H1) eq_refl).
  - exact (proj1 (proj1 (proj2 (C10_need_checkpoint_is_asserted demo_E
                    (mk_frame 11 L165 0 0 0) demo_idle _ eq_refl H2)) eq_refl)).
Defined.

(** *** The saved run state *)

Lemma returns_ret {A} (Q : A -> Prop) a : Q a -> returns Q (ret a).
Proof. intros HQ k b k' H. apply ret_inv in H as [-> _]. done. Qed.

Lemma returns_fault {A} (Q : A -> Prop) : returns Q fault.
Proof. intros k b k' H. done. Qed.

Lemma returns_bind {A B} (Q : B -> Prop) (m : M A) (f : A -> M B) :
  (forall a, returns Q (f a)) -> returns Q (bind m f).
Proof.
  intros Hf k b k' H. apply bind_inv in H as (a & k1 & _ & H2). by eapply Hf.
Qed.

Section round_trip.

Context (E : externals).

Lemma checkpoint_thread_step_locals f :
  f_pc f <> L162 ->
  returns (fun f' => f_saved_state f' = f_saved_state f /\ f_p f' = f_p f
                     /\ f_pc f' <> L162)
          (checkpoint_thread_step E f).
Proof.
  intros Hpc. unfold checkpoint_thread_step.
  destruct (f_pc f); try done;
    repeat first
      [ apply returns_fault
      | apply returns_ret; simpl; try case_decide; done
      | apply returns_bind; intros
      | match goal with
        | |- returns _ (if ?b then _ else _) => destruct b
        end ].
Qed.

Lemma step_live a c c' t :
  step E a c = Some c' ->
  is_Some (tasks (kern c') !! t) <-> is_Some (tasks (kern c) !! t).
Proof.
  intros Hstep. destruct a as [|tid p|tid|tid p]; simpl in Hstep.
  - by simplify_eq.
  - destruct (idle c tid); by simplify_eq.
  - destruct (frames c !! tid) as [f|]; [|done].
    destruct (checkpoint_thread_step E f (set_current tid (kern c)))
      as [[f' k']|] eqn:Hs; [|done].
    simplify_eq.
    destruct (checkpoint_thread_step_spec E _ _ _ _ Hs) as (_ & evs & Hx & _).
    apply (extends_live _ _ _ t Hx).
  - destruct (idle c tid); [|done].
    destruct (sys_checkpoint_process E p (set_current tid (kern c)))
      as [[r k']|] eqn:Hs; [|done].
    simplify_eq.
    destruct (safe_sys_checkpoint_process E _ _ _ _ Hs) as (evs & Hx & _).
    apply (extends_live _ _ _ t Hx).
Qed.

Lemma saved_inv_step tid s0 a c c' :
  saved_inv tid s0 c -> no_call_by tid [a] = true -> step E a c = Some c' ->
  saved_inv tid s0 c'.
Proof.
  intros (f & Hf & Hp & Hs & Hpc & Hlive) Hnc Hstep.
  assert (Hlive' : is_Some (tasks (kern c') !! tid)) by by eapply step_live.
  destruct a as [|t p|t|t p]; simpl in Hstep.
  - injection Hstep as <-. by exists f.
  - destruct (idle c t); [|done]. injection Hstep as <-. exists f. simpl in *.
    rewrite lookup_insert_ne; [done|]. intros ->. rewrite Z.eqb_refl in Hnc. done.
  - destruct (frames c !! t) as [g|] eqn:Hg; [|done].
    destruct (checkpoint_thread_step E g (set_current t (kern c)))
      as [[g' k']|] eqn:Hstep'; [|done].
    injection Hstep as <-. simpl in *. destruct (decide (t = tid)) as [->|Hne].
    + rewrite Hf in Hg. injection Hg as <-.
      exists g'. simpl. rewrite lookup_insert_eq. split; [done|].
      destruct (checkpoint_thread_step_locals _ Hpc _ _ _ Hstep') as (-> & -> & ?).
      done.
    + exists f. simpl. by rewrite lookup_insert_ne.
  - destruct (idle c t); [|done].
    destruct (sys_checkpoint_process E p (set_current t (kern c)))
      as [[r k']|]; [|done].
    injection Hstep as <-. by exists f.
Qed.

Lemma saved_inv_run tid s0 s : forall c c',
  saved_inv tid s0 c -> no_call_by tid s = true -> run E s c = Some c' ->
  saved_inv tid s0 c'.
Proof.
  induction s as [|a s IH]; intros c c' Hinv Hnc Hrun; simpl in Hrun.
  - by simplify_eq.
  - destruct (step E a c) as [c1|] eqn:Hs; [|done].
    simpl in Hnc. apply andb_prop in Hnc as [Ha Hs'].
    eapply IH; [|exact Hs'|exact Hrun].
    eapply saved_inv_step; [exact Hinv| |exact Hs]. simpl. by rewrite Ha.
Qed.

(** Line 162 saves the state [p] has at that moment. *)
Lemma step_L162 c tid f ts c' :
  frames c !! tid = Some f -> f_pc f = L162 -> f_p f = tid ->
  tasks (kern c) !! tid = Some ts ->
  step E (Run tid) c = Some c' ->
  saved_inv tid (state ts) c'.
Proof.
  intros Hf Hpc Hp Hts Hstep. simpl in Hstep. rewrite Hf in Hstep.
  unfold checkpoint_thread_step in Hstep. rewrite Hpc, Hp in Hstep.
  erewrite bind_read_task in Hstep by (ksimpl; exact Hts).
  rewrite bind_emit in Hstep. unfold ret in Hstep. simplify_eq.
  eexists. simpl. rewrite lookup_insert_eq. split; [done|]. simpl.
  split_and!; done.
Qed.

(** Lines 175, 210 and 211, executed without interruption by a thread
    on itself. *)
Lemma steps_L175_return c tid f ts :
  frames c !! tid = Some f -> f_pc f = L175 -> f_p f = tid ->
  tasks (kern c) !! tid = Some ts ->
  exists c' f' ts',
    run E [Run tid; Run tid; Run tid] c = Some c'
    /\ frames c' !! tid = Some f' /\ f_pc f' = L_returned 0
    /\ tasks (kern c') !! tid = Some ts'
    /\ state ts' = f_saved_state f
    /\ TIF_NEED_CHECKPOINT ts' = false.
Proof.
  intros Hf Hpc Hp Hts. simpl. rewrite Hf.
  unfold checkpoint_thread_step at 1. rewrite Hpc.
  unfold set_current_state. repeat mstep. ksimpl. simpl.
  rewrite lookup_insert_eq. unfold checkpoint_thread_step at 1. simpl.
  rewrite Hp. repeat mstep. ksimpl. simpl.
  rewrite lookup_insert_eq. unfold checkpoint_thread_step at 1. simpl.
  unfold ret. eexists _, _, _. split; [reflexivity|]. simpl.
  rewrite lookup_insert_eq. split; [done|]. split; [done|].
  rewrite lookup_insert_eq. split; [done|]. done.
Qed.

End round_trip.

(** C5: a thread enters [checkpoint_thread(current)] with run state
    [state ts0]; whatever the other threads, the timer and the dispatcher
    do in between, once it has been released and stands at line 175 it
    returns (lines 175, 210, 211) with return value 0 and its run state
    is again [state ts0]. *)
Theorem C5_run_state_round_trip E c0 tid f0 ts0 c1 s c2 f2 :
  frames c0 !! tid = Some f0 -> f_pc f0 = L162 -> f_p f0 = tid ->
  tasks (kern c0) !! tid = Some ts0 ->
  step E (Run tid) c0 = Some c1 ->
  no_call_by tid s = true ->
  run E s c1 = Some c2 ->
  frames c2 !! tid = Some f2 -> f_pc f2 = L175 ->
  exists c3 f3 ts3,
    run E [Run tid; Run tid; Run tid] c2 = Some c3
    /\ frames c3 !! tid = Some f3 /\ f_pc f3 = L_returned 0
    /\ tasks (kern c3) !! tid = Some ts3
    /\ state ts3 = state ts0.
Proof.
  intros Hf0 Hpc0 Hp0 Hts0 Hstep Hnc Hrun Hf2 Hpc2.
  pose proof (step_L162 E _ _ _ _ _ Hf0 Hpc0 Hp0 Hts0 Hstep) as Hinv.
  pose proof (saved_inv_run E _ _ _ _ _ Hinv Hnc Hrun) as (f & Hf & Hp & Hs & _ & [ts2 Hts2]).
  rewrite Hf2 in Hf. injection Hf as <-.
  destruct (steps_L175_return E c2 tid f2 ts2 Hf2 Hpc2 Hp Hts2)
    as (c3 & f3 & ts3 & Hr & Hf3 & Hpc3 & Hts3 & Hst & _).
  exists c3, f3, ts3. split_and!; try done. congruence.
Qed.

Lemma C5_witness :
  exists c3 f3 ts3,
    run demo_E [Run 11; Run 11; Run 11] demo_released_1 = Some c3
    /\ frames c3 !! 11 = Some f3 /\ f_pc f3 = L_returned 0
    /\ tasks (kern c3) !! 11 = Some ts3
    /\ state ts3 = 1.
Proof.
  refine (C5_run_state_round_trip demo_E demo_start_1 11 (mk_frame 11 L162 0 0 0)
            (task0 11 10 1 true) demo_entered_1 demo_until_released demo_released_1
            (mk_frame 11 L175 1 10 0) _ _ _ _ _ _ _ _ _); by vm_compute.
Defined.

(** *** The orchestrator *)

Lemma log_nil k : log [] k = k.
Proof. destruct k. unfold log, tagged. simpl. by rewrite app_nil_r. Qed.

Lemma log_log evs1 evs2 k : log evs2 (log evs1 k) = log (evs1 ++ evs2) k.
Proof. unfold log. simpl. by rewrite tagged_app, app_assoc. Qed.

Lemma add_event_log e k : add_event e k = log [e] k.
Proof. reflexivity. Qed.

Lemma log_set_heap evs h k : log evs (set_heap h k) = set_heap h (log evs k).
Proof. reflexivity. Qed.

Lemma set_heap_set_heap h1 h2 k : set_heap h1 (set_heap h2 k) = set_heap h1 k.
Proof. reflexivity. Qed.

Lemma heap_set_heap h k : heap (set_heap h k) = h.
Proof. reflexivity. Qed.

Lemma heap_log evs k : heap (log evs k) = heap k.
Proof. reflexivity. Qed.

(** Bring a kernel term to the form [set_heap h (log evs k)]. *)
Ltac knorm :=
  rewrite ?add_event_log, ?log_set_heap, ?log_log, ?set_heap_set_heap,
    ?heap_set_heap, ?heap_log.

Lemma bind_kfree {B} a (f : unit -> M B) k arr :
  heap k !! a = Some arr ->
  bind (kfree a) f k = f tt (add_event (E_kfree a) (set_heap (delete a (heap k)) k)).
Proof. intros H. unfold bind, kfree. by rewrite H. Qed.

Section orchestrator.

Context (E : externals).

Lemma bind_kmalloc {B} size (f : option Z -> M B) k a :
  kmalloc_addr E k size = Some a ->
  bind (kmalloc E size) f k =
  f (Some a)
    (add_event (E_kmalloc size (Some a))
       (set_heap (<[a := replicate (Z.to_nat (size `div` sizeof_ss_task E))
                                   (mk_ss_task None None)]> (heap k)) k)).
Proof. intros H. unfold bind, kmalloc. by rewrite H. Qed.

Lemma paranoid_state_check_loop leader (l : list Z) : forall k,
  Forall (fun t => is_Some (tasks k !! t)) l ->
  exists evs,
    iterate l (paranoid_state_check_body E leader) tt k = Some (tt, log evs k)
    /\ Forall paranoid_event evs.
Proof.
  induction l as [|t l IH]; intros k Hlive.
  - exists []. rewrite iterate_nil, log_nil. done.
  - apply Forall_cons in Hlive as [[ts Hts] Hlive].
    rewrite iterate_cons. unfold paranoid_state_check_body at 1.
    destruct (decide (leader = t)).
    { rewrite bind_ret. apply IH, Hlive. }
    repeat mstep. destruct (decide (state ts = TASK_CHECKPOINTING E)).
    { rewrite bind_ret. apply IH, Hlive. }
    rewrite bind_emit, add_event_log.
    destruct (IH (log [E_pr_info_bug (state ts) (pid ts)] k) Hlive) as (evs & Hrun & Hev).
    rewrite Hrun, log_log. eexists. split; [done|]. by constructor.
Qed.

Lemma paranoid_state_check_ok leader l k :
  wf_group k leader l ->
  exists evs,
    paranoid_state_check E leader k = Some (tt, log evs k)
    /\ Forall paranoid_event evs.
Proof.
  intros (Hl & _ & Hlive). unfold paranoid_state_check.
  destruct (CONFIG_CHECKPOINT_DEBUG E).
  - rewrite bind_emit, add_event_log.
    erewrite bind_for_each_thread by exact Hl.
    destruct (paranoid_state_check_loop leader l (log [E_spin_lock_irqsave] k) Hlive)
      as (evs & Hrun & Hev).
    rewrite (bind_some _ _ _ _ _ Hrun). unfold emit.
    rewrite add_event_log, !log_log. eexists. split; [done|].
    apply Forall_app. split; [by constructor|]. apply Forall_app. split; [done|].
    by repeat constructor.
  - exists []. by rewrite log_nil.
Qed.

Lemma count_event_app e tr1 tr2 :
  count_event e (tr1 ++ tr2) = (count_event e tr1 + count_event e tr2)%nat.
Proof. unfold count_event. by rewrite filter_app, length_app. Qed.

Lemma count_event_paranoid e cur evs :
  Forall paranoid_event evs -> ~ paranoid_event e ->
  count_event e (tagged cur evs) = 0%nat.
Proof.
  intros Hev Hne. unfold count_event, tagged.
  induction Hev as [|e' evs He _ IH]; [done|].
  rewrite fmap_cons, filter_cons. destruct (decide _) as [Heq|]; [|exact IH].
  simpl in Heq. by subst e'.
Qed.

(** The path through [revert_files:]. *)
Lemma signal_failure_path leader l k a r :
  wf_group k leader l ->
  (forall k0 size, kmalloc_addr E k0 size = Some a) ->
  (forall k0, fst (save_open_files_res E k0 leader) = 0) ->
  (forall k0, fst (save_signals_res E k0 leader) = r) ->
  r <> 0 ->
  exists pre size,
    __do_checkpoint_process E leader k
    = Some (r, set_heap (delete a (heap k))
                 (log (pre ++ [E_kmalloc size (Some a); E_save_open_files leader 0;
                               E_save_signals leader r; E_revert_save_open_files leader;
                               E_kfree a]) k))
    /\ Forall paranoid_event pre.
Proof.
  intros Hwf Hkm Hfiles Hsig Hr.
  destruct (paranoid_state_check_ok leader l k Hwf) as (pre & Hpre & Hev).
  destruct Hwf as (Hl & _ & _).
  apply group_threads_fields in Hl as (tl & sg & Htl & Hsg & _).
  exists pre, (wrap_ulong (sizeof_ss_task E * nr_threads sg)). split; [|done].
  unfold __do_checkpoint_process, __do_checkpoint_process_frame.
  rewrite !bind_bind, (bind_some _ _ _ _ _ Hpre). repeat mstep.
  cbn [nr_tasks]. erewrite bind_kmalloc by apply Hkm.
  unfold save_open_files. repeat mstep. rewrite Hfiles.
  destruct (decide (0 = 0)); [|done].
  unfold save_signals. repeat mstep. rewrite Hsig.
  destruct (decide (r = 0)); [done|].
  unfold revert_save_open_files. repeat mstep.
  erewrite bind_kfree by (ksimpl; apply lookup_insert_eq).
  rewrite bind_ret. unfold ret. cbn [fst]. f_equal. f_equal.
  knorm. rewrite delete_insert_eq, <- !app_assoc. done.
Qed.

(** The path through [out:] when [save_open_files] fails. *)
Lemma files_failure_path leader l k a r :
  wf_group k leader l ->
  (forall k0 size, kmalloc_addr E k0 size = Some a) ->
  (forall k0, fst (save_open_files_res E k0 leader) = r) ->
  r <> 0 ->
  exists pre size,
    __do_checkpoint_process E leader k
    = Some (r, set_heap (delete a (heap k))
                 (log (pre ++ [E_kmalloc size (Some a); E_save_open_files leader r;
                               E_kfree a]) k))
    /\ Forall paranoid_event pre.
Proof.
  intros Hwf Hkm Hfiles Hr.
  destruct (paranoid_state_check_ok leader l k Hwf) as (pre & Hpre & Hev).
  destruct Hwf as (Hl & _ & _).
  apply group_threads_fields in Hl as (tl & sg & Htl & Hsg & _).
  exists pre, (wrap_ulong (sizeof_ss_task E * nr_threads sg)). split; [|done].
  unfold __do_checkpoint_process, __do_checkpoint_process_frame.
  rewrite !bind_bind, (bind_some _ _ _ _ _ Hpre). repeat mstep.
  cbn [nr_tasks]. erewrite bind_kmalloc by apply Hkm.
  unfold save_open_files. repeat mstep. rewrite Hfiles.
  destruct (decide (r = 0)); [done|]. rewrite !bind_bind.
  erewrite bind_kfree by (ksimpl; apply lookup_insert_eq).
  rewrite bind_ret. unfold ret. cbn [fst]. f_equal. f_equal.
  knorm. rewrite delete_insert_eq, <- !app_assoc. done.
Qed.

(** C2: when kmalloc and [save_open_files] succeed and [save_signals]
    returns [r <> 0], [__do_checkpoint_process] returns [r] after calling
    [revert_save_open_files] exactly once and freeing the fragment array;
    its caller [do_checkpoint_process] receives [r] and nothing else, and
    the heap holds no block at the array's address afterwards. *)
Theorem C2_signal_failure_reverts_files leader l k a r :
  wf_group k leader l ->
  (forall k0 size, kmalloc_addr E k0 size = Some a) ->
  (forall k0, fst (save_open_files_res E k0 leader) = 0) ->
  (forall k0, fst (save_signals_res E k0 leader) = r) ->
  r <> 0 ->
  exists pre size k',
    __do_checkpoint_process E leader k = Some (r, k')
    /\ Forall paranoid_event pre
    /\ new_events k k' =
         tagged (current k)
           (pre ++ [E_kmalloc size (Some a); E_save_open_files leader 0;
                    E_save_signals leader r; E_revert_save_open_files leader;
                    E_kfree a])
    /\ count_event (E_revert_save_open_files leader) (new_events k k') = 1%nat
    /\ count_event (E_kfree a) (new_events k k') = 1%nat
    /\ heap k' = delete a (heap k)
    /\ tasks k' = tasks k
    /\ exists k'', do_checkpoint_process E leader k = Some (r, k'')
                   /\ heap k'' = delete a (heap k).
Proof.
  intros Hwf Hkm Hfiles Hsig Hr.
  destruct (signal_failure_path leader l k a r Hwf Hkm Hfiles Hsig Hr)
    as (pre & size & Hrun & Hev).
  eexists pre, size, _. split; [exact Hrun|]. split; [done|].
  assert (Hnew : new_events k (set_heap (delete a (heap k))
                   (log (pre ++ [E_kmalloc size (Some a); E_save_open_files leader 0;
                                 E_save_signals leader r; E_revert_save_open_files leader;
                                 E_kfree a]) k))
                 = tagged (current k)
                     (pre ++ [E_kmalloc size (Some a); E_save_open_files leader 0;
                              E_save_signals leader r; E_revert_save_open_files leader;
                              E_kfree a])).
  { by apply new_events_app. }
  rewrite Hnew. split; [done|]. split; [|split; [|split; [done|split; [done|]]]].
  - rewrite tagged_app, count_event_app.
    rewrite count_event_paranoid; [|done|simpl; tauto].
    unfold count_event, tagged. simpl. rewrite !filter_cons, filter_nil. simpl.
    by rewrite decide_True.
  - rewrite tagged_app, count_event_app.
    rewrite count_event_paranoid; [|done|simpl; tauto].
    unfold count_event, tagged. simpl. rewrite !filter_cons, filter_nil. simpl.
    by rewrite decide_True.
  - assert (Hwf2 : wf_group (add_event E_preempt_disable
                     (add_event (E_do_checkpoint_process leader) k)) leader l) by exact Hwf.
    destruct (signal_failure_path leader l _ a r Hwf2 Hkm Hfiles Hsig Hr)
      as (pre2 & size2 & Hrun2 & _).
    unfold do_checkpoint_process. rewrite !bind_emit.
    rewrite (bind_some _ _ _ _ _ Hrun2). rewrite bind_emit.
    eexists. split; [reflexivity|]. done.
Qed.

End orchestrator.

Lemma C2_witness :
  exists k',
    __do_checkpoint_process (E0 false (Some 7) 0 (-5)) 10 demo_parked = Some (-5, k')
    /\ count_event (E_revert_save_open_files 10) (new_events demo_parked k') = 1%nat
    /\ heap k' = delete 7 (heap demo_parked).
Proof.
  assert (Hwf : wf_group demo_parked 10 [10; 11]).
  { apply (bool_decide_unpack _). by vm_compute. }
  destruct (C2_signal_failure_reverts_files (E0 false (Some 7) 0 (-5)) 10 [10; 11]
              demo_parked 7 (-5) Hwf)
    as (pre & size & k' & Hrun & _ & _ & Hcount & _ & Hheap & _);
    [reflexivity|reflexivity|reflexivity|lia|].
  exists k'. split; [exact Hrun|]. split; [exact Hcount|exact Hheap].
Defined.

(** *** The capture loop *)

Lemma wrap_int_small z : - 2 ^ 31 <= z < 2 ^ 31 -> wrap_int z = z.
Proof. intros H. unfold wrap_int. rewrite Z.mod_small; lia. Qed.

Lemma wrap_ulong_small z : 0 <= z < 2 ^ 64 -> wrap_ulong z = z.
Proof. intros H. unfold wrap_ulong. by rewrite Z.mod_small. Qed.

Lemma bind_modify_ss_task {B} a i g (f : unit -> M B) k arr s :
  heap k !! a = Some arr -> 0 <= i -> arr !! Z.to_nat i = Some s ->
  bind (modify_ss_task a i g) f k
  = f tt (set_heap (<[a := <[Z.to_nat i := g s]> arr]> (heap k)) k).
Proof.
  intros Ha Hi Hs. unfold bind, modify_ss_task. rewrite Ha.
  destruct (decide (0 <= i)); [|done]. by rewrite Hs.
Qed.

Lemma fill_length k regs l : forall n arr, length (fill k regs n l arr) = length arr.
Proof.
  induction l as [|t l IH]; intros n arr; simpl; [done|].
  by rewrite IH, length_insert.
Qed.

Lemma fill_take k regs l : forall n arr,
  (n + length l = length arr)%nat ->
  fill k regs n l arr = take n arr ++ (thread_fragment k regs <$> l).
Proof.
  induction l as [|t l IH]; intros n arr Hlen; simpl in *.
  - rewrite app_nil_r, take_ge; [done|lia].
  - rewrite IH by (rewrite length_insert; lia).
    rewrite (take_S_r _ _ (thread_fragment k regs t))
      by (apply list_lookup_insert_eq; lia).
    rewrite take_insert_ge by lia. by rewrite <- app_assoc.
Qed.

Section capture_loop.

Context (E : externals) (a : Z) (regs : Z -> Z).
Context (Hregs : forall k0 t, save_thread_regs_res E k0 t = regs t).

Lemma save_threads_loop k (l : list Z) : forall n arr K,
  heap K !! a = Some arr ->
  tasks K = tasks k ->
  (n + length l <= length arr)%nat ->
  Z.of_nat (n + length l) < 2 ^ 31 ->
  Forall (fun t => is_Some (tasks k !! t)) l ->
  iterate l (save_threads_body E a) (Z.of_nat n) K
  = Some (Z.of_nat (n + length l),
          set_heap (<[a := fill k regs n l arr]> (heap K)) (log (save_regs_events n l) K)).
Proof.
  induction l as [|t l IH]; intros n arr K Ha Htasks Hlen Hint Hlive.
  - rewrite iterate_nil. simpl. rewrite Nat.add_0_r, log_nil.
    rewrite insert_id by done. by destruct K.
  - apply Forall_cons in Hlive as [[ts Hts] Hlive]. simpl in Hlen, Hint.
    assert (Hslot : is_Some (arr !! n)) by (apply lookup_lt_is_Some; lia).
    destruct Hslot as [s Hs].
    rewrite iterate_cons. unfold save_threads_body at 1, save_thread_regs.
    rewrite !bind_bind. erewrite bind_read_task by (rewrite Htasks; exact Hts).
    repeat mstep.
    erewrite bind_modify_ss_task; [|exact Ha|lia|by rewrite Nat2Z.id].
    repeat mstep.
    erewrite bind_modify_ss_task;
      [|knorm; apply lookup_insert_eq|lia
       |rewrite Nat2Z.id; apply list_lookup_insert_eq; by eapply lookup_lt_Some].
    repeat mstep. rewrite Hregs, Nat2Z.id, list_insert_insert_eq.
    rewrite wrap_int_small by lia.
    replace (Z.of_nat n + 1) with (Z.of_nat (S n)) by lia.
    knorm. rewrite insert_insert_eq.
    erewrite IH; [|knorm; apply lookup_insert_eq|exact Htasks
                  |rewrite length_insert; lia|lia|exact Hlive].
    knorm. rewrite insert_insert_eq. simpl.
    unfold with_ss_regs, with_ss_pid, thread_fragment. simpl. rewrite Hts. simpl.
    repeat f_equal. lia.
Qed.

End capture_loop.

Section snapshot.

Context (E : externals).

(** The path to [return 0]. *)
Lemma success_path leader l k a ff sf regs :
  wf_group k leader l ->
  group_nr_threads k leader = Some (Z.of_nat (length l)) ->
  0 < sizeof_ss_task E ->
  sizeof_ss_task E * Z.of_nat (length l) < 2 ^ 64 ->
  Z.of_nat (length l) < 2 ^ 31 ->
  (forall k0 size, kmalloc_addr E k0 size = Some a) ->
  (forall k0, save_open_files_res E k0 leader = (0, ff)) ->
  (forall k0, save_signals_res E k0 leader = (0, sf)) ->
  (forall k0 t, save_thread_regs_res E k0 t = regs t) ->
  exists pre,
    __do_checkpoint_process_frame E leader k
    = Some ((0, mk_ps (Z.of_nat (length l)) (Some a) (Some ff) (Some sf)),
            set_heap (<[a := thread_fragment k regs <$> l]> (heap k))
              (log (pre ++ [E_kmalloc (sizeof_ss_task E * Z.of_nat (length l)) (Some a);
                            E_save_open_files leader 0; E_save_signals leader 0]
                        ++ save_regs_events 0 l) k))
    /\ Forall paranoid_event pre.
Proof.
  intros Hwf Hnr Hsz Hfit Hint Hkm Hfiles Hsig Hregs.
  destruct (paranoid_state_check_ok E leader l k Hwf) as (pre & Hpre & Hev).
  destruct Hwf as (Hl & _ & Hlive).
  pose proof Hl as Hl'.
  apply group_threads_fields in Hl' as (tl & sg & Htl & Hsg & _).
  unfold group_nr_threads in Hnr. rewrite Htl, Hsg in Hnr. simpl in Hnr.
  injection Hnr as Hnr.
  exists pre. split; [|done].
  unfold __do_checkpoint_process_frame.
  rewrite (bind_some _ _ _ _ _ Hpre). repeat mstep.
  cbn [nr_tasks]. rewrite Hnr. rewrite wrap_ulong_small by lia.
  erewrite bind_kmalloc by apply Hkm.
  replace ((sizeof_ss_task E * Z.of_nat (length l)) `div` sizeof_ss_task E)
    with (Z.of_nat (length l)) by (rewrite Z.mul_comm, Z.div_mul; lia).
  rewrite Nat2Z.id.
  unfold save_open_files. repeat mstep. rewrite Hfiles. cbn [fst snd].
  destruct (decide (0 = 0)); [|done].
  unfold save_signals. repeat mstep. rewrite Hsig. cbn [fst snd].
  destruct (decide (0 = 0)); [|done].
  erewrite bind_for_each_thread by exact Hl.
  erewrite (bind_some (iterate l (save_threads_body E a) 0));
    [|apply (save_threads_loop E a regs Hregs k l 0%nat);
      [knorm; apply lookup_insert_eq|reflexivity
      |rewrite length_replicate; simpl; lia|simpl; lia|exact Hlive]].
  unfold ret. f_equal. f_equal.
  knorm. rewrite insert_insert_eq.
  rewrite fill_take by (rewrite length_replicate; simpl; lia).
  simpl. rewrite <- !app_assoc. done.
Qed.

(** C3 (as amended): on success [__do_checkpoint_process] returns the
    status 0; at its [return] the local snapshot [ps] holds the thread
    count, the array pointer and the file and signal fragments, and the
    array holds one fragment per thread of the group, in thread-list
    order, each with that thread's pid and register fragment.  Only the
    status reaches the caller.  On the two failure paths after kmalloc
    the array is freed and the error is returned. *)
Theorem C3_success_populates_local_snapshot leader l k a ff sf regs :
  wf_group k leader l ->
  group_nr_threads k leader = Some (Z.of_nat (length l)) ->
  0 < sizeof_ss_task E ->
  sizeof_ss_task E * Z.of_nat (length l) < 2 ^ 64 ->
  Z.of_nat (length l) < 2 ^ 31 ->
  (forall k0 size, kmalloc_addr E k0 size = Some a) ->
  (forall k0 t, save_thread_regs_res E k0 t = regs t) ->
  ((forall k0, save_open_files_res E k0 leader = (0, ff)) ->
   (forall k0, save_signals_res E k0 leader = (0, sf)) ->
   exists pre k',
     __do_checkpoint_process_frame E leader k
     = Some ((0, mk_ps (Z.of_nat (length l)) (Some a) (Some ff) (Some sf)), k')
     /\ __do_checkpoint_process E leader k = Some (0, k')
     /\ heap k' = <[a := thread_fragment k regs <$> l]> (heap k)
     /\ (forall i t, l !! i = Some t ->
           exists ts, tasks k !! t = Some ts
             /\ (thread_fragment k regs <$> l) !! i
                = Some (mk_ss_task (Some (pid ts)) (Some (regs t))))
     /\ new_events k k'
        = tagged (current k)
            (pre ++ [E_kmalloc (sizeof_ss_task E * Z.of_nat (length l)) (Some a);
                     E_save_open_files leader 0; E_save_signals leader 0]
                 ++ save_regs_events 0 l)
     /\ Forall paranoid_event pre
     /\ tasks k' = tasks k)
  /\ (forall r, r <> 0 ->
      (forall k0, fst (save_open_files_res E k0 leader) = r) ->
      exists k', __do_checkpoint_process E leader k = Some (r, k')
                 /\ heap k' = delete a (heap k))
  /\ (forall r, r <> 0 ->
      (forall k0, fst (save_open_files_res E k0 leader) = 0) ->
      (forall k0, fst (save_signals_res E k0 leader) = r) ->
      exists k', __do_checkpoint_process E leader k = Some (r, k')
                 /\ heap k' = delete a (heap k)).
Proof.
  intros Hwf Hnr Hsz Hfit Hint Hkm Hregs. split; [|split].
  - intros Hfiles Hsig.
    destruct (success_path leader l k a ff sf regs Hwf Hnr Hsz Hfit Hint Hkm Hfiles Hsig Hregs)
      as (pre & Hrun & Hev).
    eexists pre, _. split; [exact Hrun|]. split.
    { unfold __do_checkpoint_process. by rewrite (bind_some _ _ _ _ _ Hrun). }
    split; [done|]. split.
    { intros i t Hi. destruct Hwf as (_ & _ & Hlive). rewrite Forall_forall in Hlive.
      destruct (Hlive t) as [ts Hts]; [by eapply list_elem_of_lookup_2|].
      exists ts. split; [done|]. rewrite list_lookup_fmap, Hi. simpl.
      unfold thread_fragment. by rewrite Hts. }
    split; [by apply new_events_app|]. done.
  - intros r Hr Hfiles.
    destruct (files_failure_path E leader l k a r Hwf Hkm Hfiles Hr) as (pre & size & Hrun & _).
    eexists. split; [exact Hrun|done].
  - intros r Hr Hfiles Hsig.
    destruct (signal_failure_path E leader l k a r Hwf Hkm Hfiles Hsig Hr)
      as (pre & size & Hrun & _).
    eexists. split; [exact Hrun|done].
Qed.

End snapshot.

Lemma C3_witness :
  exists k',
    __do_checkpoint_process demo_E 10 demo_parked = Some (0, k')
    /\ heap k' = <[7 := [mk_ss_task (Some 10) (Some 1010);
                         mk_ss_task (Some 11) (Some 1011)]]> (heap demo_parked).
Proof.
  assert (Hwf : wf_group demo_parked 10 [10; 11]).
  { apply (bool_decide_unpack _). by vm_compute. }
  destruct (C3_success_populates_local_snapshot demo_E 10 [10; 11] demo_parked 7
              100 200 (fun t => 1000 + t) Hwf)
    as [Hok _]; [reflexivity|reflexivity|reflexivity|reflexivity
                 |reflexivity|reflexivity|].
  destruct Hok as (pre & k' & _ & Hrun & Hheap & _); [reflexivity|reflexivity|].
  exists k'. split; [exact Hrun|exact Hheap].
Defined.

(** C3 as stated fails: after a successful attempt in which both
    threads have returned from [checkpoint_thread], with return value 0
    and nothing else, the fragment array is still allocated and has never
    been passed to [kfree]. *)
Lemma C3_snapshot_neither_returned_nor_freed :
  run demo_E demo_rendezvous demo_start = Some demo_end
  /\ f_pc <$> frames demo_end !! 10 = Some (L_returned 0)
  /\ f_pc <$> frames demo_end !! 11 = Some (L_returned 0)
  /\ (10, E_save_signals 10 0) ∈ trace (kern demo_end)
  /\ heap (kern demo_end) !! 7
     = Some [mk_ss_task (Some 10) (Some 1010); mk_ss_task (Some 11) (Some 1011)]
  /\ count_event (E_kfree 7) (trace (kern demo_end)) = 0%nat
  /\ ~ (heap (kern demo_end) !! 7 = None
        \/ (0 < count_event (E_kfree 7) (trace (kern demo_end)))%nat).
Proof.
  split; [exact demo_rendezvous_run|].
  split; [by vm_compute|]. split; [by vm_compute|].
  split; [apply (bool_decide_unpack _); by vm_compute|].
  split; [by vm_compute|]. split; [by vm_compute|].
  intros [H|H]; vm_compute in H; [done|lia].
Qed.

(** *** The barrier timeout *)

Lemma timeout_events_quiet E k l : forall i, Forall quiet (timeout_events E k i l).
Proof.
  induction l as [|t l IH]; intros i; simpl; [constructor|].
  apply Forall_app. split; [|apply IH].
  destruct (tasks k !! t); by repeat constructor.
Qed.

Lemma timeout_events_ext E k1 k2 l :
  tasks k1 = tasks k2 -> forall i, timeout_events E k1 i l = timeout_events E k2 i l.
Proof.
  intros Heq. induction l as [|t l IH]; intros i; simpl; [done|].
  by rewrite IH, Heq.
Qed.

Lemma timeout_events_wake E k l t :
  Forall (fun t => is_Some (tasks k !! t)) l -> t ∈ l ->
  forall i, exists w, E_wake_up_state t (TASK_ALL E) w ∈ timeout_events E k i l.
Proof.
  induction 1 as [|u l [ts Hts] _ IH]; intros Hin i.
  - by apply not_elem_of_nil in Hin.
  - simpl. rewrite Hts. apply elem_of_cons in Hin as [->|Hin].
    + eexists. elem_here.
    + destruct (IH Hin (wrap_int (i + 1))) as [w Hw]. exists w.
      apply elem_of_app. by right.
Qed.

Section timeout.

Context (E : externals).

Lemma barrier_timeout_wakeup_loop (l : list Z) : forall i k,
  NoDup l ->
  Forall (fun t => is_Some (tasks k !! t)) l ->
  exists i' k',
    iterate l (barrier_timeout_wakeup_body E) i k = Some (i', k')
    /\ trace k' = trace k ++ tagged (current k) (timeout_events E k i l)
    /\ current k' = current k
    /\ signals k' = signals k
    /\ (forall t, t ∉ l -> tasks k' !! t = tasks k !! t)
    /\ (forall t ts, tasks k !! t = Some ts ->
          exists ts', tasks k' !! t = Some ts'
            /\ TIF_NEED_CHECKPOINT ts' = TIF_NEED_CHECKPOINT ts
            /\ process_barrier ts' = process_barrier ts).
Proof.
  induction l as [|t l IH]; intros i k Hnd Hlive.
  - exists i, k. rewrite iterate_nil. unfold tagged. simpl. rewrite app_nil_r.
    split_and!; try done. eauto.
  - apply NoDup_cons in Hnd as [Hnotin Hnd].
    apply Forall_cons in Hlive as [[ts Hts] Hlive].
    set (st' := match try_to_wake_up E (state ts) (TASK_ALL E) with
                | Some s => s | None => state ts end).
    assert (exists k1,
        iterate (t :: l) (barrier_timeout_wakeup_body E) i k
        = iterate l (barrier_timeout_wakeup_body E) (wrap_int (i + 1)) k1
        /\ tasks k1 = <[t := with_state st' ts]> (tasks k)
        /\ trace k1 = trace k ++ tagged (current k) (timeout_events E k i [t])
        /\ current k1 = current k /\ signals k1 = signals k)
      as (k1 & Hrun & Htasks & Htrace & Hcur & Hsig).
    { rewrite iterate_cons. unfold barrier_timeout_wakeup_body at 1. repeat mstep.
      erewrite bind_wake_up_state by mlookup. ksimpl.
      subst st'. simpl. rewrite Hts, app_nil_r.
      destruct (try_to_wake_up E (state ts) (TASK_ALL E)) as [s|] eqn:Hw.
      - eexists. split; [rewrite bind_ret; reflexivity|].
        ksimpl. rewrite <- !app_assoc. done.
      - eexists. split; [rewrite bind_ret; reflexivity|].
        ksimpl. rewrite <- !app_assoc. split_and!; try done.
        rewrite insert_id; [done|]. rewrite Hts. by destruct ts. }
    assert (Hlive1 : Forall (fun u => is_Some (tasks k1 !! u)) l).
    { rewrite Forall_forall in Hlive |- *. intros u Hu. rewrite Htasks.
      destruct (decide (t = u)) as [->|Hne]; [by rewrite lookup_insert_eq|].
      rewrite lookup_insert_ne by done. by apply Hlive. }
    destruct (IH (wrap_int (i + 1)) k1 Hnd Hlive1)
      as (i' & k' & Hk' & Htr' & Hcur' & Hsig' & Hframe & Hkeep).
    exists i', k'. rewrite Hrun. split; [exact Hk'|].
    assert (Hsame : timeout_events E k1 (wrap_int (i + 1)) l
                    = timeout_events E k (wrap_int (i + 1)) l).
    { clear -Htasks Hnotin. generalize (wrap_int (i + 1)).
      induction l as [|u l IHl]; intros j; simpl; [done|].
      apply not_elem_of_cons in Hnotin as [Hne Hnotin].
      rewrite IHl by done. rewrite Htasks, lookup_insert_ne by done. done. }
    split.
    { rewrite Htr', Htrace, Hcur, Hsame. simpl. rewrite Hts.
      rewrite app_nil_r, <- app_assoc, <- tagged_app. done. }
    split; [congruence|]. split; [congruence|]. split.
    + intros u Hu. apply not_elem_of_cons in Hu as [Hne Hu].
      rewrite Hframe by done. rewrite Htasks. by rewrite lookup_insert_ne.
    + intros u us Hus. destruct (decide (t = u)) as [->|Hne].
      * destruct (Hkeep u (with_state st' ts)) as (us' & Hus' & Hf' & Hb').
        { rewrite Htasks. apply lookup_insert_eq. }
        exists us'. rewrite Hts in Hus. injection Hus as <-. done.
      * apply Hkeep. rewrite Htasks. by rewrite lookup_insert_ne.
Qed.

Lemma barrier_timeout_wakeup_ok p l k tp n :
  wf_group k p l ->
  tasks k !! p = Some tp ->
  group_nr_threads k p = Some n ->
  exists k',
    barrier_timeout_wakeup E p k = Some (tt, k')
    /\ trace k' = trace k ++
         tagged (current k)
           ([E_debug_abort (pid tp) n (barrier_timeout_msec k); E_spin_lock_irqsave]
            ++ timeout_events E k 0 l ++ [E_spin_unlock_irqrestore])
    /\ current k' = current k
    /\ signals k' = signals k
    /\ (forall t ts, tasks k !! t = Some ts ->
          exists ts', tasks k' !! t = Some ts'
            /\ TIF_NEED_CHECKPOINT ts' = TIF_NEED_CHECKPOINT ts
            /\ process_barrier ts' = process_barrier ts).
Proof.
  intros (Hl & Hnd & Hlive) Htp Hn.
  unfold group_nr_threads in Hn. rewrite Htp in Hn.
  destruct (signals k !! signal tp) as [sg|] eqn:Hsg; [|done].
  injection Hn as <-.
  destruct (barrier_timeout_wakeup_loop l 0
              (add_event E_spin_lock_irqsave
                 (add_event (E_debug_abort (pid tp) (nr_threads sg) (barrier_timeout_msec k)) k))
              Hnd Hlive)
    as (i' & k1 & Hrun & Htr & Hcur & Hsig & _ & Hkeep).
  exists (add_event E_spin_unlock_irqrestore k1). split.
  { unfold barrier_timeout_wakeup. repeat mstep.
    erewrite bind_for_each_thread by (ksimpl; exact Hl).
    rewrite (bind_some _ _ _ _ _ Hrun). reflexivity. }
  ksimpl. split_and!; try done.
  rewrite Htr, Hcur. ksimpl. rewrite !tagged_app, <- !app_assoc.
  by rewrite (timeout_events_ext E _ k).
Qed.

Lemma step_run tid c f f' k' :
  frames c !! tid = Some f ->
  checkpoint_thread_step E f (set_current tid (kern c)) = Some (f', k') ->
  step E (Run tid) c = Some (mk_config k' (<[tid := f']> (frames c))).
Proof. intros Hf Hs. simpl. by rewrite Hf, Hs. Qed.

Lemma run_cons a s c c1 : step E a c = Some c1 -> run E (a :: s) c = run E s c1.
Proof. intros H. simpl. by rewrite H. Qed.

(** C4 (as amended): a leader that polls the barrier at line 183,
    finds the counter different from [nr_threads] and the timeout
    elapsed, returns 0 in five statements; it makes no capture call, logs
    the abort, and under the thread-list lock logs index, pid, state and
    pending flag of every thread of the group and wakes it with the mask
    TASK_ALL; it then sets the counter to 0 and clears its own
    TIF_NEED_CHECKPOINT.  It changes neither the flag nor the counter of
    any other task; a thread that was parked and is released clears its
    own flag when it returns (lines 175, 210, 211). *)
Theorem C4_timeout_aborts_without_capture c p l f tp n :
  frames c !! p = Some f -> f_p f = p -> f_pc f = L183 ->
  wf_group (kern c) p l ->
  tasks (kern c) !! p = Some tp ->
  group_nr_threads (kern c) p = Some n ->
  process_barrier tp <> n ->
  time_after (jiffies (kern c)) (f_timeout f) = true ->
  exists c' evs,
    run E [Run p; Run p; Run p; Run p; Run p] c = Some c'
    /\ frames c' = <[p := goto (L_returned 0) f]> (frames c)
    /\ trace (kern c') = trace (kern c) ++ tagged p evs
    /\ evs = [E_debug_abort (pid tp) n (barrier_timeout_msec (kern c));
              E_spin_lock_irqsave]
             ++ timeout_events E (kern c) 0 l
             ++ [E_spin_unlock_irqrestore; E_atomic_set p 0]
    /\ Forall quiet evs
    /\ (forall t, t ∈ l -> exists w, E_wake_up_state t (TASK_ALL E) w ∈ evs)
    /\ (exists tp', tasks (kern c') !! p = Some tp'
          /\ process_barrier tp' = 0 /\ TIF_NEED_CHECKPOINT tp' = false)
    /\ (forall t ts, t <> p -> tasks (kern c) !! t = Some ts ->
          exists ts', tasks (kern c') !! t = Some ts'
            /\ TIF_NEED_CHECKPOINT ts' = TIF_NEED_CHECKPOINT ts
            /\ process_barrier ts' = process_barrier ts)
    /\ (forall c1 t g ts,
          frames c1 !! t = Some g -> f_pc g = L175 -> f_p g = t ->
          tasks (kern c1) !! t = Some ts ->
          exists c2 ts2,
            run E [Run t; Run t; Run t] c1 = Some c2
            /\ tasks (kern c2) !! t = Some ts2
            /\ TIF_NEED_CHECKPOINT ts2 = false).
Proof.
  intros Hf Hp Hpc Hwf Htp Hn Hbar Htime.
  set (K := set_current p (kern c)).
  assert (Hsg : exists sg, signals (kern c) !! signal tp = Some sg /\ nr_threads sg = n).
  { unfold group_nr_threads in Hn. rewrite Htp in Hn.
    destruct (signals (kern c) !! signal tp) as [sg|]; [|done].
    injection Hn as <-. eauto. }
  destruct Hsg as (sg & Hsg & Hnr).
  (* line 183 *)
  assert (H1 : checkpoint_thread_step E f K = Some (goto L188 f, K)).
  { unfold checkpoint_thread_step. rewrite Hpc, Hp.
    erewrite bind_read_task by exact Htp. erewrite bind_read_signal by exact Hsg.
    rewrite Hnr. destruct (decide (process_barrier tp = n)); done. }
  (* line 188 and [barrier_timeout_wakeup] *)
  destruct (barrier_timeout_wakeup_ok p l K tp n Hwf Htp Hn)
    as (K1 & Hw & Htr1 & Hcur1 & Hsig1 & Hkeep1).
  assert (H2 : checkpoint_thread_step E (goto L188 f) K = Some (goto L207 f, K1)).
  { unfold checkpoint_thread_step. simpl. rewrite bind_get.
    change (jiffies K) with (jiffies (kern c)). rewrite Htime, Hp.
    by rewrite (bind_some _ _ _ _ _ Hw). }
  destruct (Hkeep1 p tp Htp) as (tp1 & Htp1 & Hflag1 & Hbar1).
  (* line 207 *)
  set (K2 := add_event (E_atomic_set p 0)
               (set_tasks (<[p := with_process_barrier 0 tp1]> (tasks K1)) K1)).
  assert (H3 : checkpoint_thread_step E (goto L207 f) K1 = Some (goto L210 f, K2)).
  { unfold checkpoint_thread_step, atomic_set. simpl. rewrite Hp. by repeat mstep. }
  (* line 210 *)
  set (K3 := set_tasks (<[p := with_need_checkpoint false (with_process_barrier 0 tp1)]>
                          (tasks K2)) K2).
  assert (H4 : checkpoint_thread_step E (goto L210 f) K2 = Some (goto L211 f, K3)).
  { unfold checkpoint_thread_step. simpl. rewrite Hp.
    erewrite bind_modify_task by (subst K2; ksimpl; apply lookup_insert_eq).
    done. }
  (* line 211 *)
  assert (H5 : checkpoint_thread_step E (goto L211 f) K3
               = Some (goto (L_returned 0) f, K3)) by done.
  assert (Hid : forall k0, current k0 = p -> set_current p k0 = k0).
  { intros k0 Hk0. destruct k0. unfold set_current. simpl in *. by rewrite Hk0. }
  assert (HcK1 : set_current p K1 = K1) by (apply Hid; exact Hcur1).
  assert (HcK2 : set_current p K2 = K2) by (apply Hid; exact Hcur1).
  assert (HcK3 : set_current p K3 = K3) by (apply Hid; exact Hcur1).
  exists (mk_config K3 (<[p := goto (L_returned 0) f]> (frames c))),
    ([E_debug_abort (pid tp) n (barrier_timeout_msec (kern c)); E_spin_lock_irqsave]
     ++ timeout_events E (kern c) 0 l
     ++ [E_spin_unlock_irqrestore; E_atomic_set p 0]).
  split.
  { erewrite run_cons by (eapply step_run; [exact Hf|exact H1]).
    erewrite run_cons
      by (eapply step_run; [apply lookup_insert_eq|simpl; exact H2]).
    erewrite run_cons
      by (eapply step_run; [apply lookup_insert_eq|simpl; rewrite HcK1; exact H3]).
    erewrite run_cons
      by (eapply step_run; [apply lookup_insert_eq|simpl; rewrite HcK2; exact H4]).
    erewrite run_cons
      by (eapply step_run; [apply lookup_insert_eq|simpl; rewrite HcK3; exact H5]).
    simpl. by rewrite !insert_insert_eq. }
  split; [done|]. split.
  { subst K3 K2. ksimpl. rewrite Htr1, Hcur1. subst K. ksimpl.
    rewrite (timeout_events_ext E (set_current p (kern c)) (kern c)) by done.
    rewrite <- app_assoc. f_equal. unfold tagged. rewrite !fmap_app. simpl.
    rewrite <- !app_assoc. done. }
  split; [done|].
  split.
  { repeat (apply Forall_app; split); try by repeat constructor.
    apply timeout_events_quiet. }
  split.
  { intros t Hin. destruct Hwf as (_ & _ & Hlive).
    destruct (timeout_events_wake E (kern c) l t Hlive Hin 0) as [w Hw'].
    exists w. rewrite !elem_of_app. right. by left. }
  split.
  { eexists. subst K3. ksimpl. rewrite lookup_insert_eq. done. }
  split.
  { intros t ts Hne Hts. destruct (Hkeep1 t ts Hts) as (ts' & Hts' & Hflag & Hb).
    exists ts'. subst K3 K2. ksimpl. by rewrite !lookup_insert_ne. }
  intros c1 t g ts Hg Hgpc Hgp Hts.
  destruct (steps_L175_return E c1 t g ts Hg Hgpc Hgp Hts)
    as (c2 & g' & ts2 & Hrun & _ & _ & Hts2 & _ & Hflag).
  eauto.
Qed.

End timeout.

Lemma C4_witness :
  exists c',
    run demo_E [Run 10; Run 10; Run 10; Run 10; Run 10] demo_polling = Some c'
    /\ (exists tp', tasks (kern c') !! 10 = Some tp'
          /\ process_barrier tp' = 0 /\ TIF_NEED_CHECKPOINT tp' = false)
    /\ captures 10 (drop (length (trace (kern demo_polling))) (trace (kern c'))) = 0%nat.
Proof.
  assert (Hwf : wf_group (kern demo_polling) 10 [10; 11]).
  { apply (bool_decide_unpack _). by vm_compute. }
  destruct (C4_timeout_aborts_without_capture demo_E demo_polling 10 [10; 11]
              (mk_frame 10 L183 0 10 500) (mk_task 10 10 0 true 10 1 1) 2)
    as (c' & evs & Hrun & _ & Htr & _ & Hq & _ & Htp & _);
    [by vm_compute|reflexivity|reflexivity|exact Hwf|by vm_compute|by vm_compute
    |done|by vm_compute|].
  exists c'. split; [exact Hrun|]. split; [exact Htp|].
  rewrite Htr, drop_app_length. by apply captures_quiet.
Defined.

Lemma demo_stall_run :
  run demo_E demo_stall (mk_config demo_quiet ∅) = Some demo_stalled.
Proof. by vm_compute. Qed.

(** C4 as stated fails in its last clause: after the leader has
    aborted on timeout (no capture, broad wake of both threads, counter
    reset) and returned, and no thread can execute another statement,
    TIF_NEED_CHECKPOINT of the thread that arrived late is still set. *)
Lemma C4_late_thread_keeps_its_flag :
  run demo_E demo_stall (mk_config demo_quiet ∅) = Some demo_stalled
  /\ f_pc <$> frames demo_stalled !! 10 = Some (L_returned 0)
  /\ captures 10 (trace (kern demo_stalled)) = 0%nat
  /\ (10, E_wake_up_state 11 (TASK_ALL demo_E) false) ∈ trace (kern demo_stalled)
  /\ step demo_E (Run 10) demo_stalled = None
  /\ step demo_E (Run 11) demo_stalled = None
  /\ ~ (forall t ts, t ∈ [10; 11] -> tasks (kern demo_stalled) !! t = Some ts ->
          TIF_NEED_CHECKPOINT ts = false).
Proof.
  split; [exact demo_stall_run|].
  split; [by vm_compute|]. split; [by vm_compute|].
  split; [apply (bool_decide_unpack _); by vm_compute|].
  split; [by vm_compute|]. split; [by vm_compute|].
  intros H. specialize (H 11 (mk_task 11 10 4096 true 10 1 0)).
  assert (true = false) as Habs; [|done].
  apply H; [elem_here|by vm_compute].
Qed.

(** C6, evaluated where it fails: the counter is 0 before the attempt;
    the leader times out, resets the counter and returns; thread 11
    arrives late, increments the counter and parks.  No thread can run,
    and the counter is 1.  It is still 1 when the dispatcher starts the
    next attempt, so in that attempt the leader's own arrival makes the
    counter equal [nr_threads] = 2 and the leader leaves the polling loop
    (line 194) although thread 11 has not arrived in this attempt. *)
Theorem C6_counter_stale_after_late_arrival :
  process_barrier <$> tasks demo_quiet !! 10 = Some 0
  /\ run demo_E demo_stall (mk_config demo_quiet ∅) = Some demo_stalled
  /\ f_pc <$> frames demo_stalled !! 10 = Some (L_returned 0)
  /\ (10, E_atomic_set 10 0) ∈ trace (kern demo_stalled)
  /\ f_pc <$> frames demo_stalled !! 11 = Some L172_blocked
  /\ step demo_E (Run 10) demo_stalled = None
  /\ step demo_E (Run 11) demo_stalled = None
  /\ process_barrier <$> tasks (kern demo_stalled) !! 10 = Some 1
  /\ exists c1 c2,
       step demo_E (Syscall 99 10) demo_stalled = Some c1
       /\ process_barrier <$> tasks (kern c1) !! 10 = Some 1
       /\ run demo_E demo_next_attempt demo_stalled = Some c2
       /\ f_pc <$> frames c2 !! 10 = Some L194
       /\ f_pc <$> frames c2 !! 11 = Some L172_blocked
       /\ count_event (E_atomic_inc 10)
            (drop (length (trace (kern demo_stalled))) (trace (kern c2))) = 1%nat.
Proof.
  split; [by vm_compute|]. split; [exact demo_stall_run|].
  split; [by vm_compute|].
  split; [apply (bool_decide_unpack _); by vm_compute|].
  split; [by vm_compute|]. split; [by vm_compute|]. split; [by vm_compute|].
  split; [by vm_compute|].
  destruct (step demo_E (Syscall 99 10) demo_stalled) as [c1|] eqn:H1;
    [|by vm_compute in H1].
  destruct (run demo_E demo_next_attempt demo_stalled) as [c2|] eqn:H2;
    [|by vm_compute in H2].
  exists c1, c2. split; [done|].
  assert (Some c1 = step demo_E (Syscall 99 10) demo_stalled) as Hc1 by done.
  assert (Some c2 = run demo_E demo_next_attempt demo_stalled) as Hc2 by done.
  vm_compute in Hc1. vm_compute in Hc2.
  injection Hc1 as ->. injection Hc2 as ->.
  split; [by vm_compute|]. split; [done|].
  split; [by vm_compute|]. split; by vm_compute.
Qed.

(** *** The capture returns *)

Section capture_returns.

Context (E : externals).

(** The loop of lines 96-100 runs to its end when the array has a slot
    for every thread left, whatever [save_thread_regs] writes. *)
Lemma save_threads_loop_returns a (l : list Z) : forall n K arr,
  heap K !! a = Some arr ->
  (n + length l <= length arr)%nat ->
  Z.of_nat (n + length l) < 2 ^ 31 ->
  Forall (fun t => is_Some (tasks K !! t)) l ->
  exists i K', iterate l (save_threads_body E a) (Z.of_nat n) K = Some (i, K').
Proof.
  induction l as [|t l IH]; intros n K arr Ha Hlen Hint Hlive.
  - rewrite iterate_nil. eauto.
  - apply Forall_cons in Hlive as [[ts Hts] Hlive]. simpl in Hlen, Hint.
    assert (Hslot : is_Some (arr !! n)) by (apply lookup_lt_is_Some; lia).
    destruct Hslot as [s Hs].
    rewrite iterate_cons. unfold save_threads_body at 1, save_thread_regs.
    rewrite !bind_bind. erewrite bind_read_task by exact Hts.
    repeat mstep.
    erewrite bind_modify_ss_task; [|exact Ha|lia|by rewrite Nat2Z.id].
    repeat mstep.
    erewrite bind_modify_ss_task;
      [|knorm; apply lookup_insert_eq|lia
       |rewrite Nat2Z.id; apply list_lookup_insert_eq; by eapply lookup_lt_Some].
    repeat mstep. rewrite Nat2Z.id, list_insert_insert_eq.
    rewrite wrap_int_small by lia.
    replace (Z.of_nat n + 1) with (Z.of_nat (S n)) by lia.
    eapply IH; [knorm; apply lookup_insert_eq|rewrite length_insert; lia|lia|exact Hlive].
Qed.

(** [do_checkpoint_process] returns on a well-formed thread group whose
    [nr_threads] is the length of its thread list, when the size of the
    array fits [unsigned long] and the index fits [int]: whether kmalloc
    gives a block or NULL, and whatever the capture functions return. *)
Lemma do_checkpoint_process_returns leader l k :
  wf_group k leader l ->
  group_nr_threads k leader = Some (Z.of_nat (length l)) ->
  0 < sizeof_ss_task E ->
  sizeof_ss_task E * Z.of_nat (length l) < 2 ^ 64 ->
  Z.of_nat (length l) < 2 ^ 31 ->
  exists r K1, do_checkpoint_process E leader k = Some (r, K1).
Proof.
  intros Hwf Hnr Hsz Hfit Hint.
  assert (Hwf' : wf_group (log [E_do_checkpoint_process leader; E_preempt_disable] k) leader l)
    by exact Hwf.
  destruct (paranoid_state_check_ok E leader l _ Hwf') as (pre & Hpre & _).
  destruct Hwf as (Hl & _ & Hlive).
  pose proof Hl as Hl'.
  apply group_threads_fields in Hl' as (tl & sg & Htl & Hsg & _).
  unfold group_nr_threads in Hnr. rewrite Htl, Hsg in Hnr. simpl in Hnr.
  injection Hnr as Hnr.
  unfold do_checkpoint_process. repeat mstep. rewrite !add_event_log, log_log. simpl app.
  unfold __do_checkpoint_process, __do_checkpoint_process_frame.
  rewrite !bind_bind, (bind_some _ _ _ _ _ Hpre). repeat mstep.
  cbn [nr_tasks]. rewrite Hnr. rewrite wrap_ulong_small by lia.
  set (k1 := log pre _).
  destruct (kmalloc_addr E k1 (sizeof_ss_task E * Z.of_nat (length l))) as [a|] eqn:Hkm.
  2:{ unfold bind at 1, kmalloc. rewrite Hkm. repeat mstep. eauto. }
  erewrite bind_kmalloc by exact Hkm.
  replace ((sizeof_ss_task E * Z.of_nat (length l)) `div` sizeof_ss_task E)
    with (Z.of_nat (length l)) by (rewrite Z.mul_comm, Z.div_mul; lia).
  rewrite Nat2Z.id.
  unfold save_open_files. repeat mstep.
  destruct (save_open_files_res E _ leader) as [rf ff]. cbn [fst snd].
  destruct (decide (rf = 0)).
  2:{ repeat mstep. erewrite bind_kfree by (ksimpl; apply lookup_insert_eq).
      repeat mstep. eauto. }
  unfold save_signals. repeat mstep.
  destruct (save_signals_res E _ leader) as [rs sf]. cbn [fst snd].
  destruct (decide (rs = 0)).
  2:{ unfold revert_save_open_files. repeat mstep.
      erewrite bind_kfree by (ksimpl; apply lookup_insert_eq). repeat mstep. eauto. }
  repeat mstep. erewrite bind_for_each_thread by exact Hl.
  match goal with
  | |- context [bind (iterate l (save_threads_body E a) 0) _ ?K] =>
      destruct (save_threads_loop_returns a l 0%nat K
                  (replicate (length l) (mk_ss_task None None)))
        as (i & K' & Hloop);
        [knorm; apply lookup_insert_eq|rewrite length_replicate; simpl; lia|simpl; lia
        |exact Hlive|]
  end.
  change (Z.of_nat 0) with 0 in Hloop.
  rewrite (bind_some _ _ _ _ _ Hloop). repeat mstep. eauto.
Qed.

End capture_returns.

(** *** Which fields a function writes *)

Section writes_kit.

Context (R : task_struct -> task_struct -> Prop) (P : event -> Prop).
Context (R_refl : forall a, R a a).
Context (R_trans : forall a b c, R a b -> R b c -> R a c).

(** An operation that changes the heap and the trace at most. *)
Lemma writes_heap_log {A} (m : M A) :
  (forall k a k', m k = Some (a, k') ->
     exists h evs, k' = set_heap h (log evs k) /\ Forall P evs) ->
  writes R P m.
Proof.
  intros Hm k a k' Hrun. destruct (Hm _ _ _ Hrun) as (h & evs & -> & Hev).
  ksimpl. split_and!; try done; [|eauto].
  intros t. destruct (tasks k !! t); [apply R_refl|done].
Qed.

Lemma set_heap_log_id k : k = set_heap (heap k) (log [] k).
Proof. destruct k. unfold set_heap, log, tagged. simpl. by rewrite app_nil_r. Qed.

Lemma writes_ret {A} (a : A) : writes R P (ret a).
Proof.
  apply writes_heap_log. intros k a' k' [-> ->]%ret_inv.
  exists (heap k), []. split; [apply set_heap_log_id|constructor].
Qed.

Lemma writes_fault {A} : writes R P (@fault A).
Proof. intros k a k' H. discriminate. Qed.

Lemma writes_get : writes R P get.
Proof.
  apply writes_heap_log. intros k a' k' H. unfold get in H. simplify_eq.
  exists (heap k'), []. split; [apply set_heap_log_id|constructor].
Qed.

Lemma writes_emit e : P e -> writes R P (emit e).
Proof.
  intros He. apply writes_heap_log. intros k a' k' H. unfold emit in H. simplify_eq.
  exists (heap k), [e]. split; [by destruct k|by constructor].
Qed.

Lemma writes_read_task p : writes R P (read_task p).
Proof.
  apply writes_heap_log. intros k a' k' [_ ->]%read_task_inv.
  exists (heap k), []. split; [apply set_heap_log_id|constructor].
Qed.

Lemma writes_read_signal s : writes R P (read_signal s).
Proof.
  apply writes_heap_log. intros k a' k' H. unfold read_signal in H.
  destruct (signals k !! s); simplify_eq.
  exists (heap k'), []. split; [apply set_heap_log_id|constructor].
Qed.

Lemma writes_modify_ss_task a i g : writes R P (modify_ss_task a i g).
Proof.
  apply writes_heap_log. intros k x k' H. unfold modify_ss_task in H.
  destruct (heap k !! a) as [arr|]; [|done].
  destruct (decide (0 <= i)); [|done].
  destruct (arr !! Z.to_nat i); simplify_eq.
  eexists _, []. split; [|constructor]. by rewrite log_nil.
Qed.

Lemma writes_kfree a : P (E_kfree a) -> writes R P (kfree a).
Proof.
  intros He. apply writes_heap_log. intros k x k' H. unfold kfree in H.
  destruct (heap k !! a); simplify_eq.
  eexists _, [E_kfree a]. split; [|by constructor]. by rewrite add_event_log, log_set_heap.
Qed.

Lemma writes_kmalloc E size :
  (forall res, P (E_kmalloc size res)) -> writes R P (kmalloc E size).
Proof.
  intros He. apply writes_heap_log. intros k x k' H. unfold kmalloc in H.
  destruct (kmalloc_addr E k size) as [a|]; simplify_eq.
  - eexists _, [_]. split; [|by constructor]. by rewrite add_event_log, log_set_heap.
  - exists (heap k), [E_kmalloc size None]. split; [by destruct k|by constructor].
Qed.

Lemma writes_modify_task p g : (forall ts, R ts (g ts)) -> writes R P (modify_task p g).
Proof.
  intros Hg k a k' H. unfold modify_task in H.
  destruct (tasks k !! p) as [ts|] eqn:Hp; simplify_eq. ksimpl.
  split_and!; try done.
  - intros t. destruct (decide (p = t)) as [<-|Hne].
    + rewrite lookup_insert_eq, Hp. apply Hg.
    + rewrite lookup_insert_ne by done. destruct (tasks k !! t); [apply R_refl|done].
  - exists []. split; [|constructor]. unfold tagged. simpl. by rewrite app_nil_r.
Qed.

Lemma writes_bind {A B} (m : M A) (f : A -> M B) :
  writes R P m -> (forall a, writes R P (f a)) -> writes R P (bind m f).
Proof.
  intros Hm Hf k b k' H. apply bind_inv in H as (a & k1 & H1 & H2).
  destruct (Hm _ _ _ H1) as (T1 & S1 & H1' & J1 & B1 & C1 & evs1 & Tr1 & Q1).
  destruct (Hf _ _ _ _ H2) as (T2 & S2 & H2' & J2 & B2 & C2 & evs2 & Tr2 & Q2).
  split_and!; try congruence.
  - intros t. specialize (T1 t). specialize (T2 t).
    destruct (tasks k !! t), (tasks k1 !! t), (tasks k' !! t); try done.
    by eapply R_trans.
  - exists (evs1 ++ evs2). split; [|by apply Forall_app].
    rewrite Tr2, Tr1, C1, tagged_app. by rewrite app_assoc.
Qed.

Lemma writes_iterate {S} l (body : Z -> S -> M S) :
  (forall t s, writes R P (body t s)) -> forall s, writes R P (iterate l body s).
Proof.
  intros Hb. induction l as [|t l IH]; intros s; simpl.
  - apply writes_ret.
  - apply writes_bind; [apply Hb|apply IH].
Qed.

Lemma writes_for_each_thread {S} p (body : Z -> S -> M S) s :
  (forall t s, writes R P (body t s)) -> writes R P (for_each_thread p body s).
Proof.
  intros Hb. unfold for_each_thread, thread_list.
  repeat (apply writes_bind; [|intros]);
    auto using writes_read_task, writes_read_signal, writes_ret, writes_iterate.
Qed.

End writes_kit.

(** Decompose a computation into its operations; [Hrel] solves the side
    conditions on stores to tasks. *)
Ltac writes_tac Hrefl Htrans Hrel :=
  repeat first
    [ solve [auto 2 with nocore]
    | apply writes_ret; exact Hrefl
    | apply writes_fault
    | apply writes_get; exact Hrefl
    | apply writes_read_task; exact Hrefl
    | apply writes_read_signal; exact Hrefl
    | apply writes_modify_ss_task; exact Hrefl
    | apply writes_kfree; [exact Hrefl|exact I]
    | apply writes_kmalloc; [exact Hrefl|intros; exact I]
    | apply writes_for_each_thread; [exact Hrefl|exact Htrans|intros]
    | apply writes_iterate; [exact Hrefl|exact Htrans|intros]
    | apply writes_emit; [exact Hrefl|exact I]
    | apply writes_modify_task; [exact Hrefl|intros []; Hrel]
    | apply writes_bind; [exact Htrans| |intros]
    | match goal with
      | |- writes _ _ (if ?b then _ else _) => destruct b
      | |- writes _ _ (match ?x with _ => _ end) => destruct x
      | |- writes _ _ (let (_, _) := ?x in _) => destruct x
      end ].

Lemma same_except_state_refl a : same_except_state a a.
Proof. by repeat split. Qed.

Lemma same_except_state_trans a b c :
  same_except_state a b -> same_except_state b c -> same_except_state a c.
Proof.
  unfold same_except_state. intros (?&?&?&?&?&?) (?&?&?&?&?&?). split_and!; congruence.
Qed.

Lemma same_except_state_and_flag_refl a : same_except_state_and_flag a a.
Proof. by repeat split. Qed.

Lemma same_except_state_and_flag_trans a b c :
  same_except_state_and_flag a b -> same_except_state_and_flag b c ->
  same_except_state_and_flag a c.
Proof.
  unfold same_except_state_and_flag. intros (?&?&?&?&?) (?&?&?&?&?). split_and!; congruence.
Qed.

Lemma eq_trans_task (a b c : task_struct) : a = b -> b = c -> a = c.
Proof. congruence. Qed.

Section writes_ops.

Context (E : externals).

Lemma writes_paranoid_state_check leader :
  writes eq capture_event (paranoid_state_check E leader).
Proof.
  unfold paranoid_state_check, paranoid_state_check_body.
  writes_tac (@eq_refl task_struct) eq_trans_task fail.
Qed.

Lemma writes___do_checkpoint_process leader :
  writes eq capture_event (__do_checkpoint_process E leader).
Proof.
  pose proof writes_paranoid_state_check.
  unfold __do_checkpoint_process, __do_checkpoint_process_frame, save_threads_body,
    save_open_files, save_signals, revert_save_open_files, save_thread_regs.
  writes_tac (@eq_refl task_struct) eq_trans_task fail.
Qed.

Lemma writes_wake_up_state P t mask :
  P (E_wake_up_state t mask true) -> P (E_wake_up_state t mask false) ->
  writes same_except_state P (wake_up_state E t mask).
Proof.
  intros H1 H2. unfold wake_up_state.
  repeat first
    [ apply writes_ret; exact same_except_state_refl
    | apply writes_read_task; exact same_except_state_refl
    | apply writes_emit; [exact same_except_state_refl|assumption]
    | apply writes_modify_task; [exact same_except_state_refl|intros []; by repeat split]
    | apply writes_bind; [exact same_except_state_trans| |intros]
    | match goal with
      | |- writes _ _ (match ?x with _ => _ end) => destruct x
      end ].
Qed.

Lemma writes_wake_up_thread_group leader :
  writes same_except_state quiet (wake_up_thread_group E leader).
Proof.
  assert (forall t mask, writes same_except_state quiet (wake_up_state E t mask))
    by (intros; by apply writes_wake_up_state).
  unfold wake_up_thread_group, wake_up_thread_group_body.
  writes_tac same_except_state_refl same_except_state_trans fail.
Qed.

Lemma writes_barrier_timeout_wakeup leader :
  writes same_except_state quiet (barrier_timeout_wakeup E leader).
Proof.
  assert (forall t mask, writes same_except_state quiet (wake_up_state E t mask))
    by (intros; by apply writes_wake_up_state).
  unfold barrier_timeout_wakeup, barrier_timeout_wakeup_body.
  writes_tac same_except_state_refl same_except_state_trans fail.
Qed.

Lemma writes_weaken {A} (R1 R2 : task_struct -> task_struct -> Prop) P (m : M A) :
  (forall a b, R1 a b -> R2 a b) -> writes R1 P m -> writes R2 P m.
Proof.
  intros HR Hm k a k' H. destruct (Hm _ _ _ H) as (T & Hrest). split; [|done].
  intros t. specialize (T t). destruct (tasks k !! t), (tasks k' !! t); auto.
Qed.

Lemma same_except_state_flag a b : same_except_state a b -> same_except_state_and_flag a b.
Proof. intros (?&?&?&?&?&?). by repeat split. Qed.

Lemma writes_checkpoint_process p :
  writes same_except_state_and_flag quiet (checkpoint_process E p).
Proof.
  assert (forall t mask, writes same_except_state_and_flag quiet (wake_up_state E t mask)).
  { intros. eapply writes_weaken; [exact same_except_state_flag|].
    by apply writes_wake_up_state. }
  unfold checkpoint_process, checkpoint_process_body, kick_process.
  writes_tac same_except_state_and_flag_refl same_except_state_and_flag_trans
    ltac:(by repeat split).
Qed.

Lemma writes_sys_checkpoint_process p :
  writes same_except_state_and_flag quiet (sys_checkpoint_process E p).
Proof.
  pose proof writes_checkpoint_process.
  unfold sys_checkpoint_process, find_task_by_pid.
  writes_tac same_except_state_and_flag_refl same_except_state_and_flag_trans fail.
Qed.

End writes_ops.

(** *** The paranoid check and the failure paths of the capture *)

Section capture_paths.

Context (E : externals).

Lemma paranoid_state_check_loop_exact leader (l : list Z) : forall k0 k,
  tasks k = tasks k0 ->
  Forall (fun t => is_Some (tasks k0 !! t)) l ->
  iterate l (paranoid_state_check_body E leader) tt k
  = Some (tt, log (concat (paranoid_events E k0 leader <$> l)) k).
Proof.
  induction l as [|t l IH]; intros k0 k Hk Hlive.
  - rewrite iterate_nil. simpl. by rewrite log_nil.
  - apply Forall_cons in Hlive as [[ts Hts] Hlive].
    rewrite iterate_cons. unfold paranoid_state_check_body at 1.
    rewrite fmap_cons. cbn [concat]. unfold paranoid_events at 1.
    destruct (decide (leader = t)).
    { rewrite bind_ret. by apply IH. }
    rewrite Hts, bind_bind. erewrite bind_read_task by (rewrite Hk; exact Hts).
    destruct (decide (state ts = TASK_CHECKPOINTING E)).
    { rewrite bind_ret. by apply IH. }
    rewrite bind_emit, add_event_log. rewrite (IH k0) by done.
    by rewrite log_log.
Qed.

Lemma paranoid_state_check_exact leader l k :
  wf_group k leader l ->
  paranoid_state_check E leader k
  = Some (tt, log (if CONFIG_CHECKPOINT_DEBUG E
                   then [E_spin_lock_irqsave]
                        ++ concat (paranoid_events E k leader <$> l)
                        ++ [E_spin_unlock_irqrestore]
                   else []) k).
Proof.
  intros (Hl & _ & Hlive). unfold paranoid_state_check.
  destruct (CONFIG_CHECKPOINT_DEBUG E).
  - rewrite bind_emit, add_event_log.
    erewrite bind_for_each_thread by exact Hl.
    rewrite (bind_some _ _ _ _ _
               (paranoid_state_check_loop_exact leader l k (log [E_spin_lock_irqsave] k)
                  eq_refl Hlive)).
    unfold emit. rewrite add_event_log, !log_log. done.
  - by rewrite log_nil.
Qed.

End capture_paths.

(** X1: [paranoid_state_check] changes nothing but the log.  Built
    without CONFIG_CHECKPOINT_DEBUG it does nothing at all; built with
    it, it takes the thread-list lock, prints one line, with state and
    pid, for each thread other than the leader whose state is not
    TASK_CHECKPOINTING, in thread-list order, and releases the lock. *)
Theorem paranoid_state_check_reports E leader l k :
  wf_group k leader l ->
  paranoid_state_check E leader k
  = Some (tt, log (if CONFIG_CHECKPOINT_DEBUG E
                   then [E_spin_lock_irqsave]
                        ++ concat (paranoid_events E k leader <$> l)
                        ++ [E_spin_unlock_irqrestore]
                   else []) k)
  /\ (forall st p,
        E_pr_info_bug st p ∈ concat (paranoid_events E k leader <$> l)
        <-> exists t ts, t ∈ l /\ t <> leader /\ tasks k !! t = Some ts
                         /\ state ts = st /\ pid ts = p /\ st <> TASK_CHECKPOINTING E)
  /\ (forall e, e ∈ concat (paranoid_events E k leader <$> l) ->
        exists st p, e = E_pr_info_bug st p).
Proof.
  intros Hwf. split; [by apply paranoid_state_check_exact|]. split.
  - intros st p. rewrite elem_of_concat_fmap. split.
    + intros (t & Hin & He). unfold paranoid_events in He.
      destruct (decide (leader = t)); [by apply not_elem_of_nil in He|].
      destruct (tasks k !! t) as [ts|] eqn:Hts; [|by apply not_elem_of_nil in He].
      destruct (decide (state ts = TASK_CHECKPOINTING E)); [by apply not_elem_of_nil in He|].
      apply list_elem_of_singleton in He. injection He as -> ->.
      exists t, ts. split_and!; done.
    + intros (t & ts & Hin & Hne & Hts & <- & <- & Hst).
      exists t. split; [done|]. unfold paranoid_events.
      rewrite decide_False by congruence. rewrite Hts.
      rewrite decide_False by done. by left.
  - intros e (t & Hin & He)%elem_of_concat_fmap. unfold paranoid_events in He.
    destruct (decide (leader = t)); [by apply not_elem_of_nil in He|].
    destruct (tasks k !! t) as [ts|]; [|by apply not_elem_of_nil in He].
    destruct (decide (state ts = TASK_CHECKPOINTING E)); [by apply not_elem_of_nil in He|].
    apply list_elem_of_singleton in He. eauto.
Qed.

Lemma paranoid_state_check_reports_witness :
  paranoid_state_check (E0 true (Some 7) 0 0) 10 demo_kernel_1
  = Some (tt, log [E_spin_lock_irqsave; E_pr_info_bug 1 11; E_spin_unlock_irqrestore]
                demo_kernel_1).
Proof.
  assert (Hwf : wf_group demo_kernel_1 10 [10; 11]).
  { apply (bool_decide_unpack _). by vm_compute. }
  exact (proj1 (paranoid_state_check_reports (E0 true (Some 7) 0 0) 10 [10; 11]
                  demo_kernel_1 Hwf)).
Defined.

(** X2: when kmalloc returns NULL, [__do_checkpoint_process] returns
    -ENOMEM right after the paranoid check: it calls no capture function,
    frees nothing, and leaves tasks and heap as they were;
    [do_checkpoint_process] passes -ENOMEM on after re-enabling
    preemption. *)
Theorem kmalloc_failure_returns_ENOMEM E leader l k :
  wf_group k leader l ->
  (forall k0 size, kmalloc_addr E k0 size = None) ->
  exists pre size,
    pre = (if CONFIG_CHECKPOINT_DEBUG E
           then [E_spin_lock_irqsave] ++ concat (paranoid_events E k leader <$> l)
                ++ [E_spin_unlock_irqrestore]
           else [])
    /\ __do_checkpoint_process E leader k
       = Some (- ENOMEM, log (pre ++ [E_kmalloc size None]) k)
    /\ do_checkpoint_process E leader k
       = Some (- ENOMEM,
               log ([E_do_checkpoint_process leader; E_preempt_disable] ++ pre
                    ++ [E_kmalloc size None; E_preempt_enable_no_resched]) k).
Proof.
  intros Hwf Hkm.
  assert (Hrun : forall k1, tasks k1 = tasks k -> signals k1 = signals k ->
            exists size,
              __do_checkpoint_process E leader k1
              = Some (- ENOMEM,
                      log ((if CONFIG_CHECKPOINT_DEBUG E
                            then [E_spin_lock_irqsave]
                                 ++ concat (paranoid_events E k leader <$> l)
                                 ++ [E_spin_unlock_irqrestore]
                            else []) ++ [E_kmalloc size None]) k1)
              /\ size = wrap_ulong (sizeof_ss_task E *
                          default 0 (group_nr_threads k leader))).
  { intros k1 Ht Hs.
    assert (Hwf1 : wf_group k1 leader l).
    { destruct Hwf as (Hg & Hnd & Hlive). unfold wf_group, group_threads in *.
      by rewrite Ht, Hs. }
    pose proof (paranoid_state_check_exact E leader l k1 Hwf1) as Hpre.
    assert (Hsame : paranoid_events E k1 leader <$> l = paranoid_events E k leader <$> l).
    { apply Forall_fmap_ext_1, Forall_forall. intros t _. unfold paranoid_events.
      by rewrite Ht. }
    rewrite Hsame in Hpre.
    destruct Hwf1 as (Hl & _ & _).
    apply group_threads_fields in Hl as (tl & sg & Htl & Hsg & _).
    eexists. split.
    - unfold __do_checkpoint_process, __do_checkpoint_process_frame.
      rewrite !bind_bind, (bind_some _ _ _ _ _ Hpre). repeat mstep.
      cbn [nr_tasks]. unfold kmalloc at 1. unfold bind at 1. rewrite Hkm.
      rewrite bind_ret. unfold ret. cbn [fst]. by rewrite add_event_log, log_log.
    - unfold group_nr_threads. rewrite <- Ht, Htl, <- Hs, Hsg. done. }
  destruct (Hrun k eq_refl eq_refl) as (size & H1 & Hsize).
  eexists _, size. split; [reflexivity|]. split; [exact H1|].
  unfold do_checkpoint_process. rewrite !bind_emit.
  destruct (Hrun (add_event E_preempt_disable (add_event (E_do_checkpoint_process leader) k))
              eq_refl eq_refl) as (size' & H2 & Hsize').
  rewrite (bind_some _ _ _ _ _ H2), bind_emit. unfold ret.
  rewrite !add_event_log, !log_log. subst size size'. do 3 f_equal.
  by rewrite <- !app_assoc.
Qed.

Lemma kmalloc_failure_returns_ENOMEM_witness :
  exists size,
    __do_checkpoint_process (E0 false None 0 0) 10 demo_parked
    = Some (-12, log [E_kmalloc size None] demo_parked).
Proof.
  assert (Hwf : wf_group demo_parked 10 [10; 11]).
  { apply (bool_decide_unpack _). by vm_compute. }
  destruct (kmalloc_failure_returns_ENOMEM (E0 false None 0 0) 10 [10; 11] demo_parked Hwf)
    as (pre & size & Hpre & Hrun & _); [reflexivity|].
  exists size. rewrite Hrun, Hpre. reflexivity.
Defined.

Lemma count_event_tagged_notin e cur evs :
  e ∉ evs -> count_event e (tagged cur evs) = 0%nat.
Proof.
  intros Hnotin. unfold count_event, tagged.
  induction evs as [|e' evs IH]; [done|].
  apply not_elem_of_cons in Hnotin as [Hne Hnotin].
  rewrite fmap_cons, filter_cons. destruct (decide _) as [Heq|]; [|by apply IH].
  simpl in Heq. by subst e'.
Qed.

Lemma paranoid_event_notin e pre : Forall paranoid_event pre -> ~ paranoid_event e -> e ∉ pre.
Proof. intros Hall Hne Hin. rewrite Forall_forall in Hall. by apply Hne, Hall. Qed.

(** X3: when [save_open_files] fails, [__do_checkpoint_process] goes to
    [out:]: it frees the fragment array and returns the error code; it
    calls neither [save_signals] nor [revert_save_open_files], and
    leaves the tasks as they were. *)
Theorem files_failure_skips_revert E leader l k a r :
  wf_group k leader l ->
  (forall k0 size, kmalloc_addr E k0 size = Some a) ->
  (forall k0, fst (save_open_files_res E k0 leader) = r) ->
  r <> 0 ->
  exists pre size k',
    __do_checkpoint_process E leader k = Some (r, k')
    /\ Forall paranoid_event pre
    /\ new_events k k'
       = tagged (current k)
           (pre ++ [E_kmalloc size (Some a); E_save_open_files leader r; E_kfree a])
    /\ count_event (E_revert_save_open_files leader) (new_events k k') = 0%nat
    /\ (forall ret, count_event (E_save_signals leader ret) (new_events k k') = 0%nat)
    /\ heap k' = delete a (heap k)
    /\ tasks k' = tasks k.
Proof.
  intros Hwf Hkm Hfiles Hr.
  destruct (files_failure_path E leader l k a r Hwf Hkm Hfiles Hr)
    as (pre & size & Hrun & Hev).
  eexists pre, size, _. split; [exact Hrun|]. split; [done|].
  rewrite (new_events_app k _ (tagged (current k)
             (pre ++ [E_kmalloc size (Some a); E_save_open_files leader r; E_kfree a])))
    by done.
  split; [done|]. split_and!; try done.
  - apply count_event_tagged_notin. rewrite elem_of_app. intros [Hin|Hin].
    + eapply paranoid_event_notin; [exact Hev| |exact Hin]. simpl. tauto.
    + elem_cases Hin.
  - intros ret. apply count_event_tagged_notin. rewrite elem_of_app. intros [Hin|Hin].
    + eapply paranoid_event_notin; [exact Hev| |exact Hin]. simpl. tauto.
    + elem_cases Hin.
Qed.

Lemma files_failure_skips_revert_witness :
  exists k',
    __do_checkpoint_process (E0 false (Some 7) (-9) 0) 10 demo_parked = Some (-9, k')
    /\ count_event (E_revert_save_open_files 10) (new_events demo_parked k') = 0%nat
    /\ heap k' = delete 7 (heap demo_parked).
Proof.
  assert (Hwf : wf_group demo_parked 10 [10; 11]).
  { apply (bool_decide_unpack _). by vm_compute. }
  destruct (files_failure_skips_revert (E0 false (Some 7) (-9) 0) 10 [10; 11]
              demo_parked 7 (-9) Hwf)
    as (pre & size & k' & Hrun & _ & _ & Hcount & _ & Hheap & _);
    [reflexivity|reflexivity|lia|].
  exists k'. done.
Defined.

Lemma writes_eq_tasks {A} P (m : M A) k a k' :
  writes eq P m -> m k = Some (a, k') -> tasks k' = tasks k.
Proof.
  intros Hm H. destruct (Hm _ _ _ H) as (T & _). apply map_eq. intros t.
  specialize (T t). destruct (tasks k !! t), (tasks k' !! t); try done. by subst.
Qed.

Lemma do_checkpoint_process_facts E leader k r k' :
  do_checkpoint_process E leader k = Some (r, k') ->
  tasks k' = tasks k
  /\ signals k' = signals k
  /\ pid_hash k' = pid_hash k
  /\ jiffies k' = jiffies k
  /\ current k' = current k
  /\ exists evs k1,
       trace k'
       = trace k ++ tagged (current k)
           ([E_do_checkpoint_process leader; E_preempt_disable] ++ evs
            ++ [E_preempt_enable_no_resched])
       /\ Forall capture_event evs
       /\ __do_checkpoint_process E leader
            (add_event E_preempt_disable (add_event (E_do_checkpoint_process leader) k))
          = Some (r, k1).
Proof.
  unfold do_checkpoint_process. rewrite !bind_emit. intros H.
  apply bind_inv in H as (r' & k1 & H1 & H2).
  rewrite bind_emit in H2. apply ret_inv in H2 as [-> ->].
  pose proof (writes_eq_tasks _ _ _ _ _ (writes___do_checkpoint_process E leader) H1) as Ht.
  destruct (writes___do_checkpoint_process E leader _ _ _ H1)
    as (_ & S1 & P1 & J1 & B1 & C1 & evs & Tr & Hev).
  ksimpl. split_and!; try done.
  exists evs, k1. split; [|done].
  rewrite Tr. ksimpl.
  rewrite C1. ksimpl. unfold tagged. rewrite !fmap_app. simpl.
  by rewrite <- !app_assoc.
Qed.

(** X4: [do_checkpoint_process] runs the capture with preemption
    disabled and re-enables it on every path.  It returns on every
    well-formed thread group whose [nr_threads] is the length of its
    thread list (the array size fitting [unsigned long], the index
    [int]), whether kmalloc gives a block or NULL and whatever the
    capture functions return.  Whenever it returns, its trace is the
    call, [preempt_disable], calls and output of
    [__do_checkpoint_process] only, and [preempt_enable_no_resched] last;
    the value is that of [__do_checkpoint_process]; and the capture has
    written to no task: states, flags and arrival counters, the signal
    structs, the pid table and the clock are as before. *)
Theorem do_checkpoint_process_brackets E leader k :
  (forall l,
     wf_group k leader l ->
     group_nr_threads k leader = Some (Z.of_nat (length l)) ->
     0 < sizeof_ss_task E ->
     sizeof_ss_task E * Z.of_nat (length l) < 2 ^ 64 ->
     Z.of_nat (length l) < 2 ^ 31 ->
     exists r k', do_checkpoint_process E leader k = Some (r, k'))
  /\ (forall r k',
        do_checkpoint_process E leader k = Some (r, k') ->
        tasks k' = tasks k
        /\ signals k' = signals k
        /\ pid_hash k' = pid_hash k
        /\ jiffies k' = jiffies k
        /\ current k' = current k
        /\ exists evs k1,
             new_events k k'
             = tagged (current k)
                 ([E_do_checkpoint_process leader; E_preempt_disable] ++ evs
                  ++ [E_preempt_enable_no_resched])
             /\ Forall capture_event evs
             /\ __do_checkpoint_process E leader
                  (add_event E_preempt_disable (add_event (E_do_checkpoint_process leader) k))
                = Some (r, k1)).
Proof.
  split.
  - intros l Hwf Hnr Hsz Hfit Hint.
    exact (do_checkpoint_process_returns E leader l k Hwf Hnr Hsz Hfit Hint).
  - intros r k' H. destruct (do_checkpoint_process_facts E leader k r k' H)
      as (H1 & H2 & H3 & H4 & H5 & evs & k1 & Htr & Hev & Hrun).
    split_and!; try done. exists evs, k1. split; [|done]. by apply new_events_app.
Qed.

Lemma do_checkpoint_process_brackets_witness :
  exists r k',
    do_checkpoint_process demo_E 10 demo_parked = Some (r, k')
    /\ tasks k' = tasks demo_parked
    /\ last (new_events demo_parked k') = Some (0, E_preempt_enable_no_resched).
Proof.
  assert (Hwf : wf_group demo_parked 10 [10; 11]).
  { apply (bool_decide_unpack _). by vm_compute. }
  destruct (proj1 (do_checkpoint_process_brackets demo_E 10 demo_parked) [10; 11] Hwf
              eq_refl eq_refl eq_refl eq_refl) as (r & k' & Hrun).
  exists r, k'. split; [exact Hrun|].
  destruct (proj2 (do_checkpoint_process_brackets demo_E 10 demo_parked) r k' Hrun)
    as (Ht & _ & _ & _ & _ & evs & k1 & Hev & _).
  split; [exact Ht|]. rewrite Hev, !tagged_app, !app_assoc.
  exact (last_snoc _ _).
Defined.

(** *** Releasing the group after the capture *)

Lemma log_set_tasks evs T k : log evs (set_tasks T k) = set_tasks T (log evs k).
Proof. reflexivity. Qed.

Lemma set_tasks_set_tasks T1 T2 k : set_tasks T1 (set_tasks T2 k) = set_tasks T1 k.
Proof. reflexivity. Qed.

Lemma log_set_tasks_log evs1 evs2 T1 T2 k :
  log evs2 (set_tasks T2 (log evs1 (set_tasks T1 k))) = log (evs1 ++ evs2) (set_tasks T2 k).
Proof. unfold log, set_tasks. simpl. by rewrite tagged_app, app_assoc. Qed.

Lemma log_set_tasks_log' evs1 evs2 T k :
  log evs2 (set_tasks T (log evs1 k)) = log (evs1 ++ evs2) (set_tasks T k).
Proof. unfold log, set_tasks. simpl. by rewrite tagged_app, app_assoc. Qed.

Lemma set_tasks_id k : set_tasks (tasks k) k = k.
Proof. by destruct k. Qed.

Lemma with_state_id ts : with_state (state ts) ts = ts.
Proof. by destruct ts. Qed.

Section release.

Context (E : externals).

Lemma wake_up_thread_group_body_ok leader t k ts :
  tasks k !! t = Some ts ->
  wake_up_thread_group_body E leader t tt k
  = Some (tt, log (release_events E k leader t)
                (set_tasks (<[t := released E leader t ts]> (tasks k)) k)).
Proof.
  intros Hts. unfold wake_up_thread_group_body, release_events, released.
  destruct (decide (leader = t)).
  { unfold ret. rewrite log_nil, insert_id by done. by rewrite set_tasks_id. }
  rewrite Hts. erewrite bind_wake_up_state by exact Hts.
  destruct (try_to_wake_up E (state ts) (TASK_CHECKPOINTING E)) as [st'|].
  - unfold ret. by rewrite add_event_log.
  - erewrite bind_read_task by (ksimpl; exact Hts). unfold emit.
    rewrite !add_event_log, log_log, insert_id by done. by rewrite set_tasks_id.
Qed.

Lemma release_events_ext k1 k2 leader (l : list Z) :
  (forall t, t ∈ l -> tasks k1 !! t = tasks k2 !! t) ->
  release_events E k1 leader <$> l = release_events E k2 leader <$> l.
Proof.
  intros H. apply Forall_fmap_ext_1, Forall_forall. intros t Ht.
  unfold release_events. by rewrite H.
Qed.

Lemma wake_up_thread_group_loop leader (l : list Z) : forall k,
  NoDup l ->
  Forall (fun t => is_Some (tasks k !! t)) l ->
  exists T,
    iterate l (wake_up_thread_group_body E leader) tt k
    = Some (tt, log (concat (release_events E k leader <$> l)) (set_tasks T k))
    /\ forall t, T !! t = released_tasks E leader l (tasks k) t.
Proof.
  induction l as [|t l IH]; intros k Hnd Hlive.
  - exists (tasks k). rewrite iterate_nil. simpl. rewrite log_nil, set_tasks_id.
    split; [done|]. intros t. unfold released_tasks.
    rewrite decide_False; [done|]. apply not_elem_of_nil.
  - apply NoDup_cons in Hnd as [Hnotin Hnd].
    apply Forall_cons in Hlive as [[ts Hts] Hlive].
    set (k1 := log (release_events E k leader t)
                 (set_tasks (<[t := released E leader t ts]> (tasks k)) k)).
    assert (Hlive1 : Forall (fun u => is_Some (tasks k1 !! u)) l).
    { rewrite Forall_forall in Hlive |- *. intros u Hu. subst k1. ksimpl.
      destruct (decide (t = u)) as [->|Hne]; [by rewrite lookup_insert_eq|].
      rewrite lookup_insert_ne by done. by apply Hlive. }
    destruct (IH k1 Hnd Hlive1) as (T & Hrun & HT).
    exists T. split.
    + rewrite iterate_cons.
      rewrite (bind_some _ _ _ _ _ (wake_up_thread_group_body_ok leader t k ts Hts)).
      fold k1. rewrite Hrun. subst k1.
      rewrite (release_events_ext _ k).
      * by rewrite log_set_tasks_log.
      * intros u Hu. ksimpl. rewrite lookup_insert_ne; [done|]. by intros ->.
    + intros u. rewrite HT. unfold released_tasks. subst k1. ksimpl.
      destruct (decide (t = u)) as [<-|Hne].
      * rewrite decide_False by done. rewrite decide_True by by left.
        by rewrite lookup_insert_eq, Hts.
      * rewrite lookup_insert_ne by done.
        destruct (decide (u ∈ l)).
        -- rewrite decide_True by by right. done.
        -- rewrite decide_False; [done|]. by intros [->|?]%elem_of_cons.
Qed.

Lemma wake_up_thread_group_ok leader l k :
  wf_group k leader l ->
  exists T,
    wake_up_thread_group E leader k
    = Some (tt, log ([E_spin_lock_irqsave] ++ concat (release_events E k leader <$> l)
                     ++ [E_spin_unlock_irqrestore]) (set_tasks T k))
    /\ forall t, T !! t = released_tasks E leader l (tasks k) t.
Proof.
  intros (Hl & Hnd & Hlive).
  destruct (wake_up_thread_group_loop leader l (log [E_spin_lock_irqsave] k) Hnd Hlive)
    as (T & Hrun & HT).
  exists T. split; [|exact HT].
  unfold wake_up_thread_group. rewrite bind_emit, add_event_log.
  erewrite bind_for_each_thread by exact Hl.
  rewrite (bind_some _ _ _ _ _ Hrun). unfold emit.
  rewrite (release_events_ext _ k) by done.
  rewrite add_event_log, log_log, log_set_tasks_log'. done.
Qed.

End release.

(** X5: on a well-formed thread group [wake_up_thread_group] takes the
    thread-list lock and, for every thread other than the leader in list
    order, makes one wake attempt for state TASK_CHECKPOINTING, followed
    by the warning with pid, tgid and state exactly when the attempt woke
    nothing; then it releases the lock.  A woken thread has the state
    the scheduler gave it; the leader, every thread that was not woken,
    every task outside the group, all flags and counters, and the rest
    of the kernel state are as before. *)
Theorem wake_up_thread_group_releases E leader l k :
  wf_group k leader l ->
  exists T,
    wake_up_thread_group E leader k
    = Some (tt, log ([E_spin_lock_irqsave] ++ concat (release_events E k leader <$> l)
                     ++ [E_spin_unlock_irqrestore]) (set_tasks T k))
    /\ (forall t, T !! t = released_tasks E leader l (tasks k) t)
    /\ T !! leader = tasks k !! leader
    /\ (forall t ts, tasks k !! t = Some ts ->
          exists ts', T !! t = Some ts' /\ same_except_state ts ts').
Proof.
  intros Hwf. destruct (wake_up_thread_group_ok E leader l k Hwf) as (T & Hrun & HT).
  exists T. split; [done|]. split; [done|]. split.
  - rewrite HT. unfold released_tasks, released.
    destruct (decide (leader ∈ l)); [|done].
    destruct (tasks k !! leader); [|done]. simpl. by rewrite decide_True.
  - intros t ts Hts. rewrite HT. unfold released_tasks, released. rewrite Hts.
    destruct (decide (t ∈ l)); [|by eexists].
    simpl. eexists. split; [done|].
    destruct (decide (leader = t)); [by repeat split|].
    destruct (try_to_wake_up E (state ts) (TASK_CHECKPOINTING E)); by repeat split.
Qed.

Lemma wake_up_thread_group_releases_witness :
  exists T,
    wake_up_thread_group demo_E 10 demo_parked
    = Some (tt, log [E_spin_lock_irqsave; E_wake_up_state 11 4096 true;
                     E_spin_unlock_irqrestore] (set_tasks T demo_parked))
    /\ T !! 11 = Some (task0 11 10 0 true)
    /\ T !! 10 = Some (task0 10 10 0 true).
Proof.
  assert (Hwf : wf_group demo_parked 10 [10; 11]).
  { apply (bool_decide_unpack _). by vm_compute. }
  destruct (wake_up_thread_group_releases demo_E 10 [10; 11] demo_parked Hwf)
    as (T & Hrun & HT & _).
  exists T. split; [exact Hrun|]. rewrite !HT. split; by vm_compute.
Defined.

(** X6: which fields of a task the functions that walk a thread group
    may write, on any kernel state and whatever the scheduler's wake-up
    does: [wake_up_thread_group] and [barrier_timeout_wakeup] change the
    run state only; the dispatcher [checkpoint_process] and the system
    call change the run state and TIF_NEED_CHECKPOINT only.  None of them
    changes an arrival counter, creates or removes a task, touches a
    signal struct, the pid table or the clock, or calls the capture.  On
    a well-formed thread group the three walks return. *)
Theorem group_walks_write_state_and_flag_only E :
  (forall leader, writes same_except_state quiet (wake_up_thread_group E leader))
  /\ (forall leader, writes same_except_state quiet (barrier_timeout_wakeup E leader))
  /\ (forall p, writes same_except_state_and_flag quiet (checkpoint_process E p))
  /\ (forall p, writes same_except_state_and_flag quiet (sys_checkpoint_process E p))
  /\ (forall p l k,
        wf_group k p l ->
        (exists k', wake_up_thread_group E p k = Some (tt, k'))
        /\ (exists k', barrier_timeout_wakeup E p k = Some (tt, k'))
        /\ (exists k', checkpoint_process E p k = Some (0, k'))).
Proof.
  split_and!; intros.
  - apply writes_wake_up_thread_group.
  - apply writes_barrier_timeout_wakeup.
  - apply writes_checkpoint_process.
  - apply writes_sys_checkpoint_process.
  - split_and!.
    + destruct (wake_up_thread_group_ok E p l k) as (T & Hrun & _); [done|]. eauto.
    + pose proof H as (Hl & _ & _).
      apply group_threads_fields in Hl as (tp & sg & Htp & Hsg & _).
      destruct (barrier_timeout_wakeup_ok E p l k tp (nr_threads sg)) as (k' & Hrun & _);
        [done|done|unfold group_nr_threads; by rewrite Htp, Hsg|]. eauto.
    + destruct (checkpoint_process_ok E p l k) as (k' & Hrun & _); [done|]. eauto.
Qed.

Lemma capture_event_quiet evs : Forall capture_event evs -> Forall quiet evs.
Proof. intros H. eapply Forall_impl; [exact H|]. intros e He. by destruct e. Qed.

Lemma set_current_id p k : current k = p -> set_current p k = k.
Proof. intros <-. by destruct k. Qed.

Lemma release_events_quiet E k leader l :
  Forall quiet (concat (release_events E k leader <$> l)).
Proof.
  apply Forall_forall. intros e (t & _ & He)%elem_of_concat_fmap.
  unfold release_events in He.
  destruct (decide (leader = t)); [by apply not_elem_of_nil in He|].
  destruct (tasks k !! t); [|by apply not_elem_of_nil in He].
  destruct (try_to_wake_up E _ _); elem_cases He; by subst.
Qed.

Lemma captures_marker leader cur :
  captures leader (tagged cur [E_do_checkpoint_process leader]) = 1%nat.
Proof.
  unfold captures, tagged. simpl. rewrite filter_cons, decide_True by done. done.
Qed.

Section success.

Context (E : externals).

(** The leader's path from line 183 to its return when all threads have
    arrived. *)
Lemma leader_success_path c p l f tp n r K1 :
  frames c !! p = Some f -> f_p f = p -> f_pc f = L183 ->
  wf_group (kern c) p l ->
  tasks (kern c) !! p = Some tp ->
  group_nr_threads (kern c) p = Some n ->
  process_barrier tp = n ->
  do_checkpoint_process E p (add_event E_debug_elapsed (set_current p (kern c)))
  = Some (r, K1) ->
  exists c',
    run E (replicate 7 (Run p)) c = Some c'
    /\ frames c' = <[p := goto (L_returned 0) f]> (frames c)
    /\ trace (kern c')
       = trace K1 ++
         tagged p ([E_spin_lock_irqsave]
                   ++ concat (release_events E (kern c) p <$> l)
                   ++ [E_spin_unlock_irqrestore; E_atomic_set p 0])
    /\ captures p (new_events (kern c) (kern c')) = 1%nat
    /\ (forall t,
          tasks (kern c') !! t
          = if decide (t = p)
            then Some (with_need_checkpoint false (with_process_barrier 0 tp))
            else released_tasks E p l (tasks (kern c)) t).
Proof.
  intros Hf Hp Hpc Hwf Htp Hn Hbar Hcap.
  set (K := set_current p (kern c)).
  assert (Hsg : exists sg, signals (kern c) !! signal tp = Some sg /\ nr_threads sg = n).
  { unfold group_nr_threads in Hn. rewrite Htp in Hn.
    destruct (signals (kern c) !! signal tp) as [sg|]; [|done].
    injection Hn as <-. eauto. }
  destruct Hsg as (sg & Hsg & Hnr).
  (* line 183 *)
  assert (H1 : checkpoint_thread_step E f K = Some (goto L194 f, K)).
  { unfold checkpoint_thread_step. rewrite Hpc, Hp.
    erewrite bind_read_task by exact Htp. erewrite bind_read_signal by exact Hsg.
    rewrite Hnr. destruct (decide (process_barrier tp = n)); done. }
  (* line 194 *)
  assert (H2 : checkpoint_thread_step E (goto L194 f) K
               = Some (goto L200 f, add_event E_debug_elapsed K)) by done.
  (* line 200 *)
  assert (H3 : checkpoint_thread_step E (goto L200 f) (add_event E_debug_elapsed K)
               = Some (goto L203 f, K1)).
  { unfold checkpoint_thread_step. simpl. rewrite Hp.
    by rewrite (bind_some _ _ _ _ _ Hcap). }
  destruct (do_checkpoint_process_facts E p _ r K1 Hcap)
    as (T1 & S1 & P1 & J1 & C1 & evs & k1 & Tr1 & Hev & _).
  ksimpl.
  (* line 203 *)
  assert (Hwf1 : wf_group K1 p l).
  { destruct Hwf as (Hg & Hnd & Hlive). unfold wf_group, group_threads in *.
    by rewrite T1, S1. }
  destruct (wake_up_thread_group_ok E p l K1 Hwf1) as (T & Hwake & HT).
  rewrite (release_events_ext E K1 (kern c)) in Hwake by (intros; by rewrite T1).
  set (evs4 := [E_spin_lock_irqsave] ++ concat (release_events E (kern c) p <$> l)
               ++ [E_spin_unlock_irqrestore]) in *.
  assert (H4 : checkpoint_thread_step E (goto L203 f) K1
               = Some (goto L207 f, log evs4 (set_tasks T K1))).
  { unfold checkpoint_thread_step. simpl. rewrite Hp.
    by rewrite (bind_some _ _ _ _ _ Hwake). }
  assert (HTp : T !! p = Some tp).
  { rewrite HT, T1. unfold released_tasks, released. rewrite Htp.
    destruct (decide (p ∈ l)); [|done]. simpl. by rewrite decide_True. }
  (* line 207 *)
  set (K5 := add_event (E_atomic_set p 0)
               (set_tasks (<[p := with_process_barrier 0 tp]> T) (log evs4 (set_tasks T K1)))).
  assert (H5 : checkpoint_thread_step E (goto L207 f) (log evs4 (set_tasks T K1))
               = Some (goto L210 f, K5)).
  { unfold checkpoint_thread_step, atomic_set. simpl. rewrite Hp. by repeat mstep. }
  (* line 210 *)
  set (K6 := set_tasks (<[p := with_need_checkpoint false (with_process_barrier 0 tp)]>
                          (tasks K5)) K5).
  assert (H6 : checkpoint_thread_step E (goto L210 f) K5 = Some (goto L211 f, K6)).
  { unfold checkpoint_thread_step. simpl. rewrite Hp.
    erewrite bind_modify_task by (subst K5; ksimpl; apply lookup_insert_eq).
    done. }
  (* line 211 *)
  assert (H7 : checkpoint_thread_step E (goto L211 f) K6
               = Some (goto (L_returned 0) f, K6)) by done.
  assert (Hc : current K1 = p) by (rewrite C1; done).
  exists (mk_config K6 (<[p := goto (L_returned 0) f]> (frames c))).
  split.
  { cbn [replicate].
    erewrite run_cons by (eapply step_run; [exact Hf|exact H1]).
    erewrite run_cons
      by (eapply step_run; [apply lookup_insert_eq|simpl; exact H2]).
    erewrite run_cons
      by (eapply step_run; [apply lookup_insert_eq
                           |simpl; rewrite set_current_id by done; exact H3]).
    erewrite run_cons
      by (eapply step_run; [apply lookup_insert_eq
                           |simpl; rewrite set_current_id by done; exact H4]).
    erewrite run_cons
      by (eapply step_run; [apply lookup_insert_eq
                           |simpl; rewrite set_current_id by done; exact H5]).
    erewrite run_cons
      by (eapply step_run; [apply lookup_insert_eq
                           |simpl; rewrite set_current_id by done; exact H6]).
    erewrite run_cons
      by (eapply step_run; [apply lookup_insert_eq
                           |simpl; rewrite set_current_id by done; exact H7]).
    simpl. by rewrite !insert_insert_eq. }
  split; [done|].
  assert (Htrace : trace K6 = trace K1 ++ tagged p (evs4 ++ [E_atomic_set p 0])).
  { subst K6 K5. ksimpl. rewrite Hc, tagged_app, <- app_assoc. done. }
  split.
  { cbn [kern]. rewrite Htrace. subst evs4. by rewrite <- !app_assoc. }
  split.
  { cbn [kern]. unfold new_events. rewrite Htrace, Tr1. subst K. ksimpl.
    rewrite <- !app_assoc, drop_app_length.
    change ([(p, E_debug_elapsed)]) with (tagged p [E_debug_elapsed]).
    change ([E_do_checkpoint_process p; E_preempt_disable] ++ evs
            ++ [E_preempt_enable_no_resched])
      with ([E_do_checkpoint_process p] ++ [E_preempt_disable] ++ evs
            ++ [E_preempt_enable_no_resched]).
    rewrite !tagged_app, !captures_app, captures_marker.
    rewrite !captures_quiet; [done| | | | | |]; try (by repeat constructor).
    - subst evs4. apply Forall_app. split; [by repeat constructor|].
      apply Forall_app. split; [apply release_events_quiet|by repeat constructor].
    - by apply capture_event_quiet. }
  intros t. subst K6 K5. ksimpl.
  destruct (decide (t = p)) as [->|Hne].
  - by rewrite lookup_insert_eq.
  - rewrite !lookup_insert_ne by done. by rewrite HT, T1.
Qed.

(** X7: a leader that polls the barrier at line 183 and finds the
    counter equal to [nr_threads] goes through lines 194 to 211 and
    returns 0 in seven statements, whatever [do_checkpoint_process]
    returns (on a well-formed group it does return): it calls the capture
    exactly once, then wakes the group ([wake_up_thread_group]), sets the
    counter to 0 and clears its own TIF_NEED_CHECKPOINT.  Afterwards the
    leader's task differs from before in counter and flag only, every
    other thread of the group is as [wake_up_thread_group] left it, and
    tasks outside the group are untouched. *)
Theorem leader_captures_and_releases c p l f tp :
  frames c !! p = Some f -> f_p f = p -> f_pc f = L183 ->
  wf_group (kern c) p l ->
  tasks (kern c) !! p = Some tp ->
  group_nr_threads (kern c) p = Some (Z.of_nat (length l)) ->
  process_barrier tp = Z.of_nat (length l) ->
  0 < sizeof_ss_task E ->
  sizeof_ss_task E * Z.of_nat (length l) < 2 ^ 64 ->
  Z.of_nat (length l) < 2 ^ 31 ->
  exists r K1 c',
    do_checkpoint_process E p (add_event E_debug_elapsed (set_current p (kern c)))
    = Some (r, K1)
    /\ run E (replicate 7 (Run p)) c = Some c'
    /\ frames c' = <[p := goto (L_returned 0) f]> (frames c)
    /\ trace (kern c')
       = trace K1 ++
         tagged p ([E_spin_lock_irqsave]
                   ++ concat (release_events E (kern c) p <$> l)
                   ++ [E_spin_unlock_irqrestore; E_atomic_set p 0])
    /\ captures p (new_events (kern c) (kern c')) = 1%nat
    /\ (forall t,
          tasks (kern c') !! t
          = if decide (t = p)
            then Some (with_need_checkpoint false (with_process_barrier 0 tp))
            else released_tasks E p l (tasks (kern c)) t).
Proof.
  intros Hf Hp Hpc Hwf Htp Hn Hbar Hsz Hfit Hint.
  destruct (do_checkpoint_process_returns E p l
              (add_event E_debug_elapsed (set_current p (kern c))))
    as (r & K1 & Hcap); [exact Hwf|exact Hn|exact Hsz|exact Hfit|exact Hint|].
  destruct (leader_success_path c p l f tp _ r K1 Hf Hp Hpc Hwf Htp Hn Hbar Hcap)
    as (c' & H).
  exists r, K1, c'. split; [exact Hcap|exact H].
Qed.

End success.

Lemma leader_captures_and_releases_witness :
  exists c',
    run demo_E (replicate 7 (Run 10)) demo_arrived = Some c'
    /\ captures 10 (new_events (kern demo_arrived) (kern c')) = 1%nat
    /\ tasks (kern c') !! 10 = Some (mk_task 10 10 0 false 10 1 0)
    /\ tasks (kern c') !! 11 = Some (mk_task 11 10 0 true 10 1 0).
Proof.
  assert (Hwf : wf_group (kern demo_arrived) 10 [10; 11]).
  { apply (bool_decide_unpack _). by vm_compute. }
  assert (Hf : frames demo_arrived !! 10 = Some (mk_frame 10 L183 0 10 500))
    by by vm_compute.
  assert (Hts : tasks (kern demo_arrived) !! 10 = Some (mk_task 10 10 0 true 10 1 2))
    by by vm_compute.
  assert (Hn : group_nr_threads (kern demo_arrived) 10 = Some 2) by by vm_compute.
  destruct (leader_captures_and_releases demo_E demo_arrived 10 [10; 11]
              (mk_frame 10 L183 0 10 500) (mk_task 10 10 0 true 10 1 2)
              Hf eq_refl eq_refl Hwf Hts Hn eq_refl eq_refl eq_refl eq_refl)
    as (r & K1 & c' & _ & Hrun & _ & _ & Hcount & Htasks).
  exists c'. split; [exact Hrun|]. split; [exact Hcount|].
  rewrite !Htasks. split; by vm_compute.
Defined.

Section parked.

Context (E : externals).





End parked.


(** *** The barrier timeout and the jiffies counter *)

Lemma time_after_elapsed j d n :
  - 2 ^ 63 <= d - n < 2 ^ 63 ->
  time_after (wrap_ulong (j + n)) (wrap_ulong (j + d)) = bool_decide (d < n).
Proof.
  intros Hr. unfold time_after, to_long, wrap_ulong.
  rewrite Zminus_mod_idemp_l, Zminus_mod_idemp_r.
  replace (j + d - (j + n)) with (d - n) by lia.
  rewrite Zplus_mod_idemp_l.
  rewrite (Z.mod_small (d - n + 2 ^ 63)) by lia.
  apply bool_decide_ext. lia.
Qed.

(** X9: the leader's deadline is counted in jiffies from line 181 and
    survives the wrap-around of the counter.  Let [d] be the timeout in
    jiffies.  With [d] below 2^63, [n] jiffies after line 181 the test at
    line 188 fires exactly when [n] exceeds [d], whatever the counter
    held and whether or not it wrapped in between: up to the deadline
    the leader goes back to polling with the kernel unchanged, after it
    it calls [barrier_timeout_wakeup] and leaves the loop.  A timeout of
    2^63 jiffies or more counts as elapsed at once. *)
Theorem barrier_timeout_deadline E f0 k0 :
  f_pc f0 = L180 ->
  exists f1,
    checkpoint_thread_step E f0 k0 = Some (f1, k0)
    /\ f_pc f1 = L183 /\ f_p f1 = f_p f0
    /\ (forall k n,
          0 <= msecs_to_jiffies E (barrier_timeout_msec k0) < 2 ^ 63 ->
          0 <= n < 2 ^ 63 ->
          jiffies k = wrap_ulong (jiffies k0 + n) ->
          time_after (jiffies k) (f_timeout f1)
          = bool_decide (msecs_to_jiffies E (barrier_timeout_msec k0) < n)
          /\ (n <= msecs_to_jiffies E (barrier_timeout_msec k0) ->
              checkpoint_thread_step E (goto L188 f1) k = Some (goto L183 f1, k))
          /\ (msecs_to_jiffies E (barrier_timeout_msec k0) < n ->
              forall k', barrier_timeout_wakeup E (f_p f0) k = Some (tt, k') ->
                checkpoint_thread_step E (goto L188 f1) k = Some (goto L207 f1, k')))
    /\ (2 ^ 63 <= msecs_to_jiffies E (barrier_timeout_msec k0) < 2 ^ 64 ->
        time_after (jiffies k0) (f_timeout f1) = true).
Proof.
  intros Hpc. eexists. split.
  { unfold checkpoint_thread_step. rewrite Hpc, bind_get. reflexivity. }
  cbn [f_pc f_p f_timeout]. split; [done|]. split; [done|]. split.
  - intros k n Hd Hn Hj.
    assert (Hta : time_after (jiffies k)
                    (wrap_ulong (jiffies k0 + msecs_to_jiffies E (barrier_timeout_msec k0)))
                  = bool_decide (msecs_to_jiffies E (barrier_timeout_msec k0) < n)).
    { rewrite Hj. apply time_after_elapsed. lia. }
    split; [exact Hta|]. split.
    + intros Hle. unfold checkpoint_thread_step. cbn [f_pc goto f_timeout f_p].
      rewrite bind_get, Hta, bool_decide_eq_false_2 by lia. done.
    + intros Hlt k' Hw. unfold checkpoint_thread_step. cbn [f_pc goto f_timeout f_p].
      rewrite bind_get, Hta, bool_decide_eq_true_2 by lia.
      by rewrite (bind_some _ _ _ _ _ Hw).
  - intros Hd. unfold time_after, to_long, wrap_ulong.
    rewrite Zminus_mod_idemp_l.
    replace (jiffies k0 + msecs_to_jiffies E (barrier_timeout_msec k0) - jiffies k0)
      with (msecs_to_jiffies E (barrier_timeout_msec k0)) by lia.
    rewrite Zplus_mod_idemp_l. apply bool_decide_eq_true_2.
    replace (msecs_to_jiffies E (barrier_timeout_msec k0) + 2 ^ 63)
      with (msecs_to_jiffies E (barrier_timeout_msec k0) - 2 ^ 63 + 1 * 2 ^ 64) by lia.
    rewrite Z_mod_plus_full, Z.mod_small by lia. lia.
Qed.

Lemma barrier_timeout_deadline_witness :
  exists f1,
    checkpoint_thread_step demo_E (mk_frame 10 L180 0 10 0)
      (set_jiffies (2 ^ 64 - 100) demo_quiet)
    = Some (f1, set_jiffies (2 ^ 64 - 100) demo_quiet)
    /\ f_timeout f1 = 400
    /\ time_after 400 (f_timeout f1) = false
    /\ time_after 401 (f_timeout f1) = true.
Proof.
  destruct (barrier_timeout_deadline demo_E (mk_frame 10 L180 0 10 0)
              (set_jiffies (2 ^ 64 - 100) demo_quiet) eq_refl)
    as (f1 & Hstep & _ & _ & Hn & _).
  exists f1. split; [exact Hstep|].
  assert (Ht : f_timeout f1 = 400).
  { vm_compute in Hstep. by injection Hstep as <-. }
  split; [exact Ht|]. split.
  - exact (proj1 (Hn (set_jiffies 400 demo_quiet) 500 ltac:(by vm_compute)
                    ltac:(lia) ltac:(by vm_compute))).
  - exact (proj1 (Hn (set_jiffies 401 demo_quiet) 501 ltac:(by vm_compute)
                    ltac:(lia) ltac:(by vm_compute))).
Defined.

(** *** The arrival counter *)

Lemma writes_weaken2 {A} (R1 R2 : task_struct -> task_struct -> Prop)
    (P1 P2 : event -> Prop) (m : M A) :
  (forall a b, R1 a b -> R2 a b) -> (forall e, P1 e -> P2 e) ->
  writes R1 P1 m -> writes R2 P2 m.
Proof.
  intros HR HP Hm k a k' H.
  destruct (Hm _ _ _ H) as (T & S1 & H1 & J1 & B1 & C1 & evs & Tr & Hev).
  split_and!; try done.
  - intros t. specialize (T t). destruct (tasks k !! t), (tasks k' !! t); auto.
  - exists evs. split; [done|]. eapply Forall_impl; [exact Hev|auto].
Qed.

Lemma same_counter_refl a : same_counter a a.
Proof. done. Qed.

Lemma same_counter_trans a b c : same_counter a b -> same_counter b c -> same_counter a c.
Proof. unfold same_counter. congruence. Qed.

Section counter.

Context (E : externals).

Lemma writes_counter_do_checkpoint_process p :
  writes same_counter any_event (do_checkpoint_process E p).
Proof.
  assert (forall q, writes same_counter any_event (__do_checkpoint_process E q)).
  { intros q. eapply writes_weaken2; [| |apply writes___do_checkpoint_process].
    - by intros a b ->.
    - done. }
  unfold do_checkpoint_process.
  writes_tac same_counter_refl same_counter_trans fail.
Qed.

Lemma writes_counter_wake_up_thread_group p :
  writes same_counter any_event (wake_up_thread_group E p).
Proof.
  eapply writes_weaken2; [| |apply writes_wake_up_thread_group]; [|done].
  by intros a b (_&_&_&_&_&?).
Qed.

Lemma writes_counter_barrier_timeout_wakeup p :
  writes same_counter any_event (barrier_timeout_wakeup E p).
Proof.
  eapply writes_weaken2; [| |apply writes_barrier_timeout_wakeup]; [|done].
  by intros a b (_&_&_&_&_&?).
Qed.

Lemma writes_counter_sys_checkpoint_process p :
  writes same_counter any_event (sys_checkpoint_process E p).
Proof.
  eapply writes_weaken2; [| |apply writes_sys_checkpoint_process]; [|done].
  by intros a b (_&_&_&_&?).
Qed.

(** Every statement of [checkpoint_thread] but the increment at line
    168 and the reset at line 207 leaves all counters alone. *)
Lemma writes_counter_step f :
  f_pc f <> L167 -> f_pc f <> L207 ->
  writes same_counter any_event (checkpoint_thread_step E f).
Proof.
  intros H1 H2.
  pose proof writes_counter_do_checkpoint_process.
  pose proof writes_counter_wake_up_thread_group.
  pose proof writes_counter_barrier_timeout_wakeup.
  unfold checkpoint_thread_step, test_tsk_need_checkpoint, set_current_state.
  destruct (f_pc f); try done;
    writes_tac same_counter_refl same_counter_trans ltac:(reflexivity).
Qed.

Lemma counter_step a c c' t ts :
  step E a c = Some c' ->
  tasks (kern c) !! t = Some ts ->
  exists ts',
    tasks (kern c') !! t = Some ts'
    /\ (process_barrier ts' = process_barrier ts
        \/ (exists tid f tp,
              a = Run tid /\ frames c !! tid = Some f /\ f_pc f = L167
              /\ tasks (kern c) !! f_p f = Some tp /\ group_leader tp = t
              /\ process_barrier ts' = wrap_int (process_barrier ts + 1))
        \/ (exists tid f,
              a = Run tid /\ frames c !! tid = Some f /\ f_pc f = L207
              /\ f_p f = t /\ process_barrier ts' = 0)).
Proof.
  intros Hstep Hts.
  assert (Hkeep : forall {A} (m : M A) k a0 k',
            writes same_counter any_event m -> m k = Some (a0, k') ->
            tasks k !! t = Some ts ->
            exists ts', tasks k' !! t = Some ts' /\ process_barrier ts' = process_barrier ts).
  { intros A m k a0 k' Hm Hrun Hk. destruct (Hm _ _ _ Hrun) as (T & _).
    specialize (T t). rewrite Hk in T.
    destruct (tasks k' !! t) as [ts'|]; [|done]. exists ts'. split; [done|]. by symmetry. }
  destruct a as [|tid p|tid|tid p]; simpl in Hstep.
  - injection Hstep as <-. exists ts. split; [done|by left].
  - destruct (idle c tid); [|done]. injection Hstep as <-. exists ts. split; [done|by left].
  - destruct (frames c !! tid) as [f|] eqn:Hf; [|done].
    destruct (checkpoint_thread_step E f (set_current tid (kern c)))
      as [[f' k']|] eqn:Hs; [|done].
    injection Hstep as <-. cbn [kern].
    destruct (decide (f_pc f = L167)) as [H167|H167].
    { unfold checkpoint_thread_step in Hs. rewrite H167 in Hs.
      apply bind_inv in Hs as (tp & k1 & Hr & Hs).
      apply read_task_inv in Hr as [Htp ->].
      apply bind_inv in Hs as ([] & k1 & Hinc & Hs).
      apply ret_inv in Hs as [_ ->].
      unfold atomic_inc in Hinc. apply bind_inv in Hinc as ([] & k2 & Hm & He).
      unfold emit in He. injection He as <-. unfold modify_task in Hm.
      destruct (tasks (set_current tid (kern c)) !! group_leader tp) as [tl|] eqn:Htl; [|done].
      injection Hm as <-. ksimpl.
      destruct (decide (group_leader tp = t)) as [Heq|Hne].
      - rewrite Heq in Htl |- *. rewrite lookup_insert_eq. rewrite Hts in Htl.
        injection Htl as <-. eexists. split; [done|]. right. left.
        exists tid, f, tp. done.
      - rewrite lookup_insert_ne by done. exists ts. split; [done|by left]. }
    destruct (decide (f_pc f = L207)) as [H207|H207].
    { unfold checkpoint_thread_step in Hs. rewrite H207 in Hs.
      apply bind_inv in Hs as ([] & k1 & Hset & Hs).
      apply ret_inv in Hs as [_ ->].
      unfold atomic_set in Hset. apply bind_inv in Hset as ([] & k2 & Hm & He).
      unfold emit in He. injection He as <-. unfold modify_task in Hm.
      destruct (tasks (set_current tid (kern c)) !! f_p f) as [tl|] eqn:Htl; [|done].
      injection Hm as <-. ksimpl.
      destruct (decide (f_p f = t)) as [Heq|Hne].
      - rewrite Heq. rewrite lookup_insert_eq. eexists. split; [done|]. right. right.
        exists tid, f. done.
      - rewrite lookup_insert_ne by done. exists ts. split; [done|by left]. }
    destruct (Hkeep _ _ _ _ _ (writes_counter_step f H167 H207) Hs Hts) as (ts' & H1 & H2).
    exists ts'. split; [done|by left].
  - destruct (idle c tid); [|done].
    destruct (sys_checkpoint_process E p (set_current tid (kern c)))
      as [[r k']|] eqn:Hs; [|done].
    injection Hstep as <-. cbn [kern].
    destruct (Hkeep _ _ _ _ _ (writes_counter_sys_checkpoint_process p) Hs Hts)
      as (ts' & H1 & H2).
    exists ts'. split; [done|by left].
Qed.

End counter.

(** X10: an arrival counter changes in two places only.  In one step of
    the system (a timer tick, a thread entering [checkpoint_thread], one
    statement of a thread inside it, or the checkpoint_process system
    call), the counter of a task [t] either stays as it is, or is
    incremented by one (in [int]) by a thread executing lines 167-168 whose
    [group_leader] is [t], or is set to 0 by [t] itself executing line
    207.  In particular the dispatcher, the capture and both wake-up
    functions never touch it, and no task disappears. *)
Theorem counter_changes_by_arrival_or_reset E a c c' t ts :
  step E a c = Some c' ->
  tasks (kern c) !! t = Some ts ->
  exists ts',
    tasks (kern c') !! t = Some ts'
    /\ (process_barrier ts' = process_barrier ts
        \/ (exists tid f tp,
              a = Run tid /\ frames c !! tid = Some f /\ f_pc f = L167
              /\ tasks (kern c) !! f_p f = Some tp /\ group_leader tp = t
              /\ process_barrier ts' = wrap_int (process_barrier ts + 1))
        \/ (exists tid f,
              a = Run tid /\ frames c !! tid = Some f /\ f_pc f = L207
              /\ f_p f = t /\ process_barrier ts' = 0)).
Proof. apply counter_step. Qed.

Lemma counter_changes_by_arrival_or_reset_witness :
  exists ts',
    tasks (kern demo_counted) !! 10 = Some ts'
    /\ (process_barrier ts' = 0 \/ process_barrier ts' = 1).
Proof.
  destruct (counter_changes_by_arrival_or_reset demo_E (Run 10) demo_at_168 demo_counted
              10 (task0 10 10 0 true) ltac:(by vm_compute) ltac:(by vm_compute))
    as (ts' & Hts' & [H|[(tid & f & tp & _ & _ & _ & _ & _ & H)|(tid & f & _ & _ & _ & _ & H)]]).
  - exists ts'. split; [exact Hts'|]. left. exact H.
  - exists ts'. split; [exact Hts'|]. right. exact H.
  - exists ts'. split; [exact Hts'|]. left. exact H.
Defined.

(** *** The system call from entry to exit *)

Lemma dispatch_events_ext E k1 k2 (l : list Z) :
  tasks k1 = tasks k2 -> dispatch_events E k1 <$> l = dispatch_events E k2 <$> l.
Proof.
  intros H. apply Forall_fmap_ext_1, Forall_forall. intros t _.
  unfold dispatch_events. by rewrite H.
Qed.

(** X11: the checkpoint_process system call from entry to exit.  For a
    pid that is not registered it logs entry and exit, returns -ESRCH and
    changes nothing else: no flag is set and no thread is woken.  For the
    pid of a task of a well-formed group it returns 0; between the entry
    and the exit line, which carries 0, its trace is that of the
    dispatcher; afterwards every thread of the group has
    TIF_NEED_CHECKPOINT set and every task outside the group is as it
    was. *)
Theorem sys_checkpoint_process_end_to_end E pid k :
  (pid_hash k !! pid = None ->
   sys_checkpoint_process E pid k
   = Some (- ESRCH, log [E_syscall_enter pid; E_syscall_exit (- ESRCH)] k))
  /\ (forall p l,
        pid_hash k !! pid = Some p -> wf_group k p l ->
        exists k',
          sys_checkpoint_process E pid k = Some (0, k')
          /\ new_events k k'
             = tagged (current k)
                 ([E_syscall_enter pid; E_spin_lock_irqsave]
                  ++ concat (dispatch_events E k <$> l)
                  ++ [E_spin_unlock_irqrestore; E_syscall_exit 0])
          /\ (forall t, t ∈ l ->
                exists ts, tasks k' !! t = Some ts /\ TIF_NEED_CHECKPOINT ts = true)
          /\ (forall t, t ∉ l -> tasks k' !! t = tasks k !! t)
          /\ signals k' = signals k /\ pid_hash k' = pid_hash k).
Proof.
  split.
  - intros Hnone. unfold sys_checkpoint_process, find_task_by_pid.
    repeat mstep. ksimpl. rewrite Hnone. repeat mstep. unfold ret.
    by rewrite !add_event_log, log_log.
  - intros p l Hp Hwf.
    destruct (checkpoint_process_ok E p l (add_event (E_syscall_enter pid) k))
      as (k1 & Hrun & Htr & Hcur & Hsig & Hhash & Hset & Hframe & Hdom); [exact Hwf|].
    exists (add_event (E_syscall_exit 0) k1). split.
    { unfold sys_checkpoint_process, find_task_by_pid. repeat mstep. ksimpl.
      rewrite Hp. rewrite (bind_some _ _ _ _ _ Hrun). by repeat mstep. }
    ksimpl. split_and!; try done.
    apply new_events_app. ksimpl. rewrite Htr, Hcur.
    rewrite (dispatch_events_ext E _ k) by done.
    unfold tagged. rewrite !fmap_app. simpl. rewrite <- !app_assoc. simpl.
    by rewrite <- !app_assoc.
Qed.

Lemma sys_checkpoint_process_end_to_end_witness :
  sys_checkpoint_process demo_E 12 demo_idle
  = Some (-3, log [E_syscall_enter 12; E_syscall_exit (-3)] demo_idle)
  /\ exists k',
       sys_checkpoint_process demo_E 10 demo_idle = Some (0, k')
       /\ (forall t, t ∈ [10; 11] ->
             exists ts, tasks k' !! t = Some ts /\ TIF_NEED_CHECKPOINT ts = true).
Proof.
  split.
  - exact (proj1 (sys_checkpoint_process_end_to_end demo_E 12 demo_idle) eq_refl).
  - assert (Hwf : wf_group demo_idle 10 [10; 11]).
    { apply (bool_decide_unpack _). by vm_compute. }
    destruct (proj2 (sys_checkpoint_process_end_to_end demo_E 10 demo_idle) 10 [10; 11]
                eq_refl Hwf) as (k' & Hrun & _ & Hset & _).
    exists k'. split; [exact Hrun|exact Hset].
Defined.

(** *** What the trigger reports and what [checkpoint_thread] returns *)

(** The leader's path from line 183 to its return when the timeout has
    elapsed before all threads arrived. *)
Lemma leader_timeout_path E c p l f tp n :
  frames c !! p = Some f -> f_p f = p -> f_pc f = L183 ->
  wf_group (kern c) p l ->
  tasks (kern c) !! p = Some tp ->
  group_nr_threads (kern c) p = Some n ->
  process_barrier tp <> n ->
  time_after (jiffies (kern c)) (f_timeout f) = true ->
  exists c',
    run E (replicate 5 (Run p)) c = Some c'
    /\ frames c' !! p = Some (goto (L_returned 0) f)
    /\ captures p (new_events (kern c) (kern c')) = 0%nat.
Proof.
  intros Hf Hp Hpc Hwf Htp Hn Hbar Htime.
  set (K := set_current p (kern c)).
  assert (Hsg : exists sg, signals (kern c) !! signal tp = Some sg /\ nr_threads sg = n).
  { unfold group_nr_threads in Hn. rewrite Htp in Hn.
    destruct (signals (kern c) !! signal tp) as [sg|]; [|done].
    injection Hn as <-. eauto. }
  destruct Hsg as (sg & Hsg & Hnr).
  (* line 183 *)
  assert (H1 : checkpoint_thread_step E f K = Some (goto L188 f, K)).
  { unfold checkpoint_thread_step. rewrite Hpc, Hp.
    erewrite bind_read_task by exact Htp. erewrite bind_read_signal by exact Hsg.
    rewrite Hnr. destruct (decide (process_barrier tp = n)); done. }
  (* line 188 and [barrier_timeout_wakeup] *)
  destruct (barrier_timeout_wakeup_ok E p l K tp n Hwf Htp Hn)
    as (K1 & Hw & Htr1 & Hcur1 & Hsig1 & Hkeep1).
  assert (H2 : checkpoint_thread_step E (goto L188 f) K = Some (goto L207 f, K1)).
  { unfold checkpoint_thread_step. simpl. rewrite bind_get.
    change (jiffies K) with (jiffies (kern c)). rewrite Htime, Hp.
    by rewrite (bind_some _ _ _ _ _ Hw). }
  destruct (Hkeep1 p tp Htp) as (tp1 & Htp1 & Hflag1 & Hbar1).
  (* line 207 *)
  set (K2 := add_event (E_atomic_set p 0)
               (set_tasks (<[p := with_process_barrier 0 tp1]> (tasks K1)) K1)).
  assert (H3 : checkpoint_thread_step E (goto L207 f) K1 = Some (goto L210 f, K2)).
  { unfold checkpoint_thread_step, atomic_set. simpl. rewrite Hp. by repeat mstep. }
  (* line 210 *)
  set (K3 := set_tasks (<[p := with_need_checkpoint false (with_process_barrier 0 tp1)]>
                          (tasks K2)) K2).
  assert (H4 : checkpoint_thread_step E (goto L210 f) K2 = Some (goto L211 f, K3)).
  { unfold checkpoint_thread_step. simpl. rewrite Hp.
    erewrite bind_modify_task by (subst K2; ksimpl; apply lookup_insert_eq).
    done. }
  (* line 211 *)
  assert (H5 : checkpoint_thread_step E (goto L211 f) K3
               = Some (goto (L_returned 0) f, K3)) by done.
  assert (Hid : forall k0, current k0 = p -> set_current p k0 = k0).
  { intros k0 Hk0. destruct k0. unfold set_current. simpl in *. by rewrite Hk0. }
  assert (HcK1 : set_current p K1 = K1) by (apply Hid; exact Hcur1).
  assert (HcK2 : set_current p K2 = K2) by (apply Hid; exact Hcur1).
  assert (HcK3 : set_current p K3 = K3) by (apply Hid; exact Hcur1).
  exists (mk_config K3 (<[p := goto (L_returned 0) f]> (frames c))).
  split.
  { cbn [replicate].
    erewrite run_cons by (eapply step_run; [exact Hf|exact H1]).
    erewrite run_cons
      by (eapply step_run; [apply lookup_insert_eq|simpl; exact H2]).
    erewrite run_cons
      by (eapply step_run; [apply lookup_insert_eq|simpl; rewrite HcK1; exact H3]).
    erewrite run_cons
      by (eapply step_run; [apply lookup_insert_eq|simpl; rewrite HcK2; exact H4]).
    erewrite run_cons
      by (eapply step_run; [apply lookup_insert_eq|simpl; rewrite HcK3; exact H5]).
    simpl. by rewrite !insert_insert_eq. }
  split; [apply lookup_insert_eq|].
  cbn [kern].
  rewrite (new_events_app (kern c) K3
             (tagged p ([E_debug_abort (pid tp) n (barrier_timeout_msec (kern c));
                         E_spin_lock_irqsave]
                        ++ timeout_events E (kern c) 0 l
                        ++ [E_spin_unlock_irqrestore; E_atomic_set p 0]))).
  - apply captures_quiet.
    repeat (apply Forall_app; split); try by repeat constructor.
    apply timeout_events_quiet.
  - subst K3 K2. ksimpl. rewrite Htr1, Hcur1. subst K. ksimpl.
    rewrite (timeout_events_ext E (set_current p (kern c)) (kern c)) by done.
    rewrite <- app_assoc. f_equal. unfold tagged. rewrite !fmap_app. simpl.
    rewrite <- !app_assoc. done.
Qed.

(** C9: the system call returns -ESRCH exactly when the pid lookup
    fails and 0 otherwise (the found task's group being well formed).
    [checkpoint_thread] returns at line 211 and nowhere else, and what it
    returns is 0: the statement at line 211 always executes, returns 0
    and changes nothing.  The statement at line 200 executes whenever
    [do_checkpoint_process] returns and drops the value: the frame after
    it is the same for every value, and the kernel is the one the
    capture left.  On a well-formed group whose [nr_threads] is the
    length of its thread list (the array size fitting [unsigned long],
    the index [int]) the capture does return, whether it succeeds or
    fails, so the statement at line 200 executes.  Hence a leader that
    finds all threads arrived returns 0 in seven statements whatever the
    capture returned, after exactly one capture call; a leader whose
    timeout has elapsed returns 0 in five statements without a capture
    call; and a released thread returns 0 in three statements. *)
Theorem C9_trigger_reports_lookup_only E p k :
  (forall t, pid_hash k !! p = Some t -> exists l, wf_group k t l) ->
  (exists k', sys_checkpoint_process E p k
              = Some (match pid_hash k !! p with Some _ => 0 | None => - ESRCH end, k'))
  /\ (forall r k', sys_checkpoint_process E p k = Some (r, k') ->
        (r = - ESRCH <-> pid_hash k !! p = None) /\ (r <> - ESRCH -> r = 0))
  /\ (forall f kk f' kk' r,
        checkpoint_thread_step E f kk = Some (f', kk') -> f_pc f' = L_returned r ->
        f_pc f = L211 /\ r = 0)
  /\ (forall f kk f' kk',
        f_pc f = L200 -> checkpoint_thread_step E f kk = Some (f', kk') ->
        f' = goto L203 f)
  /\ (forall f kk,
        f_pc f = L211 ->
        checkpoint_thread_step E f kk = Some (goto (L_returned 0) f, kk))
  /\ (forall f kk r kk',
        f_pc f = L200 -> do_checkpoint_process E (f_p f) kk = Some (r, kk') ->
        checkpoint_thread_step E f kk = Some (goto L203 f, kk'))
  /\ (forall f kk l,
        f_pc f = L200 ->
        wf_group kk (f_p f) l ->
        group_nr_threads kk (f_p f) = Some (Z.of_nat (length l)) ->
        0 < sizeof_ss_task E ->
        sizeof_ss_task E * Z.of_nat (length l) < 2 ^ 64 ->
        Z.of_nat (length l) < 2 ^ 31 ->
        exists r kk',
          do_checkpoint_process E (f_p f) kk = Some (r, kk')
          /\ checkpoint_thread_step E f kk = Some (goto L203 f, kk'))
  /\ (forall c q l f tq n r K1,
        frames c !! q = Some f -> f_p f = q -> f_pc f = L183 ->
        wf_group (kern c) q l ->
        tasks (kern c) !! q = Some tq ->
        group_nr_threads (kern c) q = Some n ->
        process_barrier tq = n ->
        do_checkpoint_process E q (add_event E_debug_elapsed (set_current q (kern c)))
        = Some (r, K1) ->
        exists c',
          run E (replicate 7 (Run q)) c = Some c'
          /\ frames c' !! q = Some (goto (L_returned 0) f)
          /\ captures q (new_events (kern c) (kern c')) = 1%nat)
  /\ (forall c q l f tq,
        frames c !! q = Some f -> f_p f = q -> f_pc f = L183 ->
        wf_group (kern c) q l ->
        tasks (kern c) !! q = Some tq ->
        group_nr_threads (kern c) q = Some (Z.of_nat (length l)) ->
        process_barrier tq = Z.of_nat (length l) ->
        0 < sizeof_ss_task E ->
        sizeof_ss_task E * Z.of_nat (length l) < 2 ^ 64 ->
        Z.of_nat (length l) < 2 ^ 31 ->
        exists r K1 c',
          do_checkpoint_process E q (add_event E_debug_elapsed (set_current q (kern c)))
          = Some (r, K1)
          /\ run E (replicate 7 (Run q)) c = Some c'
          /\ frames c' !! q = Some (goto (L_returned 0) f)
          /\ captures q (new_events (kern c) (kern c')) = 1%nat)
  /\ (forall c q l f tq n,
        frames c !! q = Some f -> f_p f = q -> f_pc f = L183 ->
        wf_group (kern c) q l ->
        tasks (kern c) !! q = Some tq ->
        group_nr_threads (kern c) q = Some n ->
        process_barrier tq <> n ->
        time_after (jiffies (kern c)) (f_timeout f) = true ->
        exists c',
          run E (replicate 5 (Run q)) c = Some c'
          /\ frames c' !! q = Some (goto (L_returned 0) f)
          /\ captures q (new_events (kern c) (kern c')) = 0%nat)
  /\ (forall c t g ts,
        frames c !! t = Some g -> f_pc g = L175 -> f_p g = t ->
        tasks (kern c) !! t = Some ts ->
        exists c' g',
          run E [Run t; Run t; Run t] c = Some c'
          /\ frames c' !! t = Some g' /\ f_pc g' = L_returned 0).
Proof.
  intros Hwf.
  assert (Hsys : exists k', sys_checkpoint_process E p k
                   = Some (match pid_hash k !! p with Some _ => 0 | None => - ESRCH end, k')).
  { unfold sys_checkpoint_process, find_task_by_pid. repeat mstep. ksimpl.
    destruct (pid_hash k !! p) as [t|] eqn:Hp.
    - destruct (Hwf t eq_refl) as [l Hl].
      destruct (checkpoint_process_ok E t l (add_event (E_syscall_enter p) k))
        as (k1 & Hrun & _); [exact Hl|].
      rewrite (bind_some _ _ _ _ _ Hrun). repeat mstep. eauto.
    - repeat mstep. eauto. }
  split; [exact Hsys|].
  split; [|split; [|split; [|split; [|split; [|split; [|split; [|split; [|split]]]]]]]].
  - intros r k' Hr. destruct Hsys as [k'' Hs]. rewrite Hs in Hr. simplify_eq.
    destruct (pid_hash k !! p); split; try done; split; done.
  - intros f kk f' kk' r Hstep Hret.
    destruct (checkpoint_thread_step_spec E _ _ _ _ Hstep) as (_ & evs & _ & Hpc).
    destruct (f_pc f); try done;
      repeat match goal with
             | H : _ /\ _ |- _ => destruct H
             | H : _ \/ _ |- _ => destruct H
             | H : exists _, _ |- _ => destruct H
             end; try congruence.
    + case_decide; congruence.
    + split; [done|congruence].
  - intros f kk f' kk' Hpc Hstep. unfold checkpoint_thread_step in Hstep.
    rewrite Hpc in Hstep. apply bind_inv in Hstep as (r & k1 & _ & Hstep).
    by apply ret_inv in Hstep as [-> _].
  - intros f kk Hpc. unfold checkpoint_thread_step. by rewrite Hpc.
  - intros f kk r kk' Hpc Hcap. unfold checkpoint_thread_step. rewrite Hpc.
    by rewrite (bind_some _ _ _ _ _ Hcap).
  - intros f kk l Hpc Hl Hn Hsz Hfit Hint.
    destruct (do_checkpoint_process_returns E (f_p f) l kk Hl Hn Hsz Hfit Hint)
      as (r & kk' & Hcap).
    exists r, kk'. split; [exact Hcap|].
    unfold checkpoint_thread_step. rewrite Hpc.
    by rewrite (bind_some _ _ _ _ _ Hcap).
  - intros c q l f tq n r K1 Hf Hq Hpc Hl Htq Hn Hbar Hcap.
    destruct (leader_success_path E c q l f tq n r K1 Hf Hq Hpc Hl Htq Hn Hbar Hcap)
      as (c' & Hrun & Hfr & _ & Hcount & _).
    exists c'. split; [done|]. split; [|done]. rewrite Hfr. apply lookup_insert_eq.
  - intros c q l f tq Hf Hq Hpc Hl Htq Hn Hbar Hsz Hfit Hint.
    destruct (do_checkpoint_process_returns E q l
                (add_event E_debug_elapsed (set_current q (kern c))))
      as (r & K1 & Hcap); [exact Hl|exact Hn|exact Hsz|exact Hfit|exact Hint|].
    destruct (leader_success_path E c q l f tq _ r K1 Hf Hq Hpc Hl Htq Hn Hbar Hcap)
      as (c' & Hrun & Hfr & _ & Hcount & _).
    exists r, K1, c'. split; [done|]. split; [done|]. split; [|done].
    rewrite Hfr. apply lookup_insert_eq.
  - intros c q l f tq n Hf Hq Hpc Hl Htq Hn Hbar Htime.
    exact (leader_timeout_path E c q l f tq n Hf Hq Hpc Hl Htq Hn Hbar Htime).
  - intros c t g ts Hg Hpc Ht Hts.
    destruct (steps_L175_return E c t g ts Hg Hpc Ht Hts)
      as (c' & g' & ts' & Hrun & Hg' & Hpc' & _).
    eauto.
Qed.

Lemma C9_witness :
  (forall t, pid_hash demo_idle !! 10 = Some t -> exists l, wf_group demo_idle t l)
  /\ (exists k', sys_checkpoint_process demo_E 10 demo_idle = Some (0, k'))
  /\ (exists k', sys_checkpoint_process demo_E 12 demo_idle = Some (-3, k'))
  /\ checkpoint_thread_step demo_E_failing (mk_frame 10 L211 0 10 500) demo_idle
     = Some (mk_frame 10 (L_returned 0) 0 10 500, demo_idle)
  /\ run demo_E_failing (take 11 demo_rendezvous) demo_start = Some demo_arrived
  /\ exists K1 c',
       do_checkpoint_process demo_E_failing 10
         (add_event E_debug_elapsed (set_current 10 (kern demo_arrived)))
       = Some (-5, K1)
       /\ checkpoint_thread_step demo_E_failing (mk_frame 10 L200 0 10 500)
            (add_event E_debug_elapsed (set_current 10 (kern demo_arrived)))
          = Some (mk_frame 10 L203 0 10 500, K1)
       /\ run demo_E_failing (replicate 7 (Run 10)) demo_arrived = Some c'
       /\ frames c' !! 10 = Some (mk_frame 10 (L_returned 0) 0 10 500)
       /\ captures 10 (new_events (kern demo_arrived) (kern c')) = 1%nat.
Proof.
  assert (H1 : forall t, pid_hash demo_idle !! 10 = Some t -> exists l, wf_group demo_idle t l).
  { intros t Ht. vm_compute in Ht. simplify_eq. exists [10; 11].
    apply (bool_decide_unpack _). by vm_compute. }
  assert (H2 : forall t, pid_hash demo_idle !! 12 = Some t -> exists l, wf_group demo_idle t l).
  { intros t Ht. vm_compute in Ht. done. }
  split; [exact H1|]. split.
  { exact (proj1 (C9_trigger_reports_lookup_only demo_E 10 demo_idle H1)). }
  split.
  { exact (proj1 (C9_trigger_reports_lookup_only demo_E 12 demo_idle H2)). }
  destruct (proj2 (proj2 (proj2 (proj2
              (C9_trigger_reports_lookup_only demo_E_failing 10 demo_idle H1)))))
    as (H211 & H200 & _ & _ & Hlead & _).
  split.
  { exact (H211 (mk_frame 10 L211 0 10 500) demo_idle eq_refl). }
  split; [by vm_compute|].
  assert (Hwf : wf_group (kern demo_arrived) 10 [10; 11]).
  { apply (bool_decide_unpack _). by vm_compute. }
  assert (Hf : frames demo_arrived !! 10 = Some (mk_frame 10 L183 0 10 500))
    by by vm_compute.
  assert (Hts : tasks (kern demo_arrived) !! 10 = Some (mk_task 10 10 0 true 10 1 2))
    by by vm_compute.
  assert (Hn : group_nr_threads (kern demo_arrived) 10 = Some 2) by by vm_compute.
  destruct (Hlead demo_arrived 10 [10; 11] (mk_frame 10 L183 0 10 500)
              (mk_task 10 10 0 true 10 1 2) Hf eq_refl eq_refl Hwf Hts Hn
              eq_refl eq_refl eq_refl eq_refl) as (r & K1 & c' & Hcap & Hrun & Hfr & Hcount).
  assert (Hr : r = -5).
  { vm_compute in Hcap. by injection Hcap as <- _. }
  subst r.
  exists K1, c'. split; [exact Hcap|]. split.
  { exact (H200 (mk_frame 10 L200 0 10 500) _ (-5) K1 eq_refl Hcap). }
  split; [exact Hrun|]. split; [exact Hfr|exact Hcount].
Defined.

(** *** The scheduler clock *)

Lemma sched_clock_mod HZ INITIAL_JIFFIES k :
  sched_clock HZ INITIAL_JIFFIES k
  = ((jiffies k - INITIAL_JIFFIES) * (NSEC_PER_SEC ÷ HZ)) mod 2 ^ 64.
Proof.
  unfold sched_clock, wrap_ulonglong, wrap_ulong.
  rewrite Z.mod_mod by done. by rewrite Z.mul_mod_idemp_l by done.
Qed.

Lemma sched_clock_exact HZ INITIAL_JIFFIES k n :
  0 < HZ ->
  0 <= n ->
  n * (NSEC_PER_SEC ÷ HZ) < 2 ^ 64 ->
  jiffies k = wrap_ulong (INITIAL_JIFFIES + n) ->
  sched_clock HZ INITIAL_JIFFIES k = n * (NSEC_PER_SEC ÷ HZ).
Proof.
  intros HHZ Hn Hfit Hj. rewrite sched_clock_mod, Hj. unfold wrap_ulong.
  rewrite <- Z.mul_mod_idemp_l by done.
  rewrite Zminus_mod_idemp_l.
  replace (INITIAL_JIFFIES + n - INITIAL_JIFFIES) with n by lia.
  rewrite Z.mul_mod_idemp_l by done.
  apply Z.mod_small. split; [|done].
  apply Z.mul_nonneg_nonneg; [done|]. apply Z.quot_pos; [done|lia].
Qed.

(** X12: [sched_clock] is the number of jiffies since INITIAL_JIFFIES
    times the length of a jiffy in nanoseconds, NSEC_PER_SEC / HZ: with
    [n] jiffies elapsed it returns [n * (NSEC_PER_SEC / HZ)] as long as
    that fits 64 bits, also when the jiffies counter has wrapped around
    in between. *)
Theorem sched_clock_counts_jiffies HZ INITIAL_JIFFIES k n :
  0 < HZ ->
  0 <= n ->
  n * (NSEC_PER_SEC ÷ HZ) < 2 ^ 64 ->
  jiffies k = wrap_ulong (INITIAL_JIFFIES + n) ->
  sched_clock HZ INITIAL_JIFFIES k = n * (NSEC_PER_SEC ÷ HZ).
Proof. apply sched_clock_exact. Qed.

Lemma sched_clock_counts_jiffies_witness :
  sched_clock 1000 (2 ^ 64 - 300000) (set_jiffies 5 demo_quiet) = 300005 * 1000000.
Proof.
  apply (sched_clock_counts_jiffies 1000 (2 ^ 64 - 300000) (set_jiffies 5 demo_quiet) 300005);
    [lia|lia|by vm_compute|by vm_compute].
Defined.

(** X13: every timer tick advances [sched_clock] by NSEC_PER_SEC / HZ
    nanoseconds modulo 2^64, whatever the jiffies counter and the clock
    hold, so the clock wraps around with the 64-bit product. *)
Theorem sched_clock_tick E HZ INITIAL_JIFFIES c :
  exists c',
    step E Tick c = Some c'
    /\ sched_clock HZ INITIAL_JIFFIES (kern c')
       = wrap_ulonglong (sched_clock HZ INITIAL_JIFFIES (kern c) + NSEC_PER_SEC ÷ HZ).
Proof.
  eexists. split; [reflexivity|]. cbn [kern]. rewrite !sched_clock_mod.
  unfold wrap_ulonglong. cbn [jiffies set_jiffies]. unfold wrap_ulong.
  rewrite Zplus_mod_idemp_l.
  rewrite <- Z.mul_mod_idemp_l by done. rewrite Zminus_mod_idemp_l.
  rewrite Z.mul_mod_idemp_l by done. f_equal. lia.
Qed.

(** X14: the clock is as fine as a jiffy and no finer, and the quotient
    NSEC_PER_SEC / HZ truncates: HZ jiffies after INITIAL_JIFFIES, one
    second by the tick rate, [sched_clock] returns NSEC_PER_SEC less the
    remainder of NSEC_PER_SEC by HZ, a full second exactly when HZ
    divides NSEC_PER_SEC. *)
Theorem sched_clock_one_second HZ INITIAL_JIFFIES k :
  0 < HZ ->
  jiffies k = wrap_ulong (INITIAL_JIFFIES + HZ) ->
  sched_clock HZ INITIAL_JIFFIES k = NSEC_PER_SEC - NSEC_PER_SEC mod HZ
  /\ (sched_clock HZ INITIAL_JIFFIES k = NSEC_PER_SEC <-> (HZ | NSEC_PER_SEC)).
Proof.
  intros HHZ Hj.
  assert (Hq : NSEC_PER_SEC ÷ HZ = NSEC_PER_SEC / HZ).
  { apply Z.quot_div_nonneg; [done|lia]. }
  assert (Hval : HZ * (NSEC_PER_SEC ÷ HZ) = NSEC_PER_SEC - NSEC_PER_SEC mod HZ).
  { rewrite Hq. pose proof (Z.div_mod NSEC_PER_SEC HZ). lia. }
  assert (Hrem : 0 <= NSEC_PER_SEC mod HZ < HZ) by (apply Z.mod_pos_bound; lia).
  assert (Hclock : sched_clock HZ INITIAL_JIFFIES k = NSEC_PER_SEC - NSEC_PER_SEC mod HZ).
  { rewrite <- Hval. apply sched_clock_exact; try done; [lia|].
    rewrite Hval. unfold NSEC_PER_SEC in *. lia. }
  split; [done|]. rewrite Hclock. rewrite <- Z.mod_divide by lia. lia.
Qed.

Lemma sched_clock_one_second_witness :
  sched_clock 300 0 (set_jiffies 300 demo_quiet) = 999999900
  /\ ~ (300 | NSEC_PER_SEC).
Proof.
  pose proof (sched_clock_one_second 300 0 (set_jiffies 300 demo_quiet)
                ltac:(lia) ltac:(by vm_compute)) as [H1 H2].
  split; [exact H1|]. intros Hd. apply H2 in Hd. rewrite H1 in Hd. by vm_compute in Hd.
Defined.

#[local] Open Scope fit_scope.

(** *** The FIT machine table: lookup by hostname *)

Lemma strncmp_refl a n : strncmp a a n = 0.
Proof.
  revert a. induction n as [|n IH]; intros [|c a]; simpl; try done.
  by rewrite decide_True.
Qed.

Lemma strncmp_ge a : forall b n m,
  (String.length a <= n)%nat -> (String.length b <= n)%nat -> (n <= m)%nat ->
  strncmp a b m = strncmp a b n.
Proof.
  induction a as [|c1 a IH]; intros [|c2 b] n m Ha Hb Hnm; simpl in *.
  - by destruct m, n.
  - destruct m, n; simpl; try done; lia.
  - destruct m, n; simpl; try done; lia.
  - destruct m as [|m], n as [|n]; simpl; try lia.
    destruct (decide (c1 = c2)); [|done]. apply IH; lia.
Qed.

Section fit_facts.
Context (cfg : fit_config).

Lemma find_fit_machine_from_spec table name : forall i,
  match find_fit_machine_from cfg table name i with
  | Some r =>
      (i <= r)%nat /\
      exists m, table !! (r - i)%nat = Some m
        /\ strncmp name (hostname m) (FIT_HOSTNAME_MAX cfg) = 0
        /\ forall j m', (j < r - i)%nat -> table !! j = Some m' ->
             strncmp name (hostname m') (FIT_HOSTNAME_MAX cfg) <> 0
  | None =>
      forall j m', table !! j = Some m' ->
        strncmp name (hostname m') (FIT_HOSTNAME_MAX cfg) <> 0
  end.
Proof.
  induction table as [|m table IH]; intros i; simpl.
  - intros j m' H. done.
  - destruct (decide (strncmp name (hostname m) (FIT_HOSTNAME_MAX cfg) = 0)) as [Heq|Hne].
    + split; [lia|]. exists m. rewrite Nat.sub_diag. split; [done|]. split; [done|].
      intros j m' Hj. lia.
    + specialize (IH (S i)).
      destruct (find_fit_machine_from cfg table name (S i)) as [r|].
      * destruct IH as (Hle & m1 & Hm1 & Hz & Hfirst). split; [lia|].
        exists m1. replace (r - i)%nat with (S (r - S i)) by lia.
        split; [done|]. split; [done|].
        intros [|j] m' Hj Hm'; simpl in Hm'; [by simplify_eq|].
        apply (Hfirst j); [lia|done].
      * intros [|j] m' Hm'; simpl in Hm'; [by simplify_eq|]. by eapply IH.
Qed.
End fit_facts.

(** *** The FIT machine table: the loop of [init_global_lid_qpn] *)

Ltac fsimpl :=
  cbn [lego_cluster_hostnames lego_cluster WUKLAB_CLUSTER cluster_used_machines
       global_lid global_first_qpn printk_log] in *.

Lemma testbit_setbit_nat a (m m' : nat) :
  Z.testbit (Z.setbit a (Z.of_nat m)) (Z.of_nat m') = true
  <-> m = m' \/ Z.testbit a (Z.of_nat m') = true.
Proof. rewrite Z.setbit_iff by lia. split; intros [?|?]; auto; left; lia. Qed.

Lemma setbit_set a n : 0 <= n -> Z.testbit a n = true -> Z.setbit a n = a.
Proof.
  intros Hn Hbit. apply Z.bits_inj'. intros m Hm. rewrite Z.setbit_eqb by done.
  destruct (Z.eqb_spec n m) as [->|]; [by rewrite Hbit|done].
Qed.

Lemma assign_fit_machine_fresh nid machine m s :
  WUKLAB_CLUSTER s !! machine = Some m ->
  (machine < 32)%nat ->
  Z.testbit (cluster_used_machines s) (Z.of_nat machine) = false ->
  (nid < length (lego_cluster s))%nat ->
  (nid < length (global_lid s))%nat ->
  (nid < length (global_first_qpn s))%nat ->
  assign_fit_machine nid machine s = Returns 0 (assigned nid machine m s).
Proof.
  intros Hm Hlt Hbit H1 H2 H3.
  unfold assign_fit_machine, fit_bind, test_and_set_bit.
  destruct (decide (machine < 32)%nat); [|done]. rewrite Hbit.
  unfold deref, load at 1. simpl. rewrite Hm.
  assert (Hlen : (machine < length (WUKLAB_CLUSTER s))%nat) by by eapply lookup_lt_Some.
  unfold assigned, finalized_qpn.
  destruct (decide (first_qpn m = 0)) as [Hq|Hq]; simpl.
  - unfold store at 1. simpl. destruct (decide (machine < length (WUKLAB_CLUSTER s))%nat); [|done].
    unfold store at 1. simpl. destruct (decide (nid < length (lego_cluster s))%nat); [|done].
    unfold load at 1. simpl. rewrite list_lookup_insert_eq by done.
    unfold load at 1. simpl. rewrite list_lookup_insert_eq by done.
    unfold store at 1. simpl. destruct (decide (nid < length (global_lid s))%nat); [|done].
    unfold load at 1. simpl. rewrite list_lookup_insert_eq by done.
    unfold load at 1. simpl. rewrite list_lookup_insert_eq by done.
    unfold store at 1. simpl. destruct (decide (nid < length (global_first_qpn s))%nat); [|done].
    done.
  - unfold store at 1. simpl. destruct (decide (nid < length (lego_cluster s))%nat); [|done].
    unfold load at 1. simpl. rewrite list_lookup_insert_eq by done.
    unfold load at 1. simpl. rewrite Hm.
    unfold store at 1. simpl. destruct (decide (nid < length (global_lid s))%nat); [|done].
    unfold load at 1. simpl. rewrite list_lookup_insert_eq by done.
    unfold load at 1. simpl. rewrite Hm.
    unfold store at 1. simpl. destruct (decide (nid < length (global_first_qpn s))%nat); [|done].
    unfold fit_ret. simpl. rewrite app_nil_r. by destruct s.
Qed.

Lemma assign_fit_machine_used nid machine s :
  (machine < 32)%nat ->
  Z.testbit (cluster_used_machines s) (Z.of_nat machine) = true ->
  assign_fit_machine nid machine s = Returns 1 s.
Proof.
  intros Hlt Hbit. unfold assign_fit_machine, fit_bind, test_and_set_bit.
  destruct (decide (machine < 32)%nat); [|done]. rewrite Hbit.
  unfold fit_ret. rewrite setbit_set by (done || lia). by destruct s.
Qed.

Section init.

Context (cfg : fit_config).

Lemma find_fit_machine_from_names t1 : forall t2 name i,
  hostname <$> t1 = hostname <$> t2 ->
  find_fit_machine_from cfg t1 name i = find_fit_machine_from cfg t2 name i.
Proof.
  induction t1 as [|m1 t1 IH]; intros [|m2 t2] name i Heq; simpl in *; try done.
  injection Heq as Hm Ht. rewrite Hm. by rewrite (IH t2).
Qed.

Lemma find_fit_machine_from_lt table name : forall i r,
  find_fit_machine_from cfg table name i = Some r -> (r < i + length table)%nat.
Proof.
  induction table as [|m table IH]; intros i r H; simpl in *; [done|].
  destruct (decide _); [simplify_eq; lia|]. apply IH in H. lia.
Qed.

Lemma resolved_lookup s i h :
  lego_cluster_hostnames s !! i = Some h -> resolved cfg s !! i = Some (resolve cfg s h).
Proof. intros H. unfold resolved. by rewrite list_lookup_fmap, H. Qed.

Lemma resolved_length s : length (resolved cfg s) = length (lego_cluster_hostnames s).
Proof. unfold resolved. by rewrite length_fmap. Qed.

Lemma init_lines_snoc s0 i :
  concat (init_lines cfg s0 <$> seq 0 (S i))
  = concat (init_lines cfg s0 <$> seq 0 i) ++ init_lines cfg s0 i.
Proof. rewrite seq_S, fmap_app, concat_app. simpl. by rewrite app_nil_r. Qed.

Context (s0 : fit_state).
Context (Hfresh : fit_fresh cfg s0).

Lemma init_inv_start : init_inv cfg s0 0 false s0.
Proof.
  destruct Hfresh as (H1 & H2 & H3 & H4 & H5 & H6).
  constructor; try done.
  - intros m. by rewrite H5, Z.bits_0.
  - intros m. rewrite H5, Z.bits_0. simpl. split; [done|]. by intros ?%not_elem_of_nil.
  - simpl. split; [|done]. intros _. split; constructor.
  - intros _ j Hj. lia.
  - simpl. by rewrite app_nil_r.
Qed.

(** A node whose hostname is empty, unknown, or resolves to a machine
    already in use: the body logs [line] and sets [bug]. *)
Lemma init_inv_complain i b s h line :
  init_inv cfg s0 i b s ->
  lego_cluster_hostnames s0 !! i = Some h ->
  (resolve cfg s0 h = None
   \/ exists m, resolve cfg s0 h = Some m
        /\ Z.testbit (cluster_used_machines s) (Z.of_nat m) = true) ->
  init_lines cfg s0 i = [line] ->
  init_inv cfg s0 (S i) true (logged [line] s).
Proof.
  intros [I1 I2 I3 I4 I5 I6 I6' I7 I8 I9 I10] Hh Hbad Hline.
  pose proof (resolved_lookup s0 i h Hh) as HR.
  pose proof (take_S_r _ _ _ HR) as Htake.
  constructor; unfold logged; fsimpl; rewrite ?Htake; try done.
  - intros m. rewrite I7, elem_of_app, list_elem_of_singleton.
    split; [auto|]. intros [Hin|Heq]; [done|].
    destruct Hbad as [Hnone|(m' & Hm' & Hbit)]; [congruence|].
    apply I7. congruence.
  - split; [done|]. intros [Hall Hnd]. exfalso.
    rewrite Forall_app, Forall_singleton in Hall. destruct Hall as [_ Hall].
    destruct Hbad as [Hnone|(m' & Hm' & Hbit)].
    + rewrite Hnone in Hall. by destruct Hall.
    + rewrite NoDup_app in Hnd. destruct Hnd as (_ & Hdis & _).
      apply I7 in Hbit. apply (Hdis _ Hbit). rewrite Hm'. by left.
  - by rewrite init_lines_snoc, I10, Hline, app_assoc.
Qed.

(** A node whose hostname resolves to a machine not yet in use. *)
Lemma init_inv_assign i b s name machine m :
  init_inv cfg s0 i b s ->
  (i < CONFIG_FIT_NR_NODES cfg)%nat ->
  lego_cluster_hostnames s0 !! i = Some (Some name) ->
  resolve cfg s0 (Some name) = Some machine ->
  WUKLAB_CLUSTER s !! machine = Some m ->
  Z.testbit (cluster_used_machines s) (Z.of_nat machine) = false ->
  init_inv cfg s0 (S i) b (assigned i machine m s).
Proof.
  intros [I1 I2 I3 I4 I5 I6 I6' I7 I8 I9 I10] Hi Hh Hres Hm Hbit.
  pose proof (resolved_lookup s0 i _ Hh) as HR. rewrite Hres in HR.
  assert (Hm0 : WUKLAB_CLUSTER s0 !! machine = Some m) by by rewrite <- I6.
  assert (Hnotin : Some machine ∉ take i (resolved cfg s0)).
  { intros Hin. apply I7 in Hin. congruence. }
  pose proof (take_S_r _ _ _ HR) as Htake.
  constructor; unfold assigned; fsimpl; rewrite ?Htake; try (by rewrite ?length_insert).
  - destruct (decide (first_qpn m = 0)); [|done].
    rewrite <- I5. rewrite list_fmap_insert. simpl.
    apply list_insert_id. rewrite list_lookup_fmap, Hm. done.
  - intros m' Hbit'.
    assert (machine <> m' /\ Z.testbit (cluster_used_machines s) (Z.of_nat m') = false)
      as [Hne Hb].
    { destruct (Z.testbit (cluster_used_machines s) (Z.of_nat m')) eqn:Hb.
      - assert (Z.testbit (Z.setbit (cluster_used_machines s) (Z.of_nat machine))
                  (Z.of_nat m') = true) by (apply testbit_setbit_nat; auto).
        congruence.
      - split; [|done]. intros ->.
        assert (Z.testbit (Z.setbit (cluster_used_machines s) (Z.of_nat m'))
                  (Z.of_nat m') = true) by (apply testbit_setbit_nat; auto).
        congruence. }
    rewrite <- I6 by done.
    destruct (decide (first_qpn m = 0)); [|done]. by rewrite list_lookup_insert_ne.
  - intros m' [<-|Hb]%testbit_setbit_nat.
    + rewrite Hm0. unfold finalized, finalized_qpn. simpl.
      destruct (decide (first_qpn m = 0)).
      * apply list_lookup_insert_eq. by eapply lookup_lt_Some.
      * rewrite Hm. by destruct m.
    + destruct (decide (machine = m')) as [<-|Hne]; [congruence|].
      rewrite <- I6' by done.
      destruct (decide (first_qpn m = 0)); [|done]. by rewrite list_lookup_insert_ne.
  - intros m'. rewrite testbit_setbit_nat, I7, elem_of_app, list_elem_of_singleton.
    split; [intros [->|H]; [by right|by left]|intros [H|H]; [by right|left; congruence]].
  - rewrite I8, Forall_app, Forall_singleton, NoDup_app.
    split.
    + intros [Hall Hnd]. split; [split; [done|by eexists]|].
      split; [done|]. split; [|apply NoDup_singleton].
      intros x Hx ->%list_elem_of_singleton. done.
    + intros [[Hall _] (Hnd & _ & _)]. done.
  - intros Hb j Hj. destruct (decide (j = i)) as [->|Hne].
    + exists machine, m. rewrite !list_lookup_insert_eq by lia. done.
    + destruct (I9 Hb j) as (mj & ej & H1 & H2 & H3 & H4 & H5); [lia|].
      exists mj, ej. rewrite !list_lookup_insert_ne by done. done.
  - rewrite init_lines_snoc, I10, app_assoc. f_equal.
    unfold init_lines. rewrite Hh, Hres.
    destruct (decide (Some machine ∈ take i (resolved cfg s0))); [done|].
    by rewrite Hm0.
Qed.

Lemma init_global_lid_qpn_body_inv i b s :
  init_inv cfg s0 i b s ->
  (i < CONFIG_FIT_NR_NODES cfg)%nat ->
  exists b' s',
    init_global_lid_qpn_body cfg i b s = Returns b' s' /\ init_inv cfg s0 (S i) b' s'.
Proof.
  intros Hinv Hi.
  destruct Hfresh as (H1 & H2 & H3 & H4 & H5 & H6).
  destruct (lookup_lt_is_Some_2 (lego_cluster_hostnames s0) i) as [h Hh]; [lia|].
  unfold init_global_lid_qpn_body, fit_bind, load at 1.
  rewrite (inv_hostnames _ _ _ _ _ Hinv), Hh.
  destruct h as [name|].
  - unfold find_fit_machine.
    rewrite (find_fit_machine_from_names _ _ _ _ (inv_names _ _ _ _ _ Hinv)).
    destruct (find_fit_machine_from cfg (WUKLAB_CLUSTER s0) name 0) as [machine|] eqn:Hfind.
    + assert (Hlt : (machine < length (WUKLAB_CLUSTER s0))%nat).
      { apply find_fit_machine_from_lt in Hfind. lia. }
      destruct (Z.testbit (cluster_used_machines s) (Z.of_nat machine)) eqn:Hbit.
      * rewrite assign_fit_machine_used by (done || lia).
        rewrite decide_False by done. simpl.
        eexists _, _. split; [reflexivity|].
        eapply init_inv_complain; [done|exact Hh|right; eauto|].
        unfold init_lines. rewrite Hh. simpl. rewrite Hfind.
        rewrite decide_True; [done|]. by apply (inv_used _ _ _ _ _ Hinv).
      * assert (is_Some (WUKLAB_CLUSTER s !! machine)) as [m Hm].
        { apply lookup_lt_is_Some.
          rewrite <- (length_fmap hostname), (inv_names _ _ _ _ _ Hinv), length_fmap. done. }
        erewrite assign_fit_machine_fresh;
          [|exact Hm|lia|done
           |rewrite (inv_len_cluster _ _ _ _ _ Hinv); done
           |rewrite (inv_len_lid _ _ _ _ _ Hinv); done
           |rewrite (inv_len_qpn _ _ _ _ _ Hinv); done].
        rewrite decide_True by done.
        eexists _, _. split; [reflexivity|].
        by eapply init_inv_assign.
    + simpl. eexists _, _. split; [reflexivity|].
      eapply init_inv_complain; [done|exact Hh|by left|].
      unfold init_lines. rewrite Hh. simpl. by rewrite Hfind.
  - simpl. eexists _, _. split; [reflexivity|].
    eapply init_inv_complain; [done|exact Hh|by left|].
    unfold init_lines. by rewrite Hh.
Qed.

Lemma init_global_lid_qpn_loop n : forall i b s,
  init_inv cfg s0 i b s ->
  (i + n = CONFIG_FIT_NR_NODES cfg)%nat ->
  exists b' s',
    for_each_nid n i (init_global_lid_qpn_body cfg) b s = Returns b' s'
    /\ init_inv cfg s0 (CONFIG_FIT_NR_NODES cfg) b' s'.
Proof.
  induction n as [|n IH]; intros i b s Hinv Hn; simpl.
  - exists b, s. split; [done|]. by replace (CONFIG_FIT_NR_NODES cfg) with i by lia.
  - destruct (init_global_lid_qpn_body_inv i b s Hinv) as (b1 & s1 & Hbody & Hinv1); [lia|].
    unfold fit_bind. rewrite Hbody. apply IH; [done|lia].
Qed.

Lemma init_global_lid_qpn_inv :
  exists b s',
    init_global_lid_qpn cfg s0
    = match b with
      | true => Panics "Please check your network config!" s'
      | false => Returns tt s'
      end
    /\ init_inv cfg s0 (CONFIG_FIT_NR_NODES cfg) b s'.
Proof.
  destruct (init_global_lid_qpn_loop (CONFIG_FIT_NR_NODES cfg) 0 false s0 init_inv_start)
    as (b & s' & Hloop & Hinv); [lia|].
  exists b, s'. split; [|done].
  unfold init_global_lid_qpn, fit_bind. rewrite Hloop. by destruct b.
Qed.

End init.

(** *** The FIT machine table: lookup, assignment and initialisation *)

Lemma init_global_lid_qpn_returns cfg s0 s :
  fit_fresh cfg s0 ->
  init_global_lid_qpn cfg s0 = Returns tt s ->
  init_inv cfg s0 (CONFIG_FIT_NR_NODES cfg) false s.
Proof.
  intros Hfresh Hrun.
  destruct (init_global_lid_qpn_inv cfg s0 Hfresh) as (b & s' & Hrun' & Hinv).
  rewrite Hrun' in Hrun. destruct b; [done|]. by injection Hrun as <-.
Qed.

Lemma take_resolved cfg s :
  fit_fresh cfg s -> take (CONFIG_FIT_NR_NODES cfg) (resolved cfg s) = resolved cfg s.
Proof.
  intros (H1 & _). apply take_ge. rewrite resolved_length. lia.
Qed.

(** X15: [find_fit_machine] returns the first entry of the table whose
    hostname agrees with the argument under [strncmp] with the bound
    FIT_HOSTNAME_MAX, NULL when there is none; it changes no global. *)
Theorem find_fit_machine_first_match cfg name s :
  exists r,
    find_fit_machine cfg name s = Returns r s
    /\ match r with
       | Some i =>
           exists m, WUKLAB_CLUSTER s !! i = Some m
             /\ strncmp name (hostname m) (FIT_HOSTNAME_MAX cfg) = 0
             /\ forall j m', (j < i)%nat -> WUKLAB_CLUSTER s !! j = Some m' ->
                  strncmp name (hostname m') (FIT_HOSTNAME_MAX cfg) <> 0
       | None =>
           forall j m', WUKLAB_CLUSTER s !! j = Some m' ->
             strncmp name (hostname m') (FIT_HOSTNAME_MAX cfg) <> 0
       end.
Proof.
  eexists. split; [reflexivity|].
  pose proof (find_fit_machine_from_spec cfg (WUKLAB_CLUSTER s) name 0) as H.
  destruct (find_fit_machine_from cfg (WUKLAB_CLUSTER s) name 0) as [r|]; [|done].
  destruct H as (_ & m & Hm & Hz & Hfirst). rewrite Nat.sub_0_r in Hm, Hfirst.
  exists m. done.
Qed.

Lemma find_fit_machine_from_bound cfg1 cfg2 table name : forall i,
  Forall (fun m => strncmp name (hostname m) (FIT_HOSTNAME_MAX cfg1)
                   = strncmp name (hostname m) (FIT_HOSTNAME_MAX cfg2)) table ->
  find_fit_machine_from cfg1 table name i = find_fit_machine_from cfg2 table name i.
Proof.
  induction table as [|m table IH]; intros i Hall; simpl; [done|].
  apply Forall_cons in Hall as [Hm Hall]. rewrite Hm.
  destruct (decide _); [done|]. by apply IH.
Qed.

Lemma WUKLAB_CLUSTER_init_names :
  Forall (fun name => String.length name = 8%nat) (hostname <$> WUKLAB_CLUSTER_init).
Proof. repeat constructor. Qed.

(** Lookup by an entry's own hostname in the table of the source. *)
Lemma find_fit_machine_by_own_hostname cfg s :
  hostname <$> WUKLAB_CLUSTER s = hostname <$> WUKLAB_CLUSTER_init ->
  ((8 <= FIT_HOSTNAME_MAX cfg)%nat ->
   forall i m, WUKLAB_CLUSTER s !! i = Some m ->
     find_fit_machine cfg (hostname m) s = Returns (Some i) s)
  /\ ((FIT_HOSTNAME_MAX cfg < 8)%nat ->
      find_fit_machine cfg "wuklab02" s = Returns (Some 0%nat) s).
Proof.
  intros Hnames. split.
  - intros Hmax i m Hm. unfold find_fit_machine. f_equal.
    assert (Hname : (hostname <$> WUKLAB_CLUSTER_init) !! i = Some (hostname m)).
    { by rewrite <- Hnames, list_lookup_fmap, Hm. }
    rewrite (find_fit_machine_from_names cfg _ WUKLAB_CLUSTER_init) by done.
    rewrite (find_fit_machine_from_bound cfg (mk_fit_config 0 0 8)).
    + clear -Hname. do 26 (destruct i as [|i]; [by injection Hname as <-|]). done.
    + pose proof WUKLAB_CLUSTER_init_names as Hlen.
      assert (Hl : String.length (hostname m) = 8%nat).
      { rewrite Forall_forall in Hlen. apply Hlen. by eapply list_elem_of_lookup_2. }
      rewrite Forall_fmap in Hlen. eapply Forall_impl; [exact Hlen|].
      intros m' Hm'. simpl in *. apply strncmp_ge; lia.
  - intros Hmax. unfold find_fit_machine. f_equal.
    rewrite (find_fit_machine_from_names cfg _ WUKLAB_CLUSTER_init) by done.
    simpl. destruct (FIT_HOSTNAME_MAX cfg) as [|[|[|[|[|[|[|[|n]]]]]]]]; try done. lia.
Qed.

(** X16: in the table of the source every hostname has eight characters
    and no two entries share one, so, provided FIT_HOSTNAME_MAX is at
    least 8, looking an entry up by its own hostname finds that entry.
    With a smaller bound the comparison stops early and "wuklab02" is
    taken for the first entry, wuklab00. *)
Theorem find_fit_machine_own_hostname cfg s :
  hostname <$> WUKLAB_CLUSTER s = hostname <$> WUKLAB_CLUSTER_init ->
  ((8 <= FIT_HOSTNAME_MAX cfg)%nat ->
   forall i m, WUKLAB_CLUSTER s !! i = Some m ->
     find_fit_machine cfg (hostname m) s = Returns (Some i) s)
  /\ ((FIT_HOSTNAME_MAX cfg < 8)%nat ->
      find_fit_machine cfg "wuklab02" s = Returns (Some 0%nat) s).
Proof. apply find_fit_machine_by_own_hostname. Qed.

Lemma find_fit_machine_own_hostname_witness :
  find_fit_machine fit_three_nodes "wuklab07" (fit_boot fit_three_nodes)
  = Returns (Some 7%nat) (fit_boot fit_three_nodes).
Proof.
  apply (proj1 (find_fit_machine_own_hostname fit_three_nodes (fit_boot fit_three_nodes)
                  eq_refl) ltac:(simpl; lia) 7%nat (mk_fit_machine_info "wuklab07" 4 74)).
  reflexivity.
Defined.

(** X17: [assign_fit_machine] gives a machine to one node only.  For a
    machine of the table that is not in use and a node inside the arrays
    it returns 0, marks the machine, replaces a first queue pair number
    of 0 by 72 in the table (with a warning), and records the machine,
    its lid and its queue pair number for the node; any later call for
    the same machine returns 1 and changes nothing. *)
Theorem assign_fit_machine_once nid nid' machine m s :
  WUKLAB_CLUSTER s !! machine = Some m ->
  (machine < 32)%nat ->
  Z.testbit (cluster_used_machines s) (Z.of_nat machine) = false ->
  (nid < length (lego_cluster s))%nat ->
  (nid < length (global_lid s))%nat ->
  (nid < length (global_first_qpn s))%nat ->
  exists s',
    assign_fit_machine nid machine s = Returns 0 s'
    /\ lego_cluster s' !! nid = Some (Some machine)
    /\ global_lid s' !! nid = Some (lid m)
    /\ global_first_qpn s' !! nid = Some (finalized_qpn m)
    /\ WUKLAB_CLUSTER s' !! machine = Some (finalized m)
    /\ (forall j, j <> machine -> WUKLAB_CLUSTER s' !! j = WUKLAB_CLUSTER s !! j)
    /\ printk_log s' = printk_log s ++
         (if decide (first_qpn m = 0)
          then [pr_info_stars; pr_info_qpn_not_finalized (hostname m); pr_info_stars]
          else [])
    /\ assign_fit_machine nid' machine s' = Returns 1 s'.
Proof.
  intros Hm Hlt Hbit H1 H2 H3. exists (assigned nid machine m s).
  split; [by apply assign_fit_machine_fresh|].
  unfold assigned. fsimpl. rewrite !list_lookup_insert_eq by done.
  split_and!; try done.
  - unfold finalized, finalized_qpn. destruct (decide (first_qpn m = 0)).
    + apply list_lookup_insert_eq. by eapply lookup_lt_Some.
    + rewrite Hm. by destruct m.
  - intros j Hj. destruct (decide (first_qpn m = 0)); [|done].
    by rewrite list_lookup_insert_ne.
  - apply assign_fit_machine_used; [done|]. fsimpl. apply Z.setbit_eq. lia.
Qed.

Lemma assign_fit_machine_once_witness :
  exists s',
    assign_fit_machine 1 0 (fit_boot fit_three_nodes) = Returns 0 s'
    /\ global_first_qpn s' !! 1%nat = Some 72
    /\ assign_fit_machine 2 0 s' = Returns 1 s'.
Proof.
  destruct (assign_fit_machine_once 1 2 0 (mk_fit_machine_info "wuklab00" 2 0)
              (fit_boot fit_three_nodes))
    as (s' & H1 & _ & _ & H2 & _ & _ & _ & H3);
    [reflexivity|lia|reflexivity|simpl; lia|simpl; lia|simpl; lia|].
  exists s'. done.
Defined.

(** X18: started with the globals as loaded, on a configuration in which
    every node has a hostname of the table and no two nodes resolve to
    the same machine, [init_global_lid_qpn] returns; it has recorded for
    every node the machine its hostname resolves to, that machine's lid,
    and its first queue pair number or 72 when the table gives 0; the log
    holds the warnings about those machines and nothing else. *)
Theorem init_global_lid_qpn_assigns cfg s :
  fit_fresh cfg s ->
  config_ok cfg s ->
  exists s',
    init_global_lid_qpn cfg s = Returns tt s'
    /\ (forall nid, (nid < CONFIG_FIT_NR_NODES cfg)%nat ->
          exists machine m,
            resolved cfg s !! nid = Some (Some machine)
            /\ WUKLAB_CLUSTER s !! machine = Some m
            /\ lego_cluster s' !! nid = Some (Some machine)
            /\ global_lid s' !! nid = Some (lid m)
            /\ global_first_qpn s' !! nid = Some (finalized_qpn m))
    /\ printk_log s'
       = printk_log s ++ concat (init_lines cfg s <$> seq 0 (CONFIG_FIT_NR_NODES cfg)).
Proof.
  intros Hfresh Hok.
  destruct (init_global_lid_qpn_inv cfg s Hfresh) as (b & s' & Hrun & Hinv).
  assert (Hb : b = false).
  { apply (inv_bug _ _ _ _ _ Hinv). by rewrite take_resolved. }
  subst b. exists s'. split; [done|]. split.
  - by apply (inv_arrays _ _ _ _ _ Hinv).
  - apply (inv_log _ _ _ _ _ Hinv).
Qed.

Lemma init_global_lid_qpn_assigns_witness :
  exists s',
    init_global_lid_qpn fit_three_nodes (fit_boot fit_three_nodes) = Returns tt s'
    /\ global_lid s' !! 1%nat = Some 8
    /\ printk_log s' = [pr_info_stars; pr_info_qpn_not_finalized "wuklab00"; pr_info_stars].
Proof.
  destruct (init_global_lid_qpn_assigns fit_three_nodes (fit_boot fit_three_nodes))
    as (s' & Hrun & Harr & Hlog);
    [apply (bool_decide_unpack _); by vm_compute
    |apply (bool_decide_unpack _); by vm_compute|].
  exists s'. split; [exact Hrun|]. split; [|exact Hlog].
  destruct (Harr 1%nat) as (machine & m & Hres & Hm & _ & Hlid & _); [simpl; lia|].
  vm_compute in Hres. injection Hres as <-. vm_compute in Hm. injection Hm as <-.
  exact Hlid.
Defined.

Lemma init_global_lid_qpn_bad_config cfg s :
  fit_fresh cfg s ->
  ~ config_ok cfg s ->
  exists s',
    init_global_lid_qpn cfg s = Panics "Please check your network config!" s'
    /\ printk_log s'
       = printk_log s ++ concat (init_lines cfg s <$> seq 0 (CONFIG_FIT_NR_NODES cfg)).
Proof.
  intros Hfresh Hbad.
  destruct (init_global_lid_qpn_inv cfg s Hfresh) as (b & s' & Hrun & Hinv).
  destruct b.
  - exists s'. split; [done|]. apply (inv_log _ _ _ _ _ Hinv).
  - destruct Hbad. unfold config_ok. rewrite <- (take_resolved cfg s) by done.
    by apply (inv_bug _ _ _ _ _ Hinv).
Qed.

(** X19: on any other configuration (a node without hostname, with a
    hostname that is not in the table, or with the machine of an earlier
    node) [init_global_lid_qpn] ends in [panic()], never in a return; by
    then it has gone through all nodes and logged one complaint for each
    such node, in node order. *)
Theorem init_global_lid_qpn_panics cfg s :
  fit_fresh cfg s ->
  ~ config_ok cfg s ->
  exists s',
    init_global_lid_qpn cfg s = Panics "Please check your network config!" s'
    /\ printk_log s'
       = printk_log s ++ concat (init_lines cfg s <$> seq 0 (CONFIG_FIT_NR_NODES cfg)).
Proof. apply init_global_lid_qpn_bad_config. Qed.

Lemma init_global_lid_qpn_panics_witness :
  exists s',
    init_global_lid_qpn fit_four_nodes (fit_boot fit_four_nodes)
    = Panics "Please check your network config!" s'
    /\ printk_log s' = [pr_info_stars; pr_info_qpn_not_finalized "wuklab00"; pr_info_stars;
                        pr_info_empty_hostname 3].
Proof.
  destruct (init_global_lid_qpn_panics fit_four_nodes (fit_boot fit_four_nodes))
    as (s' & Hrun & Hlog);
    [apply (bool_decide_unpack _); by vm_compute
    |apply (bool_decide_unpack _); by vm_compute|].
  exists s'. split; [exact Hrun|exact Hlog].
Defined.

(** *** The FIT machine table: after the initialisation *)

(** The globals after [init_global_lid_qpn] has returned, for one node. *)
Lemma init_global_lid_qpn_done cfg s0 s nid :
  fit_fresh cfg s0 ->
  init_global_lid_qpn cfg s0 = Returns tt s ->
  (nid < CONFIG_FIT_NR_NODES cfg)%nat ->
  exists machine m,
    resolved cfg s0 !! nid = Some (Some machine)
    /\ WUKLAB_CLUSTER s0 !! machine = Some m
    /\ lego_cluster s !! nid = Some (Some machine)
    /\ global_lid s !! nid = Some (lid m)
    /\ global_first_qpn s !! nid = Some (finalized_qpn m)
    /\ WUKLAB_CLUSTER s !! machine = Some (finalized m).
Proof.
  intros Hfresh Hrun Hnid.
  pose proof (init_global_lid_qpn_returns cfg s0 s Hfresh Hrun) as Hinv.
  destruct (inv_arrays _ _ _ _ _ Hinv eq_refl nid Hnid) as (machine & m & H1 & H2 & H3 & H4 & H5).
  exists machine, m. split_and!; try done.
  rewrite (inv_in_use _ _ _ _ _ Hinv), H2; [done|].
  apply (inv_used _ _ _ _ _ Hinv). apply elem_of_take. eauto.
Qed.

(** X20: [get_node_global_lid] and [get_node_first_qpn] hit [BUG_ON] for
    a node id outside the cluster, whatever the globals hold.  After
    [init_global_lid_qpn] has returned they give, for every node of the
    cluster, the lid and the first queue pair number of the machine the
    node's hostname resolves to; the queue pair number is never 0; they
    change no global. *)
Theorem get_node_after_init cfg s0 s nid :
  fit_fresh cfg s0 ->
  init_global_lid_qpn cfg s0 = Returns tt s ->
  ((CONFIG_FIT_NR_NODES cfg <= nid)%nat ->
   forall s1, get_node_global_lid cfg nid s1 = Bugs /\ get_node_first_qpn cfg nid s1 = Bugs)
  /\ ((nid < CONFIG_FIT_NR_NODES cfg)%nat ->
      exists machine m,
        resolved cfg s0 !! nid = Some (Some machine)
        /\ WUKLAB_CLUSTER s0 !! machine = Some m
        /\ get_node_global_lid cfg nid s = Returns (lid m) s
        /\ get_node_first_qpn cfg nid s = Returns (finalized_qpn m) s
        /\ finalized_qpn m <> 0).
Proof.
  intros Hfresh Hrun. split.
  - intros Hnid s1. unfold get_node_global_lid, get_node_first_qpn, fit_bind, BUG_ON.
    by rewrite bool_decide_eq_true_2.
  - intros Hnid.
    destruct (init_global_lid_qpn_done cfg s0 s nid Hfresh Hrun Hnid)
      as (machine & m & H1 & H2 & H3 & H4 & H5 & H6).
    exists machine, m. split; [done|]. split; [done|].
    unfold get_node_global_lid, get_node_first_qpn, fit_bind, BUG_ON, load.
    rewrite bool_decide_eq_false_2 by lia. rewrite H4, H5. split_and!; try done.
    unfold finalized_qpn. destruct (decide (first_qpn m = 0)); done.
Qed.

Lemma get_node_after_init_witness :
  get_node_global_lid fit_three_nodes 2 fit_ready = Returns 4 fit_ready
  /\ get_node_first_qpn fit_three_nodes 0 fit_ready = Returns 72 fit_ready
  /\ get_node_first_qpn fit_three_nodes 3 fit_ready = Bugs.
Proof.
  assert (Hfresh : fit_fresh fit_three_nodes (fit_boot fit_three_nodes)).
  { apply (bool_decide_unpack _). by vm_compute. }
  assert (Hrun : init_global_lid_qpn fit_three_nodes (fit_boot fit_three_nodes)
                 = Returns tt fit_ready) by by vm_compute.
  split; [|split].
  - destruct (proj2 (get_node_after_init fit_three_nodes _ fit_ready 2 Hfresh Hrun))
      as (machine & m & Hres & Hm & Hlid & _); [simpl; lia|].
    vm_compute in Hres. injection Hres as <-. vm_compute in Hm. injection Hm as <-.
    exact Hlid.
  - destruct (proj2 (get_node_after_init fit_three_nodes _ fit_ready 0 Hfresh Hrun))
      as (machine & m & Hres & Hm & _ & Hqpn & _); [simpl; lia|].
    vm_compute in Hres. injection Hres as <-. vm_compute in Hm. injection Hm as <-.
    exact Hqpn.
  - apply (proj1 (get_node_after_init fit_three_nodes _ fit_ready 3 Hfresh Hrun)).
    simpl. lia.
Defined.

(** X21: after [init_global_lid_qpn] has returned,
    [check_current_first_qpn(qpn)] compares [qpn] with the first queue
    pair number recorded for this machine (72 when the table gave 0): it
    is silent and changes nothing when they agree, and otherwise logs
    the seven error lines, naming both numbers, and changes nothing else.
    Called on the globals as loaded it dereferences the NULL entry of
    [lego_cluster]. *)
Theorem check_current_first_qpn_after_init cfg s0 s qpn :
  fit_fresh cfg s0 ->
  (CONFIG_FIT_LOCAL_ID cfg < CONFIG_FIT_NR_NODES cfg)%nat ->
  init_global_lid_qpn cfg s0 = Returns tt s ->
  (exists machine m,
     resolved cfg s0 !! CONFIG_FIT_LOCAL_ID cfg = Some (Some machine)
     /\ WUKLAB_CLUSTER s0 !! machine = Some m
     /\ check_current_first_qpn cfg qpn s
        = Returns tt
            (if decide (finalized_qpn m = qpn) then s
             else logged [pr_err_stars; pr_err_stars; pr_err_qpn_changed;
                          pr_err_fail_to_connect;
                          pr_err_previous_new (finalized_qpn m) qpn;
                          pr_err_stars; pr_err_stars] s))
  /\ check_current_first_qpn cfg qpn (fit_boot cfg) = Faults.
Proof.
  intros Hfresh Hlocal Hrun. split.
  - destruct (init_global_lid_qpn_done cfg s0 s _ Hfresh Hrun Hlocal)
      as (machine & m & H1 & H2 & H3 & H4 & H5 & H6).
    exists machine, m. split; [done|]. split; [done|].
    unfold check_current_first_qpn, fit_bind, load at 1. rewrite H3.
    unfold deref, load. rewrite H6. unfold finalized. simpl.
    destruct (decide (finalized_qpn m = qpn)); done.
  - unfold check_current_first_qpn, fit_bind, load at 1, fit_boot. fsimpl.
    rewrite lookup_replicate_2 by done. done.
Qed.

Lemma check_current_first_qpn_after_init_witness :
  check_current_first_qpn fit_three_nodes 72 fit_ready = Returns tt fit_ready
  /\ check_current_first_qpn fit_three_nodes 0 (fit_boot fit_three_nodes) = Faults.
Proof.
  assert (Hfresh : fit_fresh fit_three_nodes (fit_boot fit_three_nodes)).
  { apply (bool_decide_unpack _). by vm_compute. }
  assert (Hrun : init_global_lid_qpn fit_three_nodes (fit_boot fit_three_nodes)
                 = Returns tt fit_ready) by by vm_compute.
  split.
  - destruct (proj1 (check_current_first_qpn_after_init fit_three_nodes _ fit_ready 72
                       Hfresh ltac:(simpl; lia) Hrun))
      as (machine & m & Hres & Hm & Hcheck).
    vm_compute in Hres. injection Hres as <-. vm_compute in Hm. injection Hm as <-.
    exact Hcheck.
  - exact (proj2 (check_current_first_qpn_after_init fit_three_nodes _ fit_ready 0
                    Hfresh ltac:(simpl; lia) Hrun)).
Defined.

Lemma logged_logged l1 l2 s : logged l2 (logged l1 s) = logged (l1 ++ l2) s.
Proof. unfold logged. simpl. by rewrite app_assoc. Qed.

Lemma fit_bind_returns {A B} (m : F A) (f : A -> F B) s a s' :
  m s = Returns a s' -> fit_bind m f s = f a s'.
Proof. intros H. unfold fit_bind. by rewrite H. Qed.

Lemma fit_bind_bind {A B C} (m : F A) (f : A -> F B) (g : B -> F C) s :
  fit_bind (fit_bind m f) g s = fit_bind m (fun a => fit_bind (f a) g) s.
Proof. unfold fit_bind. by destruct (m s). Qed.

Lemma bind_load {A B} (a : fit_state -> list A) i (f : A -> F B) s v :
  a s !! i = Some v -> fit_bind (load a i) f s = f v s.
Proof. intros H. unfold fit_bind, load. by rewrite H. Qed.

Lemma bind_printk {B} lines (f : unit -> F B) s :
  fit_bind (printk lines) f s = f tt (logged lines s).
Proof. reflexivity. Qed.

Lemma bind_BUG_ON {B} cond (f : unit -> F B) s :
  cond = false -> fit_bind (BUG_ON cond) f s = f tt s.
Proof. by intros ->. Qed.

Lemma print_gloabl_lid_body_ok cfg s0 s i lines :
  fit_fresh cfg s0 ->
  init_global_lid_qpn cfg s0 = Returns tt s ->
  (i < CONFIG_FIT_NR_NODES cfg)%nat ->
  print_gloabl_lid_body cfg i tt (logged lines s)
  = Returns tt (logged (lines ++ print_lines cfg s0 i) s).
Proof.
  intros Hfresh Hrun Hi.
  destruct (init_global_lid_qpn_done cfg s0 s i Hfresh Hrun Hi)
    as (machine & m & H1 & H2 & H3 & H4 & H5 & H6).
  unfold print_lines. rewrite H1, H2.
  unfold print_gloabl_lid_body, get_node_global_lid, get_node_first_qpn.
  erewrite bind_load by exact H3. unfold deref.
  erewrite bind_load by exact H6.
  rewrite fit_bind_bind, bind_BUG_ON by (apply bool_decide_eq_false_2; lia).
  erewrite bind_load by exact H4.
  rewrite fit_bind_bind, bind_BUG_ON by (apply bool_decide_eq_false_2; lia).
  erewrite bind_load by exact H5.
  rewrite bind_printk, logged_logged.
  destruct (decide (i = CONFIG_FIT_LOCAL_ID cfg));
    unfold printk; rewrite logged_logged, <- app_assoc; done.
Qed.

Lemma print_gloabl_lid_loop cfg s0 s :
  fit_fresh cfg s0 ->
  init_global_lid_qpn cfg s0 = Returns tt s ->
  forall n i lines,
    (i + n = CONFIG_FIT_NR_NODES cfg)%nat ->
    for_each_nid n i (print_gloabl_lid_body cfg) tt (logged lines s)
    = Returns tt (logged (lines ++ concat (print_lines cfg s0 <$> seq i n)) s).
Proof.
  intros Hfresh Hrun. induction n as [|n IH]; intros i lines Hn; cbn [for_each_nid].
  - simpl. by rewrite app_nil_r.
  - erewrite fit_bind_returns by (apply (print_gloabl_lid_body_ok cfg s0); [done|done|lia]).
    rewrite IH by lia. simpl. by rewrite <- app_assoc.
Qed.

(** X22: after [init_global_lid_qpn] has returned, [print_gloabl_lid]
    returns without changing a global other than the log, to which it
    adds the local id, a rule, the header, then for every node in order
    the line with the node's id, hostname, lid and first queue pair
    number, continued by the arrow for the local node and by a plain
    line end for the others, and a closing rule.  Called on the globals
    as loaded (with at least one node) it dereferences the NULL entry
    of [lego_cluster]. *)
Theorem print_gloabl_lid_after_init cfg s0 s :
  fit_fresh cfg s0 ->
  init_global_lid_qpn cfg s0 = Returns tt s ->
  print_gloabl_lid cfg s
  = Returns tt
      (logged ([pr_info_local_id (CONFIG_FIT_LOCAL_ID cfg); pr_info_rule; pr_info_header]
               ++ concat (print_lines cfg s0 <$> seq 0 (CONFIG_FIT_NR_NODES cfg))
               ++ [pr_info_rule]) s)
  /\ ((0 < CONFIG_FIT_NR_NODES cfg)%nat -> print_gloabl_lid cfg (fit_boot cfg) = Faults).
Proof.
  intros Hfresh Hrun. split.
  - unfold print_gloabl_lid. unfold fit_bind at 1, printk at 1.
    unfold fit_bind at 1, printk at 1. unfold fit_bind at 1, printk at 1.
    rewrite !logged_logged. unfold fit_bind.
    rewrite (print_gloabl_lid_loop cfg s0 s Hfresh Hrun) by lia.
    unfold printk. rewrite logged_logged. by rewrite <- !app_assoc.
  - intros Hnr. unfold print_gloabl_lid, fit_bind, printk.
    destruct (CONFIG_FIT_NR_NODES cfg) as [|n] eqn:Hn; [lia|]. simpl.
    unfold fit_bind, print_gloabl_lid_body, fit_bind, load, logged, fit_boot. fsimpl.
    rewrite Hn. simpl. done.
Qed.

Lemma print_gloabl_lid_after_init_witness :
  print_gloabl_lid fit_three_nodes fit_ready
  = Returns tt
      (logged [pr_info_local_id 0; pr_info_rule; pr_info_header;
               pr_info_node 0 "wuklab00" 2 72; pr_cont_arrow;
               pr_info_node 1 "wuklab02" 8 72; pr_cont_newline;
               pr_info_node 2 "wuklab07" 4 74; pr_cont_newline;
               pr_info_rule] fit_ready).
Proof.
  assert (Hfresh : fit_fresh fit_three_nodes (fit_boot fit_three_nodes)).
  { apply (bool_decide_unpack _). by vm_compute. }
  assert (Hrun : init_global_lid_qpn fit_three_nodes (fit_boot fit_three_nodes)
                 = Returns tt fit_ready) by by vm_compute.
  exact (proj1 (print_gloabl_lid_after_init fit_three_nodes _ fit_ready Hfresh Hrun)).
Defined.

(** *** The FIT machine table: the configuration of the source *)

Lemma fit_boot_hostnames cfg :
  (3 <= CONFIG_FIT_NR_NODES cfg)%nat ->
  lego_cluster_hostnames (fit_boot cfg)
  = [Some "wuklab00"; Some "wuklab02"; Some "wuklab07"]
    ++ replicate (CONFIG_FIT_NR_NODES cfg - 3) None.
Proof.
  intros Hnr. unfold fit_boot, lego_cluster_hostnames_init. fsimpl.
  apply take_ge. rewrite length_app, length_replicate. simpl. lia.
Qed.

Lemma fit_boot_fresh cfg :
  (3 <= CONFIG_FIT_NR_NODES cfg)%nat -> fit_fresh cfg (fit_boot cfg).
Proof.
  intros Hnr. unfold fit_fresh. rewrite fit_boot_hostnames by done.
  unfold fit_boot. fsimpl. rewrite length_app, !length_replicate. simpl.
  split_and!; try done; lia.
Qed.

Lemma fit_boot_resolved cfg :
  (3 <= CONFIG_FIT_NR_NODES cfg)%nat ->
  resolved cfg (fit_boot cfg)
  = [find_fit_machine_from cfg WUKLAB_CLUSTER_init "wuklab00" 0;
     find_fit_machine_from cfg WUKLAB_CLUSTER_init "wuklab02" 0;
     find_fit_machine_from cfg WUKLAB_CLUSTER_init "wuklab07" 0]
    ++ replicate (CONFIG_FIT_NR_NODES cfg - 3) None.
Proof.
  intros Hnr. unfold resolved. rewrite fit_boot_hostnames by done.
  rewrite fmap_app, fmap_replicate. done.
Qed.

Lemma elem_of_init_lines cfg s nid line :
  (nid < CONFIG_FIT_NR_NODES cfg)%nat ->
  line ∈ init_lines cfg s nid ->
  line ∈ concat (init_lines cfg s <$> seq 0 (CONFIG_FIT_NR_NODES cfg)).
Proof.
  intros Hnid Hin. apply elem_of_concat_fmap. exists nid. split; [|done].
  apply elem_of_seq. lia.
Qed.

(** X23: with the hostname array and the table as they stand in the
    source, the initialisation succeeds exactly for a cluster of three
    nodes and a hostname bound of at least 8 characters: it then records
    the machines wuklab00, wuklab02 and wuklab07 with lids 2, 8, 4 and
    first queue pair numbers 72, 72, 74.  With more than three nodes
    node 3 has no hostname, and with a smaller bound wuklab02 is taken
    for wuklab00: both end in the panic. *)
Theorem fit_boot_configuration cfg :
  (3 <= CONFIG_FIT_NR_NODES cfg)%nat ->
  (CONFIG_FIT_NR_NODES cfg = 3%nat -> (8 <= FIT_HOSTNAME_MAX cfg)%nat ->
   exists s,
     init_global_lid_qpn cfg (fit_boot cfg) = Returns tt s
     /\ lego_cluster s = [Some 0%nat; Some 2%nat; Some 7%nat]
     /\ global_lid s = [2; 8; 4]
     /\ global_first_qpn s = [72; 72; 74])
  /\ ((3 < CONFIG_FIT_NR_NODES cfg)%nat ->
      exists s,
        init_global_lid_qpn cfg (fit_boot cfg) = Panics "Please check your network config!" s
        /\ pr_info_empty_hostname 3 ∈ printk_log s)
  /\ ((FIT_HOSTNAME_MAX cfg < 8)%nat ->
      exists s,
        init_global_lid_qpn cfg (fit_boot cfg) = Panics "Please check your network config!" s
        /\ pr_info_duplicated_hostname "wuklab02" 1 ∈ printk_log s).
Proof.
  intros Hnr. pose proof (fit_boot_fresh cfg Hnr) as Hfresh.
  pose proof (fit_boot_resolved cfg Hnr) as Hres.
  pose proof (fit_boot_hostnames cfg Hnr) as Hhosts.
  split; [|split].
  - intros H3 Hmax. rewrite H3 in Hres. cbn [Nat.sub replicate] in Hres.
    assert (Hfind : forall i m, WUKLAB_CLUSTER_init !! i = Some m ->
              find_fit_machine_from cfg WUKLAB_CLUSTER_init (hostname m) 0 = Some i).
    { intros i m Hm.
      pose proof (proj1 (find_fit_machine_by_own_hostname cfg (fit_boot cfg) eq_refl)
                    Hmax i m Hm) as Hf.
      unfold find_fit_machine in Hf. by injection Hf. }
    pose proof (Hfind 0%nat (mk_fit_machine_info "wuklab00" 2 0) eq_refl) as F0.
    pose proof (Hfind 2%nat (mk_fit_machine_info "wuklab02" 8 72) eq_refl) as F2.
    pose proof (Hfind 7%nat (mk_fit_machine_info "wuklab07" 4 74) eq_refl) as F7.
    cbn [hostname] in F0, F2, F7. rewrite F0, F2, F7 in Hres. clear Hfind F0 F2 F7.
    destruct (init_global_lid_qpn_inv cfg (fit_boot cfg) Hfresh) as (b & s & Hrun & Hinv).
    assert (Hb : b = false).
    { apply (inv_bug _ _ _ _ _ Hinv). rewrite take_resolved, Hres by done.
      split; [repeat constructor; by eexists|]. apply (bool_decide_unpack _). by vm_compute. }
    subst b. exists s. split; [done|].
    pose proof (inv_arrays _ _ _ _ _ Hinv eq_refl) as Harr. rewrite H3, Hres in Harr.
    pose proof (inv_len_cluster _ _ _ _ _ Hinv) as L1.
    pose proof (inv_len_lid _ _ _ _ _ Hinv) as L2.
    pose proof (inv_len_qpn _ _ _ _ _ Hinv) as L3. rewrite H3 in L1, L2, L3.
    destruct (Harr 0%nat) as (m0 & e0 & R0 & E0 & A0 & B0 & C0); [lia|].
    destruct (Harr 1%nat) as (m1 & e1 & R1 & E1 & A1 & B1 & C1); [lia|].
    destruct (Harr 2%nat) as (m2 & e2 & R2 & E2 & A2 & B2 & C2); [lia|].
    simpl in R0, R1, R2. simplify_eq. simpl in E0, E1, E2. simplify_eq.
    destruct (lego_cluster s) as [|a0 [|a1 [|a2 [|]]]]; try done.
    destruct (global_lid s) as [|b0 [|b1 [|b2 [|]]]]; try done.
    destruct (global_first_qpn s) as [|c0 [|c1 [|c2 [|]]]]; try done.
    simpl in *. by simplify_eq.
  - intros Hgt.
    assert (Hnone : lego_cluster_hostnames (fit_boot cfg) !! 3%nat = Some None).
    { rewrite Hhosts. simpl. apply lookup_replicate_2. lia. }
    destruct (init_global_lid_qpn_bad_config cfg (fit_boot cfg) Hfresh) as (s & Hrun & Hlog).
    { intros [Hall _]. rewrite Forall_forall in Hall.
      destruct (Hall None); [|done].
      apply list_elem_of_lookup. exists 3%nat. by rewrite (resolved_lookup _ _ _ _ Hnone). }
    exists s. split; [done|]. rewrite Hlog. apply elem_of_app. right.
    apply (elem_of_init_lines cfg _ 3); [lia|].
    unfold init_lines. rewrite Hnone. by left.
  - intros Hmax.
    assert (H0 : find_fit_machine_from cfg WUKLAB_CLUSTER_init "wuklab00" 0 = Some 0%nat).
    { unfold WUKLAB_CLUSTER_init. cbn [find_fit_machine_from hostname].
      by rewrite strncmp_refl. }
    assert (H1 : find_fit_machine_from cfg WUKLAB_CLUSTER_init "wuklab02" 0 = Some 0%nat).
    { pose proof (proj2 (find_fit_machine_by_own_hostname cfg (fit_boot cfg) eq_refl) Hmax) as Hf.
      unfold find_fit_machine in Hf. by injection Hf. }
    rewrite H0, H1 in Hres.
    destruct (init_global_lid_qpn_bad_config cfg (fit_boot cfg) Hfresh) as (s & Hrun & Hlog).
    { intros [_ Hnd]. rewrite Hres in Hnd. simpl in Hnd.
      apply NoDup_cons in Hnd as [Hnotin _]. apply Hnotin. by left. }
    exists s. split; [done|]. rewrite Hlog. apply elem_of_app. right.
    apply (elem_of_init_lines cfg _ 1); [lia|].
    assert (Hh1 : lego_cluster_hostnames (fit_boot cfg) !! 1%nat = Some (Some "wuklab02"))
      by by rewrite Hhosts.
    unfold init_lines. rewrite Hh1. unfold resolve.
    change (WUKLAB_CLUSTER (fit_boot cfg)) with WUKLAB_CLUSTER_init. rewrite H1.
    rewrite decide_True; [by left|]. rewrite Hres. by left.
Qed.

Lemma fit_boot_configuration_witness :
  (exists s,
     init_global_lid_qpn fit_three_nodes (fit_boot fit_three_nodes) = Returns tt s
     /\ global_lid s = [2; 8; 4])
  /\ (exists s,
        init_global_lid_qpn fit_four_nodes (fit_boot fit_four_nodes)
        = Panics "Please check your network config!" s
        /\ pr_info_empty_hostname 3 ∈ printk_log s).
Proof.
  split.
  - destruct (proj1 (fit_boot_configuration fit_three_nodes ltac:(simpl; lia)) eq_refl
                ltac:(simpl; lia)) as (s & Hrun & _ & Hlid & _).
    exists s. done.
  - exact (proj1 (proj2 (fit_boot_configuration fit_four_nodes ltac:(simpl; lia)))
             ltac:(simpl; lia)).
Defined.
